(** * ShadowSettle backend: a shallow embedding of the orchestration core

    The development follows the JavaScript sources of the backend:
    - [db.js]               the job ledger and the treasury-balance table,
    - [routes/jobs.js]      the HTTP routes in front of the job ledger,
    - [routes/settlement.js] treasury-balance read, settlement execution,
    - [iexec-client.js]     the bounded task observation and the result fetch.

    Asynchronous functions are embedded as functions from the outcome of the
    external calls they await (database, chain RPC, compute network) to the
    response they produce; a rejected promise or a thrown exception is the
    [Thrown] outcome. *)

From Stdlib Require Import ZArith Lia Bool List Ascii String.
From stdpp Require Import base option gmap strings list fin_maps.
Import ListNotations.

Local Open Scope string_scope.
Local Open Scope Z_scope.

(** ** JavaScript values used by the sources *)

(** A property read from a JavaScript object: absent ([undefined]), [null],
    or a value of the expected type. *)
Inductive js (A : Type) : Type :=
| js_undefined
| js_null
| js_val (a : A).
Arguments js_undefined {A}.
Arguments js_null {A}.
Arguments js_val {A} a.

(** A JSON document, as [express.json()] hands it to the routes and as
    Postgres stores it in a JSONB column.  Number literals are kept as text:
    no function of the backend modelled here computes with them. *)
#[local] Unset Elimination Schemes.
Inductive json : Type :=
| JNull
| JBool (b : bool)
| JNum (literal : string)
| JStr (s : string)
| JArr (items : list json)
| JObj (members : list (string * json)).
#[local] Set Elimination Schemes.

(** The result of running a function body: it returns or it throws. *)
Inductive outcome (A : Type) : Type :=
| Returned (a : A)
| Thrown (message : string).
Arguments Returned {A} a.
Arguments Thrown {A} message.

(** [x ?? d] *)
Definition nullish {A} (x : js A) (d : A) : A :=
  match x with js_val a => a | _ => d end.

(** [x === undefined ? d : x], the default of a destructuring pattern. *)
Definition destructuring_default {A} (x : js A) (d : A) : js A :=
  match x with js_undefined => js_val d | _ => x end.

(** Truthiness of a string-valued property: [undefined], [null] and the
    empty string are falsy. *)
Definition truthy (x : js string) : bool :=
  match x with
  | js_val s => negb (String.eqb s "")
  | _ => false
  end.

(** [x || null] for a string-valued property, as a nullable SQL parameter. *)
Definition or_null (x : js string) : option string :=
  match x with
  | js_val s => if String.eqb s "" then None else Some s
  | _ => None
  end.

(** Text in which every character is ASCII.  On such text the functions
    [toLowerCase] and [trim] below are those of JavaScript, character for
    character; beyond ASCII, JavaScript also folds the capital letters and
    strips the white space of Unicode (U+00A0, U+2028, U+FEFF, ...), which they
    leave alone. *)
Fixpoint ascii_text (s : string) : bool :=
  match s with
  | EmptyString => true
  | String c rest => (nat_of_ascii c <? 128)%nat && ascii_text rest
  end.

(** [String.prototype.toLowerCase] on ASCII text. *)
Definition lower_ascii (c : ascii) : ascii :=
  let n := nat_of_ascii c in
  if ((65 <=? n)%nat && (n <=? 90)%nat)%bool then ascii_of_nat (n + 32) else c.

Fixpoint toLowerCase (s : string) : string :=
  match s with
  | EmptyString => EmptyString
  | String c rest => String (lower_ascii c) (toLowerCase rest)
  end.

(** [s.startsWith(p)] *)
Definition startsWith (p s : string) : bool := String.prefix p s.

(** [s.slice(0, n)] *)
Definition slice0 (n : nat) (s : string) : string := String.substring 0 n s.

(** White space, as far as ASCII goes: tab to carriage return, and space. *)
Definition is_space (c : ascii) : bool :=
  let n := nat_of_ascii c in
  ((9 <=? n)%nat && (n <=? 13)%nat)%bool || (n =? 32)%nat.

(** [s.trimStart()] and [s.trimEnd()] *)
Fixpoint trimStart (s : string) : string :=
  match s with
  | String c rest => if is_space c then trimStart rest else s
  | EmptyString => EmptyString
  end.

Fixpoint trimEnd (s : string) : string :=
  match s with
  | EmptyString => EmptyString
  | String c rest =>
    match trimEnd rest with
    | EmptyString => if is_space c then EmptyString else String c EmptyString
    | t => String c t
    end
  end.

(** [s.trim()] on ASCII text. *)
Definition trim (s : string) : string := trimEnd (trimStart s).

(** ** The job ledger ([db.js], table [jobs]) *)

Module Ledger.

(** One row of the [jobs] table.  Nullable columns are options; the columns
    declared [NOT NULL] are not.  [result] is the JSONB column: [None] is SQL
    NULL, [Some JNull] is the JSON document [null]. *)
Record job : Type := mkJob {
  id : string;
  wallet_address : option string;
  task_id : string;
  deal_id : option string;
  settlement_name : string;
  status : string;
  result : option json;
  error : option string;
  dataset_url_override : option string;
  submitted_at : Z;
  settled_tx_hash : option string;
  settled_at : option Z;
  created_at : option Z;
  updated_at : option Z
}.

(** The table, keyed by its [UNIQUE NOT NULL] column [task_id]. *)
Abbreviation jobs_table := (gmap string job).

(** The argument object of [createJob]. *)
Record job_data : Type := mkData {
  d_wallet_address : js string;
  d_task_id : js string;
  d_deal_id : js string;
  d_settlement_name : js string;
  d_status : js string;
  d_result : js json;
  d_error : js string;
  d_dataset_url_override : js string;
  d_submitted_at : js Z
}.

(** A query parameter as node-postgres sends it: [undefined] and [null] are
    both sent as SQL NULL. *)
Definition sql_param {A} (x : js A) : option A :=
  match x with js_val a => Some a | _ => None end.

(** [result != null ? JSON.stringify(result) : null]: the JavaScript [null]
    is the JSON value [JNull], and becomes SQL NULL. *)
Definition result_param (x : js json) : option json :=
  match destructuring_default x JNull with
  | js_val JNull => None
  | js_val j => Some j
  | _ => None
  end.

(** [wallet_address ? String(wallet_address).toLowerCase() : null] *)
Definition wallet_param (x : js string) : option string :=
  if truthy x then option_map toLowerCase (sql_param x) else None.

(** [submitted_at instanceof Date ? submitted_at : new Date(submitted_at)],
    with the default [new Date()]; [new Date(null)] is the epoch. *)
Definition submitted_param (x : js Z) (now : Z) : Z :=
  match x with
  | js_undefined => now
  | js_null => 0
  | js_val t => t
  end.

(** A name between double quotes, as Postgres writes it in a message. *)
Definition quoted (name : string) : string :=
  String "034"%char (name ++ String "034"%char "").

(** The message of Postgres (version 13 and later) for a row that leaves a
    [NOT NULL] column of the table [jobs] empty. *)
Definition not_null_violation (column : string) : string :=
  "null value in column " ++ quoted column ++ " of relation " ++ quoted "jobs"
    ++ " violates not-null constraint".

(** The tuple proposed for insertion, [VALUES ($1, ..., $9)]; columns not
    listed take their defaults.  Postgres checks the NOT NULL constraints of
    the proposed tuple before it looks for a conflicting row. *)
Definition proposed (data : job_data) (now : Z) (uuid : string) : outcome job :=
  match sql_param (d_task_id data) with
  | None => Thrown (not_null_violation "task_id")
  | Some tid =>
    match sql_param (destructuring_default (d_settlement_name data) "Settlement") with
    | None => Thrown (not_null_violation "settlement_name")
    | Some name =>
      match sql_param (destructuring_default (d_status data) "submitted") with
      | None => Thrown (not_null_violation "status")
      | Some st =>
        Returned {|
          id := uuid;
          wallet_address := wallet_param (d_wallet_address data);
          task_id := tid;
          deal_id := or_null (d_deal_id data);
          settlement_name := name;
          status := st;
          result := result_param (d_result data);
          error := or_null (d_error data);
          dataset_url_override := or_null (d_dataset_url_override data);
          submitted_at := submitted_param (d_submitted_at data) now;
          settled_tx_hash := None;
          settled_at := None;
          created_at := Some now;
          updated_at := Some now |}
      end
    end
  end.

(** [COALESCE(a, b)] *)
Definition COALESCE {A} (a b : option A) : option A :=
  match a with Some _ => a | None => b end.

(** [ON CONFLICT (task_id) DO UPDATE SET ...]: [excluded] is the proposed
    tuple, [existing] the stored row. *)
Definition on_conflict_update (excluded existing : job) (now : Z) : job :=
  {| id := id existing;
     wallet_address := wallet_address existing;
     task_id := task_id existing;
     deal_id := COALESCE (deal_id excluded) (deal_id existing);
     (* COALESCE(EXCLUDED.settlement_name, jobs.settlement_name): the
        proposed tuple passed the NOT NULL check, so its name is taken *)
     settlement_name := settlement_name excluded;
     status := status excluded;
     result := COALESCE (result excluded) (result existing);
     error := error excluded;
     dataset_url_override := dataset_url_override existing;
     submitted_at := submitted_at existing;
     settled_tx_hash := settled_tx_hash existing;
     settled_at := settled_at existing;
     created_at := created_at existing;
     updated_at := Some now |}.

(** [createJob(data)].  [p] is [getPool()]: [None] when no database is
    configured.  [now] is the value of [NOW()] and [uuid] the value
    [gen_random_uuid()] would take on insertion.  The function returns the
    written row ([r.rows[0]], of which the statement returns a selection of
    columns) and the table after the statement. *)
Definition createJob (p : option jobs_table) (data : job_data) (now : Z) (uuid : string)
  : outcome (option job) * option jobs_table :=
  match p with
  | None => (Returned None, None)
  | Some tbl =>
    match proposed data now uuid with
    | Thrown m => (Thrown m, Some tbl)
    | Returned row =>
      let written :=
        match tbl !! task_id row with
        | Some existing => on_conflict_update row existing now
        | None => row
        end in
      (Returned (Some written), Some (<[task_id row := written]> tbl))
    end
  end.

(** A value sent as the parameter of a [TIMESTAMPTZ] column, as the database
    reads it.  node-postgres sends the text of the value ([String(n)] for a
    number, the string itself for a string), and the input function of the
    type reads a time from that text or rejects it with an error: the digits
    of a number of milliseconds, for one, are not a time. *)
Inductive timestamptz_param : Type :=
| Timestamp (t : Z)
| NotTimestamp (message : string).

(** The [updates] object of [updateJobByTaskId]; each property is either
    absent or carries the value to store ([null] stores SQL NULL, except for
    [result], which is stored as [JSON.stringify(result)]). *)
Record job_updates : Type := mkUpdates {
  u_status : js string;
  u_result : js json;
  u_error : js string;
  u_settledTxHash : js string;
  u_settledAt : js timestamptz_param
}.

Definition supplied {A} (x : js A) : bool :=
  match x with js_undefined => false | _ => true end.

(** [setClauses.length === 0] *)
Definition no_set_clause (u : job_updates) : bool :=
  negb (supplied (u_status u) || supplied (u_result u) || supplied (u_error u)
        || supplied (u_settledTxHash u) || supplied (u_settledAt u)).

(** [col = $i] for a nullable column. *)
Definition assign {A} (x : js A) (old : option A) : option A :=
  match x with
  | js_undefined => old
  | js_null => None
  | js_val a => Some a
  end.

(** [result = $i] with the parameter [JSON.stringify(result)]. *)
Definition assign_result (x : js json) (old : option json) : option json :=
  match x with
  | js_undefined => old
  | js_null => Some JNull
  | js_val j => Some j
  end.

(** The error of the database when it binds the parameters of the
    statement, before it looks at any row: the text sent for [settled_at] is
    not a time. *)
Definition bind_error (u : job_updates) : option string :=
  match u_settledAt u with
  | js_val (NotTimestamp m) => Some m
  | _ => None
  end.

(** The time that the database read from the parameter. *)
Definition bound_time (x : js timestamptz_param) : js Z :=
  match x with
  | js_val (Timestamp t) => js_val t
  | js_null => js_null
  | _ => js_undefined
  end.

(** [UPDATE jobs SET ... WHERE task_id = $i] on the matching row. *)
Definition apply_updates (u : job_updates) (r : job) (now : Z) : outcome job :=
  match bind_error u, u_status u with
  | Some m, _ => Thrown m
  | None, js_null => Thrown (not_null_violation "status")
  | None, st =>
    Returned {|
      id := id r;
      wallet_address := wallet_address r;
      task_id := task_id r;
      deal_id := deal_id r;
      settlement_name := settlement_name r;
      status := nullish st (status r);
      result := assign_result (u_result u) (result r);
      error := assign (u_error u) (error r);
      dataset_url_override := dataset_url_override r;
      submitted_at := submitted_at r;
      settled_tx_hash := assign (u_settledTxHash u) (settled_tx_hash r);
      settled_at := assign (bound_time (u_settledAt u)) (settled_at r);
      created_at := created_at r;
      updated_at := Some now |}
  end.

(** [updateJobByTaskId(taskId, updates)] *)
Definition updateJobByTaskId (p : option jobs_table) (taskId : string)
    (u : job_updates) (now : Z)
  : outcome (option job) * option jobs_table :=
  match p with
  | None => (Returned None, None)
  | Some tbl =>
    if no_set_clause u then (Returned None, Some tbl)
    else
      match bind_error u with
      | Some m => (Thrown m, Some tbl)
      | None =>
        match tbl !! taskId with
        | None => (Returned None, Some tbl)
        | Some r =>
          match apply_updates u r now with
          | Thrown m => (Thrown m, Some tbl)
          | Returned r' => (Returned (Some r'), Some (<[taskId := r']> tbl))
          end
        end
      end
  end.

(** [row.result != null] as a client reads the row: node-postgres parses
    the JSONB document, and the document [null] is the JavaScript [null]. *)
Definition has_result (r : job) : bool :=
  match result r with
  | None | Some JNull => false
  | Some _ => true
  end.

(** The invariant of the data model on a whole table. *)
Definition settled_only_with_result (tbl : jobs_table) : Prop :=
  forall t r, tbl !! t = Some r -> is_Some (settled_tx_hash r) -> has_result r = true.

(** A request to the ledger with the value of [NOW()] when it runs. *)
Inductive request : Type :=
| Create (data : job_data) (uuid : string)
| Patch (taskId : string) (u : job_updates).

Definition table_after (before : jobs_table) (x : outcome (option job) * option jobs_table)
  : jobs_table :=
  match snd x with Some tbl => tbl | None => before end.

Definition serve (tbl : jobs_table) (nr : Z * request) : jobs_table :=
  match nr with
  | (now, Create data uuid) => table_after tbl (createJob (Some tbl) data now uuid)
  | (now, Patch taskId u) => table_after tbl (updateJobByTaskId (Some tbl) taskId u now)
  end.

Definition withdraws_result (u : job_updates) : bool :=
  match u_result u with
  | js_null | js_val JNull => true
  | _ => false
  end.

Definition records_settlement (u : job_updates) : bool :=
  match u_settledTxHash u with js_val _ => true | _ => false end.

(** The discipline that the data model names: a patch records a settlement
    only for a job that has a result. *)
Definition settles_with_result (tbl : jobs_table) (r : request) : bool :=
  match r with
  | Create _ _ => true
  | Patch taskId u =>
    negb (records_settlement u)
    || match tbl !! taskId with
       | Some row => has_result row
       | None => true
       end
  end.

Fixpoint all_settle_with_result (tbl : jobs_table) (rs : list (Z * request)) : bool :=
  match rs with
  | [] => true
  | nr :: rest => settles_with_result tbl (snd nr) && all_settle_with_result (serve tbl nr) rest
  end.

(** The discipline that keeps the invariant: a patch records a settlement
    only for a job that has a result, and no patch takes a result back. *)
Definition disciplined (tbl : jobs_table) (r : request) : bool :=
  match r with
  | Create _ _ => true
  | Patch taskId u =>
    negb (withdraws_result u)
    && (negb (records_settlement u)
        || match tbl !! taskId with
           | Some row => has_result row
           | None => true
           end)
  end.

Fixpoint all_disciplined (tbl : jobs_table) (rs : list (Z * request)) : bool :=
  match rs with
  | [] => true
  | nr :: rest => disciplined tbl (snd nr) && all_disciplined (serve tbl nr) rest
  end.

Definition serve_all (tbl : jobs_table) (rs : list (Z * request)) : jobs_table :=
  fold_left serve rs tbl.

(** The route [PATCH /jobs/by-task/:taskId] of [routes/jobs.js]. *)
Inductive patch_reply : Type :=
| PatchError (http : Z) (error : string)
| PatchOk (row : job).

(** [patchJobByTaskId(req, res)]: [p] is the pool ([None] when the database
    is not configured), [taskId] is [req.params?.taskId] and [body] the
    request body, of which the route copies the five properties it knows. *)
Definition patchJobByTaskId (p : option jobs_table) (taskId : js string)
    (body : job_updates) (now : Z) : patch_reply * option jobs_table :=
  match p with
  | None => (PatchError 503 "Database not configured.", None)
  | Some tbl =>
    if negb (truthy taskId) then (PatchError 400 "Missing taskId", p)
    else if no_set_clause body then (PatchError 400 "No updates provided", p)
    else
      match updateJobByTaskId p (trim (nullish taskId "")) body now with
      | (Thrown m, p') =>
        (PatchError 500 (if String.eqb m "" then "Failed to update job" else m), p')
      | (Returned None, p') => (PatchError 404 "Job not found", p')
      | (Returned (Some row), p') => (PatchOk row, p')
      end
  end.

End Ledger.

(** ** Decimal text of integers *)

Module Decimal.

Definition digit_char (d : Z) : ascii := ascii_of_nat (48 + Z.to_nat d).
Arguments digit_char d : simpl never.

(** The digits of [n], most significant first, in front of [acc]. *)
Fixpoint digits_go (fuel : nat) (n : Z) (acc : string) : string :=
  match fuel with
  | O => acc
  | S fuel' =>
    let acc' := String (digit_char (n mod 10)) acc in
    if n <? 10 then acc' else digits_go fuel' (n / 10) acc'
  end.

(** Decimal text of a natural number [0 <= n]. *)
Definition of_nonneg (n : Z) : string :=
  digits_go (S (Z.to_nat (Z.log2 n))) n "".

(** [String(n)] for an integer-valued number below 1e21, and
    [n.toString()] for a BigInt. *)
Definition to_string (n : Z) : string :=
  if n <? 0 then String "-" (of_nonneg (- n)) else of_nonneg n.

Definition is_digit (c : ascii) : bool :=
  let n := nat_of_ascii c in ((48 <=? n)%nat && (n <=? 57)%nat)%bool.

Definition digit_value (c : ascii) : Z := Z.of_nat (nat_of_ascii c) - 48.

(** Value of a string of decimal digits read after the digits worth [acc];
    [None] when a character is not a digit. *)
Fixpoint read_digits (acc : Z) (s : string) : option Z :=
  match s with
  | EmptyString => Some acc
  | String c rest =>
    if is_digit c then read_digits (acc * 10 + digit_value c) rest else None
  end.

Fixpoint all_digits (s : string) : bool :=
  match s with
  | EmptyString => true
  | String c rest => is_digit c && all_digits rest
  end.

Fixpoint all_zeros (s : string) : bool :=
  match s with
  | EmptyString => true
  | String c rest => Ascii.eqb c "0" && all_zeros rest
  end.

(** The longest prefix of digits and what follows it: the greedy match of
    a run of digits. *)
Fixpoint span_digits (s : string) : string * string :=
  match s with
  | EmptyString => (EmptyString, EmptyString)
  | String c rest =>
    if is_digit c then
      let '(ds, tl) := span_digits rest in (String c ds, tl)
    else (EmptyString, s)
  end.

(** Whether the text starts with a digit. *)
Definition head_is_digit (s : string) : bool :=
  match s with
  | String c _ => is_digit c
  | EmptyString => false
  end.

(** [s.padStart(n, "0")] *)
Definition padStart0 (n : nat) (s : string) : string :=
  let fix zeros (k : nat) (t : string) : string :=
    match k with O => t | S k' => String "0" (zeros k' t) end in
  zeros (n - String.length s)%nat s.

End Decimal.

(** ** Token amounts ([routes/settlement.js], [formatUsdc]; [ethers.parseUnits]) *)

Module Units.
Import Decimal.

Definition USDC_DECIMALS : nat := 6.

(** [Number(b)] for a BigInt [b]: the nearest IEEE-754 double (53-bit
    significand, ties to even), here as the integer that double denotes.
    Exact below 2^53; values of a [uint256] never overflow to infinity. *)
Definition round53 (n : Z) : Z :=
  let k := Z.log2 n + 1 - 53 in
  if k <=? 0 then n
  else
    let q := Z.shiftr n k in
    let r := Z.land n (Z.ones k) in
    let half := Z.shiftl 1 (k - 1) in
    let up := (half <? r) || ((r =? half) && Z.odd q) in
    Z.shiftl (if up then q + 1 else q) k.

Definition Number_of_BigInt (b : Z) : Z :=
  if b <? 0 then - round53 (- b) else round53 b.

(** Digits grouped by three from the right with [","]; [n] is the number
    of digits of [s] still to come, including its first. *)
Fixpoint group3 (s : string) : string :=
  match s with
  | EmptyString => EmptyString
  | String c rest =>
    let n := String.length rest in
    if ((0 <? n)%nat && (n mod 3 =? 0)%nat)%bool
    then String c (String "," (group3 rest))
    else String c (group3 rest)
  end.

(** [whole.toLocaleString()] of an integer-valued number below 2^53 in
    absolute value, in the [en-US] locale that Node.js uses by default.  From
    2^53 on JavaScript prints the shortest digits that give the double back,
    filled up with zeros, and not the digits written here. *)
Definition toLocaleString (n : Z) : string :=
  if n <? 0 then String "-" (group3 (of_nonneg (- n))) else group3 (of_nonneg n).

(** [formatUsdc(raw)] for a raw amount whose whole part is below 2^53 (see
    [toLocaleString]); BigInt division truncates and the remainder takes the
    sign of the dividend. *)
Definition formatUsdc (raw : Z) : string :=
  let d := 10 ^ Z.of_nat USDC_DECIMALS in
  let whole := Number_of_BigInt (Z.quot raw d) in
  let frac := Number_of_BigInt (Z.rem raw d) in
  let fracStr := slice0 2 (padStart0 USDC_DECIMALS (to_string frac)) in
  toLocaleString whole ++ "." ++ fracStr.

(** [decimal += "0000"] until [decimal.length >= decimals] *)
Fixpoint pad_zeros (fuel decimals : nat) (decimal : string) : string :=
  match fuel with
  | O => decimal
  | S fuel' =>
    if (String.length decimal <? decimals)%nat
    then pad_zeros fuel' decimals (decimal ++ "0000")
    else decimal
  end.

(** [s.substring(n)] *)
Definition drop (n : nat) (s : string) : string :=
  String.substring n (String.length s - n) s.

(** The optional minus sign of the pattern for fixed numbers. *)
Definition split_sign (value : string) : bool * string :=
  match value with
  | String c rest => if Ascii.eqb c "-" then (true, rest) else (false, value)
  | EmptyString => (false, value)
  end.

(** The rest of the pattern: digits, an optional point, digits, and the
    end of the text.  [None] when the text does not match. *)
Definition split_fraction (unsigned : string) : option (string * string) :=
  let '(whole, after) := span_digits unsigned in
  match after with
  | EmptyString => Some (whole, EmptyString)
  | String c rest =>
    if Ascii.eqb c "." && all_digits rest then Some (whole, rest) else None
  end.

(** [ethers.parseUnits(value, decimals)] of ethers v6, which is
    [FixedNumber.fromString(value, {decimals, width: 512}).value]: the text
    must be an optional minus sign, digits, an optional point and digits
    (the library's pattern for fixed numbers), with at least one digit, digits
    beyond [decimals] must be zeros, and the value must fit 512 signed bits.
    [None] when the library throws. *)
Definition parseUnits (value : string) (decimals : nat) : option Z :=
  let '(negative, unsigned) := split_sign value in
  match split_fraction unsigned with
  | None => None
  | Some (whole, decimal) =>
    if (String.length whole + String.length decimal =? 0)%nat then None
    else
      let whole := if String.eqb whole "" then "0" else whole in
      let decimal := pad_zeros decimals decimals decimal in
      if negb (all_zeros (drop decimals decimal)) then None
      else
        match read_digits 0 (whole ++ slice0 decimals decimal) with
        | None => None
        | Some v =>
          let v := if negative then - v else v in
          let limit := 2 ^ 511 in
          if (- limit <=? v) && (v <? limit) then Some v else None
        end
  end.

(** *** Amounts in display form *)

(** The two digits of [c], for [0 <= c < 100]. *)
Definition two_digits (c : Z) : string :=
  String (digit_char (c / 10)) (String (digit_char (c mod 10)) EmptyString).

(** The amount with whole part [w] and [c] hundredths, written with a point
    and exactly two fractional digits. *)
Definition amount_text (w c : Z) : string :=
  of_nonneg w ++ "." ++ two_digits c.

(** [String(Number(a))] for the amount [a] with whole part [w] and [c]
    hundredths, when [a] has at most 15 significant digits ([w < 10^13]): the
    nearest double then gives the decimal back, and JavaScript prints it
    without zeros at the end of the fraction and without exponent. *)
Definition number_text (w c : Z) : string :=
  if c =? 0 then of_nonneg w
  else if c mod 10 =? 0 then of_nonneg w ++ "." ++ String (digit_char (c / 10)) ""
  else of_nonneg w ++ "." ++ two_digits c.

(** The text without the grouping separators of the locale. *)
Fixpoint remove_commas (s : string) : string :=
  match s with
  | EmptyString => EmptyString
  | String c rest =>
    if Ascii.eqb c "," then remove_commas rest else String c (remove_commas rest)
  end.

End Units.

(** ** Settlement execution ([routes/settlement.js], [postExecute]) *)

Module Execute.
Import Decimal Units.

(** A property of a caught error whose type the handler tests at run time. *)
Inductive property : Type :=
| Absent
| Null
| Text (s : string)
| Other.

(** The error objects that reach the [catch] block: the properties the
    handler reads.  [info_error_data] is [err.info?.error?.data]. *)
Record error_obj : Type := mkError {
  data : property;
  info_error_data : property;
  reason : js string;
  shortMessage : js string;
  message : js string
}.

(** [new Error(msg)] *)
Definition Error (msg : string) : error_obj :=
  {| data := Absent; info_error_data := Absent; reason := js_undefined;
     shortMessage := js_undefined; message := js_val msg |}.

Definition INSUFFICIENT_TREASURY : string :=
  "Insufficient balance in settlement contract. Deposit USDC to the treasury first (Profile → Deposit USDC).".

Definition ALREADY_SETTLED : string :=
  "This settlement was already executed on-chain. Each attestation can only be used once. Open a different job or run a new confidential settlement.".

Definition UNAUTHORIZED_EXECUTOR : string :=
  "Only the configured executor can call settle. Check SETTLEMENT_EXECUTOR_PRIVATE_KEY matches the contract executor.".

(** [err.data ?? err.info?.error?.data] *)
Definition revert_data (err : error_obj) : property :=
  match data err with
  | Absent | Null => info_error_data err
  | x => x
  end.

(** The error carries the revert data [d]: in its own [data] property or,
    when that is [undefined] or [null], in the [data] of the nested RPC error
    ([err.data ?? err.info?.error?.data]). *)
Definition carries (err : error_obj) (d : string) : Prop :=
  data err = Text d
  \/ ((data err = Absent \/ data err = Null) /\ info_error_data err = Text d).

(** The text [msg] is the underlying message of the error: its reason, else
    its short message, else its message, else the fallback text. *)
Definition underlying (err : error_obj) (msg : string) : Prop :=
  (forall m, reason err = js_val m -> msg = m)
  /\ (forall m, (forall r, reason err <> js_val r) ->
                shortMessage err = js_val m -> msg = m)
  /\ (forall m, (forall r, reason err <> js_val r) ->
                (forall r, shortMessage err <> js_val r) ->
                message err = js_val m -> msg = m)
  /\ ((forall r, reason err <> js_val r) ->
      (forall r, shortMessage err <> js_val r) ->
      (forall r, message err <> js_val r) -> msg = "Settlement execute failed").

(** [decodeSettlementRevert(err)]; [None] is the JavaScript [null]. *)
Definition decodeSettlementRevert (err : error_obj) : option string :=
  match revert_data err with
  | Text d =>
    if negb (startsWith "0x" d) then None
    else
      let selector := toLowerCase (slice0 10 d) in
      if String.eqb selector "0xf4d678b8" then Some INSUFFICIENT_TREASURY
      else if String.eqb selector "0x17ee279c" then Some ALREADY_SETTLED
      else if String.eqb selector "0x7fb6be02" then Some UNAUTHORIZED_EXECUTOR
      else None
  | _ => None
  end.

(** [a ?? b] on nullable strings *)
Definition orElse (a : js string) (b : js string) : js string :=
  match a with js_val _ => a | _ => b end.

(** The [catch] block of [postExecute]: status and [error] text of the reply. *)
Definition execute_failure (err : error_obj) : Z * string :=
  let msg :=
    match decodeSettlementRevert err with
    | Some m => m
    | None =>
      nullish (orElse (reason err) (orElse (shortMessage err) (message err)))
              "Settlement execute failed"
    end in
  (500, msg).

Definition is_hex (c : ascii) : bool :=
  let n := nat_of_ascii c in
  ((48 <=? n)%nat && (n <=? 57)%nat)%bool
  || ((97 <=? n)%nat && (n <=? 102)%nat)%bool
  || ((65 <=? n)%nat && (n <=? 70)%nat)%bool.

Fixpoint all_hex (s : string) : bool :=
  match s with
  | EmptyString => true
  | String c rest => is_hex c && all_hex rest
  end.

(** The test of the address pattern: [0x] and exactly forty hexadecimal
    digits, that is twenty bytes. *)
Definition is_address (s : string) : bool :=
  match s with
  | String "0" (String "x" hex) => (String.length hex =? 40)%nat && all_hex hex
  | _ => false
  end.

Definition hex_value (c : ascii) : Z :=
  let n := Z.of_nat (nat_of_ascii c) in
  if n <=? 57 then n - 48 else if n <=? 70 then n - 55 else n - 87.

Fixpoint hex_pairs (s : string) : option (list Z) :=
  match s with
  | EmptyString => Some []
  | String a (String b rest) =>
    if is_hex a && is_hex b
    then option_map (cons (16 * hex_value a + hex_value b)) (hex_pairs rest)
    else None
  | _ => None
  end.

(** [ethers.getBytes(value)] on a string: [0x] followed by pairs of
    hexadecimal digits; [None] when the library throws. *)
Definition getBytes (value : string) : option (list Z) :=
  match value with
  | String "0" (String "x" hex) => hex_pairs hex
  | _ => None
  end.

(** [Number(a)]: not-a-number, an infinity, or a finite number, which is
    identified by its text [String(n)]. *)
Inductive number : Type :=
| NaN
| PosInfinity
| NegInfinity
| Finite (text : string).

(** An element [a] of [amounts]: its text in a template string and its
    numeric value [Number(a)]. *)
Record amount : Type := mkAmount {
  shown : string;
  value : number
}.

(** [!Number.isFinite(n) || n < 0] *)
Definition invalid_amount (n : number) : bool :=
  match n with
  | Finite text => startsWith "-" text
  | _ => true
  end.

(** The request body; [None] stands for a property that is absent or not of
    the type the route tests for (array, string).  A recipient is given by
    its text [String(addr)]. *)
Record execute_body : Type := mkBody {
  recipients : option (list string);
  amounts : option (list amount);
  attestation : option string
}.

Record execute_config : Type := mkConfig {
  rpc : string;
  contractAddress : string;
  privateKey : string
}.

(** The arguments of [contract.settleBatch]. *)
Record submission : Type := mkSubmission {
  sent_recipients : list string;
  sent_amounts : list Z;
  sent_attestation : list Z
}.

(** What the route calls outside the repository: the ethers library and,
    behind it, the chain. *)
Record ethers : Type := mkEthers {
  getAddress : string -> string;
  new_Wallet : string -> option error_obj;
  parseUnits_error : string -> error_obj;
  getBytes_error : string -> error_obj;
  settleBatch : execute_config -> submission -> error_obj + string
}.

Inductive execute_reply : Type :=
| ReplyError (status : Z) (error : string)
| ReplyOk (txHash explorerUrl : string).

Definition ARB_SEPOLIA_EXPLORER : string := "https://sepolia.arbiscan.io".

(** [recipients.map(...)]: the first malformed address throws. *)
Fixpoint checksum_all (lib : ethers) (rs : list string) : error_obj + list string :=
  match rs with
  | [] => inr []
  | addr :: rest =>
    let s := trim addr in
    if negb (is_address s) then inl (Error ("Invalid address: " ++ s))
    else
      let a := getAddress lib (toLowerCase s) in
      match checksum_all lib rest with
      | inl e => inl e
      | inr l => inr (a :: l)
      end
  end.

(** [amounts.map(...)] *)
Fixpoint to_wei_all (lib : ethers) (ams : list amount) : error_obj + list Z :=
  match ams with
  | [] => inr []
  | a :: rest =>
    if invalid_amount (value a) then inl (Error ("Invalid amount: " ++ shown a))
    else
      match value a with
      | Finite text =>
        match parseUnits text USDC_DECIMALS with
        | None => inl (parseUnits_error lib text)
        | Some v =>
          match to_wei_all lib rest with
          | inl e => inl e
          | inr l => inr (v :: l)
          end
        end
      | _ => inl (Error ("Invalid amount: " ++ shown a))
      end
  end.

(** The body of the [try] block from the address normalization to the
    call of [settleBatch], exclusive. *)
Definition prepare (lib : ethers) (cfg : execute_config)
    (rs : list string) (ams : list amount) (att : string) : error_obj + submission :=
  match checksum_all lib rs with
  | inl e => inl e
  | inr recipientsChecksummed =>
    match new_Wallet lib (privateKey cfg) with
    | Some e => inl e
    | None =>
      match to_wei_all lib ams with
      | inl e => inl e
      | inr amountsWei =>
        match getBytes att with
        | None => inl (getBytes_error lib att)
        | Some attestationBytes =>
          inr {| sent_recipients := recipientsChecksummed;
                 sent_amounts := amountsWei;
                 sent_attestation := attestationBytes |}
        end
      end
    end
  end.

Definition reply_failure (err : error_obj) : execute_reply :=
  let '(st, msg) := execute_failure err in ReplyError st msg.

(** [postExecute(req, res)]: the reply and, when the route got that far,
    the arguments it passed to [settleBatch]. *)
Definition postExecute (lib : ethers) (config : option execute_config)
    (body : execute_body) : execute_reply * option submission :=
  match config with
  | None =>
    (ReplyError 503 "On-chain settlement not configured. Set ARBITRUM_SEPOLIA_RPC_URL, SETTLEMENT_CONTRACT_ADDRESS, and SETTLEMENT_EXECUTOR_PRIVATE_KEY (or FAUCET_PRIVATE_KEY).", None)
  | Some cfg =>
    match recipients body, amounts body with
    | Some rs, Some ams =>
      if negb (length rs =? length ams)%nat then
        (ReplyError 400 "Invalid body: need recipients and amounts arrays of the same length", None)
      else
        match attestation body with
        | Some att =>
          if String.eqb att "" || negb (startsWith "0x" att) then
            (ReplyError 400 "Invalid attestation: must be 0x-prefixed hex string", None)
          else if (length rs =? 0)%nat then
            (ReplyError 400 "At least one recipient required", None)
          else
            match prepare lib cfg rs ams att with
            | inl err => (reply_failure err, None)
            | inr sub =>
              match settleBatch lib cfg sub with
              | inl err => (reply_failure err, Some sub)
              | inr txHash =>
                (ReplyOk txHash (ARB_SEPOLIA_EXPLORER ++ "/tx/" ++ txHash), Some sub)
              end
            end
        | None =>
          (ReplyError 400 "Invalid attestation: must be 0x-prefixed hex string", None)
        end
    | _, _ =>
      (ReplyError 400 "Invalid body: need recipients and amounts arrays of the same length", None)
    end
  end.

(** *** The preconditions of the route, as predicates on the body *)

(** The body fails one of the three checks made before the [try] block
    does any work: two arrays of the same length, an attestation that is a
    non-empty string starting with [0x], at least one recipient. *)
Definition structurally_invalid (body : execute_body) : bool :=
  match recipients body, amounts body with
  | Some rs, Some ams =>
    negb (length rs =? length ams)%nat
    || match attestation body with
       | Some att => String.eqb att "" || negb (startsWith "0x" att)
       | None => true
       end
    || (length rs =? 0)%nat
  | _, _ => true
  end.

(** A recipient that is not a well-formed 20-byte address. *)
Definition malformed_recipient (addr : string) : bool := negb (is_address (trim addr)).

(** The canonical form sent for a recipient. *)
Definition normalized (lib : ethers) (addr : string) : string :=
  getAddress lib (toLowerCase (trim addr)).

End Execute.

(** ** The treasury balance ([db.js], table [treasury_balance]; route
    [getTreasuryBalanceRoute] of [routes/settlement.js]) *)

Module Treasury.
Import Units.

Record balance_row : Type := mkRow {
  balance_raw : string;
  balance_formatted : string;
  row_updated_at : Z
}.

(** The table, keyed by its primary key [settlement_address]. *)
Abbreviation treasury_table := (gmap string balance_row).

(** The database as the route sees it: [pool] is [getPool()], [None] when no
    connection is configured ([isDbConfigured()] is false); the other
    fields say which statements the server rejects, with the error text. *)
Record database : Type := mkDb {
  pool : option treasury_table;
  initDb_error : option string;
  select_error : option string;
  upsert_error : option string
}.

(** [isDbConfigured()] *)
Definition isDbConfigured (db : database) : bool :=
  match pool db with Some _ => true | None => false end.

(** [initDb()]: [CREATE TABLE IF NOT EXISTS ...] leaves the rows alone. *)
Definition initDb (db : database) : outcome unit :=
  match pool db with
  | None => Returned tt
  | Some _ =>
    match initDb_error db with
    | Some m => Thrown m
    | None => Returned tt
    end
  end.

(** [getTreasuryBalance(settlementAddress)] *)
Definition getTreasuryBalance (db : database) (settlementAddress : string)
  : outcome (option balance_row) :=
  match pool db with
  | None => Returned None
  | Some tbl =>
    match select_error db with
    | Some m => Thrown m
    | None => Returned (tbl !! toLowerCase settlementAddress)
    end
  end.

(** [setTreasuryBalance(settlementAddress, balanceRaw, balanceFormatted)]:
    the outcome and the table after the statement. *)
Definition setTreasuryBalance (db : database) (settlementAddress balanceRaw
    balanceFormatted : string) (now : Z) : outcome unit * option treasury_table :=
  match pool db with
  | None => (Returned tt, None)
  | Some tbl =>
    match upsert_error db with
    | Some m => (Thrown m, Some tbl)
    | None =>
      (Returned tt,
       Some (<[toLowerCase settlementAddress :=
                 {| balance_raw := balanceRaw;
                    balance_formatted := balanceFormatted;
                    row_updated_at := now |}]> tbl))
    end
  end.

(** The process environment and the chain, as far as the route reads them.
    [contract_token] is the outcome of [contract.token()] and [balanceOf]
    that of [token.balanceOf(settlementAddress)], a [uint256]. *)
Record environment : Type := mkEnv {
  ARBITRUM_SEPOLIA_RPC_URL : option string;
  SETTLEMENT_CONTRACT_ADDRESS : option string;
  TEST_USDC_ADDRESS : option string;
  contract_token : outcome string;
  balanceOf : outcome Z
}.

(** A variable of [process.env] that is set and not empty. *)
Definition env_var (v : option string) : option string :=
  match v with
  | Some s => if String.eqb s "" then None else Some s
  | None => None
  end.

Inductive balance_reply : Type :=
| BalanceError (status : Z) (error : string)
| Balance (balanceFormatted balanceRaw settlementAddress source : string).

(** The calls the route makes to the chain and to the store, in order. *)
Inductive access : Type :=
| TokenRead
| BalanceRead
| StoreRead
| StoreWrite.

(** [err.message || "Failed to get treasury balance"] *)
Definition balance_failure (m : string) : balance_reply :=
  BalanceError 500 (if String.eqb m "" then "Failed to get treasury balance" else m).

Definition NOT_CONFIGURED : string :=
  "Settlement not configured. Set ARBITRUM_SEPOLIA_RPC_URL and SETTLEMENT_CONTRACT_ADDRESS.".

(** [req.query?.refresh === "1" || req.query?.refresh === "true"] *)
Definition forceRefresh (refresh : option string) : bool :=
  match refresh with
  | Some r => String.eqb r "1" || String.eqb r "true"
  | None => false
  end.

(** The second half of the route: the chain read, the write to the store
    and the reply. *)
Definition read_chain (env : environment) (db : database) (settlementAddress : string)
    (now : Z) (trace : list access)
  : balance_reply * option treasury_table * list access :=
  match balanceOf env with
  | Thrown m => (balance_failure m, pool db, (trace ++ [BalanceRead])%list)
  | Returned balanceRaw =>
    let balanceFormatted := formatUsdc balanceRaw in
    let reply :=
      Balance balanceFormatted (Decimal.to_string balanceRaw) settlementAddress "chain" in
    if isDbConfigured db then
      match initDb db with
      | Thrown m => (balance_failure m, pool db, (trace ++ [BalanceRead])%list)
      | Returned _ =>
        match setTreasuryBalance db settlementAddress (Decimal.to_string balanceRaw)
                balanceFormatted now with
        | (Thrown m, tbl) => (balance_failure m, tbl, (trace ++ [BalanceRead; StoreWrite])%list)
        | (Returned _, tbl) => (reply, tbl, (trace ++ [BalanceRead; StoreWrite])%list)
        end
      end
    else (reply, pool db, (trace ++ [BalanceRead])%list)
  end.

(** [getTreasuryBalanceRoute(req, res)]: the reply, the table after the
    request and the accesses made. *)
Definition getTreasuryBalanceRoute (env : environment) (db : database)
    (refresh : option string) (now : Z)
  : balance_reply * option treasury_table * list access :=
  match env_var (ARBITRUM_SEPOLIA_RPC_URL env), env_var (SETTLEMENT_CONTRACT_ADDRESS env) with
  | Some rpc, Some settlementAddress =>
    let resolved :=
      match env_var (TEST_USDC_ADDRESS env) with
      | Some t => (Some t, [])
      | None =>
        match contract_token env with
        | Returned t => (Some t, [TokenRead])
        | Thrown _ => (None, [TokenRead])
        end
      end in
    match resolved with
    | (None, trace) =>
      (BalanceError 503 "Could not resolve token address.", pool db, trace)
    | (Some tokenAddress, trace) =>
      if isDbConfigured db && negb (forceRefresh refresh) then
        match initDb db with
        | Thrown m => (balance_failure m, pool db, trace)
        | Returned _ =>
          match getTreasuryBalance db settlementAddress with
          | Thrown m => (balance_failure m, pool db, (trace ++ [StoreRead])%list)
          | Returned (Some stored) =>
            (Balance (balance_formatted stored) (balance_raw stored)
                     settlementAddress "database",
             pool db, (trace ++ [StoreRead])%list)
          | Returned None =>
            read_chain env db settlementAddress now ((trace ++ [StoreRead])%list)
          end
        end
      else read_chain env db settlementAddress now trace
    end
  | _, _ => (BalanceError 503 NOT_CONFIGURED, pool db, [])
  end.

(** The route has its configuration: the RPC endpoint and the settlement
    address are set, and the token address is set or can be read from the
    contract. *)
Definition configured (env : environment) (settlementAddress : string) : Prop :=
  (exists rpc, env_var (ARBITRUM_SEPOLIA_RPC_URL env) = Some rpc)
  /\ env_var (SETTLEMENT_CONTRACT_ADDRESS env) = Some settlementAddress
  /\ (env_var (TEST_USDC_ADDRESS env) = None -> exists t, contract_token env = Returned t).

(** The row written for a balance read from the chain at time [now]. *)
Definition fresh_row (balanceRaw now : Z) : balance_row :=
  {| balance_raw := Decimal.to_string balanceRaw;
     balance_formatted := formatUsdc balanceRaw;
     row_updated_at := now |}.

End Treasury.

(** ** The bounded task observation ([iexec-client.js], [waitForTask]) *)

Module Observer.

(** [TASK_OBSERVATION_TIMEOUT_MS] of [config.js]: ten minutes. *)
Definition TASK_OBSERVATION_TIMEOUT_MS : Z := 10 * 60 * 1000.

(** What the event loop delivers to the function after it has returned its
    promise: the timer callback, the settlement of [obsTask(...)], and the
    notifications of the observable. *)
Inductive event : Type :=
| TimerElapsed
| ObsTaskResolved
| ObsTaskRejected (e : string)
| Next
| Failed (e : string)
| Complete.

Inductive rejection : Type :=
| Timeout
| Forwarded (e : string).

Inductive promise_state : Type :=
| Pending
| Resolved
| Rejected (why : rejection).

Inductive timer_state : Type :=
| Armed
| Fired
| Cleared.

Inductive subscription_state : Type :=
| NotSubscribed
| Active
| Closed.

(** The calls made by the code of [waitForTask] and of its callbacks. *)
Inductive call : Type :=
| CallSetTimeout
| CallObsTask
| CallSubscribe
| CallClearTimeout
| CallResolve
| CallReject (why : rejection)
| CallLog (text : string)
| CallUnsubscribe.

Record state : Type := mkState {
  promise : promise_state;
  settled_at : option Z;
  timer : timer_state;
  subscription : subscription_state;
  delivered : list (Z * event);
  calls : list call
}.

(** The state when [waitForTask] returns its promise: the timer is set and
    [obsTask] is pending. *)
Definition initial : state :=
  {| promise := Pending; settled_at := None; timer := Armed;
     subscription := NotSubscribed; delivered := [];
     calls := [CallLog "waitForTask: observing task (timeout 10min)...";
               CallSetTimeout; CallObsTask] |}.

(** [resolve()] and [reject(e)] settle a pending promise and do nothing to
    a settled one. *)
Definition settle (p : promise_state) (t : Z) (s : state) : state :=
  match promise s with
  | Pending =>
    {| promise := p; settled_at := Some t; timer := timer s;
       subscription := subscription s; delivered := delivered s; calls := calls s |}
  | _ => s
  end.

Definition record (cs : list call) (s : state) : state :=
  {| promise := promise s; settled_at := settled_at s; timer := timer s;
     subscription := subscription s; delivered := delivered s;
     calls := (calls s ++ cs)%list |}.

(** [clearTimeout(timeout)] *)
Definition clearTimeout (s : state) : state :=
  {| promise := promise s; settled_at := settled_at s;
     timer := match timer s with Armed => Cleared | x => x end;
     subscription := subscription s; delivered := delivered s;
     calls := (calls s ++ [CallClearTimeout])%list |}.

Definition set_timer (x : timer_state) (s : state) : state :=
  {| promise := promise s; settled_at := settled_at s; timer := x;
     subscription := subscription s; delivered := delivered s; calls := calls s |}.

Definition set_subscription (x : subscription_state) (s : state) : state :=
  {| promise := promise s; settled_at := settled_at s; timer := timer s;
     subscription := x; delivered := delivered s; calls := calls s |}.

Definition deliver (t : Z) (ev : event) (s : state) : state :=
  {| promise := promise s; settled_at := settled_at s; timer := timer s;
     subscription := subscription s; delivered := (delivered s ++ [(t, ev)])%list;
     calls := calls s |}.

(** One turn of the event loop at time [t] (milliseconds since the call),
    with the timer set for [T].  The timer callback runs only while the
    timer is armed and not before [T]; the observable notifies only an
    active subscription, and closes it with its error or its completion. *)
Definition step (T : Z) (s : state) (te : Z * event) : state :=
  let '(t, ev) := te in
  match ev with
  | TimerElapsed =>
    match timer s with
    | Armed =>
      if T <=? t then
        settle (Rejected Timeout) t
          (record [CallLog "waitForTask: timeout"; CallReject Timeout]
             (set_timer Fired s))
      else s
    | _ => s
    end
  | ObsTaskResolved =>
    match subscription s with
    | NotSubscribed => record [CallSubscribe] (set_subscription Active s)
    | _ => s
    end
  | ObsTaskRejected e =>
    match subscription s with
    | NotSubscribed =>
      settle (Rejected (Forwarded e)) t
        (record [CallReject (Forwarded e)] (set_subscription Closed s))
    | _ => s
    end
  | Next =>
    match subscription s with
    | Active => deliver t Next s
    | _ => s
    end
  | Failed e =>
    match subscription s with
    | Active =>
      settle (Rejected (Forwarded e)) t
        (record [CallLog "waitForTask: error"; CallReject (Forwarded e)]
           (clearTimeout (deliver t (Failed e) (set_subscription Closed s))))
    | _ => s
    end
  | Complete =>
    match subscription s with
    | Active =>
      settle Resolved t
        (record [CallLog "waitForTask: task finalized"; CallResolve]
           (clearTimeout (deliver t Complete (set_subscription Closed s))))
    | _ => s
    end
  end.

(** [waitForTask(taskId, dealId)] against a schedule of events. *)
Definition waitForTask (T : Z) (schedule : list (Z * event)) : state :=
  fold_left (step T) schedule initial.

Definition is_quiet (ev : event) : bool :=
  match ev with
  | TimerElapsed | ObsTaskResolved | Next => true
  | _ => false
  end.

(** A subscription that never completes and never errors. *)
Definition quiet (schedule : list (Z * event)) : bool :=
  forallb (fun te => is_quiet (snd te)) schedule.

Definition is_timer_log (c : call) : bool :=
  match c with
  | CallLog text => String.eqb text "waitForTask: timeout"
  | _ => false
  end.

Definition is_unsubscribe (c : call) : bool :=
  match c with CallUnsubscribe => true | _ => false end.

Definition is_clear (c : call) : bool :=
  match c with CallClearTimeout => true | _ => false end.

(** How many of the calls made so far satisfy [f]. *)
Definition count (f : call -> bool) (s : state) : nat :=
  length (List.filter f (calls s)).

(** The observable was obtained and subscribed to. *)
Definition subscribes (schedule : list (Z * event)) : bool :=
  existsb (fun te => match snd te with ObsTaskResolved => true | _ => false end) schedule.

(** The timer comes due at or after [T]. *)
Definition timer_due (T : Z) (schedule : list (Z * event)) : bool :=
  existsb (fun te => match snd te with TimerElapsed => T <=? fst te | _ => false end)
          schedule.

(** What holds of the calls in every run: the code never unsubscribes, and
    the timer callback has run exactly when the timer has fired. *)
Definition sound (s : state) : Prop :=
  count is_unsubscribe s = 0%nat
  /\ count is_timer_log s = match timer s with Fired => 1%nat | _ => 0%nat end.

(** What holds while the subscription stays quiet: either the timer is
    armed and the promise pending, or the timer has fired at or after [T]
    and rejected the promise. *)
Definition waiting (T : Z) (s : state) : Prop :=
  count is_clear s = 0%nat
  /\ subscription s <> Closed
  /\ ((timer s = Armed /\ promise s = Pending)
      \/ (timer s = Fired /\ promise s = Rejected Timeout
          /\ exists t0, settled_at s = Some t0 /\ T <= t0)).

End Observer.

(** ** The result fetch ([iexec-client.js], [fetchTaskResult]; route
    [getResult] of [routes/settlement.js]) *)

Module Fetcher.

(** [task.status] as the compute network's client returns it: a number
    or a name. *)
Inductive status : Type :=
| Code (n : Z)
| Name (s : string).

(** The compute network as the function sees it: [show] is the outcome of
    [iexec.task.show(taskId)] read at [task?.status]; [result_json] is the
    outcome of downloading and opening the archive, with the text of its
    entry [result.json] when there is one; [JSON_parse] is [JSON.parse]. *)
Record network : Type := mkNetwork {
  show : string -> outcome (js status);
  result_json : string -> outcome (option string);
  JSON_parse : string -> outcome json
}.

Record task_result : Type := mkResult {
  r_status : status;
  r_result : json
}.

(** [status === 3 || status === "COMPLETED"] *)
Definition isCompleted (s : js status) : bool :=
  match s with
  | js_val (Code n) => n =? 3
  | js_val (Name s) => String.eqb s "COMPLETED"
  | _ => false
  end.

(** [fetchTaskResult(taskId)] *)
Definition fetchTaskResult (net : network) (taskId : string) : outcome task_result :=
  match show net taskId with
  | Thrown m => Thrown m
  | Returned st =>
    if negb (isCompleted st) then
      Returned {| r_status := nullish st (Name "UNKNOWN"); r_result := JNull |}
    else
      match result_json net taskId with
      | Thrown m => Thrown m
      | Returned None => Thrown "result.json not found in task output"
      | Returned (Some text) =>
        match JSON_parse net text with
        | Thrown m => Thrown m
        | Returned result =>
          Returned {| r_status := Name "COMPLETED"; r_result := result |}
        end
      end
  end.

Inductive result_reply : Type :=
| ResultError (http : Z) (error : string)
| ResultOk (taskId : string) (st : status) (result : json).

(** [getResult(req, res)]; [taskId] is [req.params.taskId]. *)
Definition getResult (net : network) (taskId : js string) : result_reply :=
  if negb (truthy taskId) then ResultError 400 "Missing taskId"
  else
    let tid := nullish taskId "" in
    match fetchTaskResult net tid with
    | Thrown m => ResultError 500 (if String.eqb m "" then "Failed to fetch result" else m)
    | Returned r => ResultOk tid (r_status r) (r_result r)
    end.

End Fetcher.

(** ** Sample requests *)

Module Samples.
Import Ledger.

Definition payouts (who : string) : json :=
  JObj [("payouts", JArr [JObj [("recipient", JStr who); ("amount", JNum "12.34")]]);
        ("tee_attestation", JStr "0x01")].

(** The body of a call of [createJob] for task [t]. *)
Definition call (t : string) (wallet : js string) (deal name st : js string)
    (res : js json) (at_ : js Z) : job_data :=
  {| d_wallet_address := wallet; d_task_id := js_val t; d_deal_id := deal;
     d_settlement_name := name; d_status := st; d_result := res;
     d_error := js_undefined; d_dataset_url_override := js_undefined;
     d_submitted_at := at_ |}.

Definition first_call : job_data :=
  call "0xtask" (js_val "0xAbC1") (js_val "0xdeal") (js_val "Pool A")
       (js_val "completed") (js_val (payouts "0xaa")) (js_val 100).

Definition second_call : job_data :=
  call "0xtask" (js_val "0xFFFF") js_undefined (js_val "Pool A")
       (js_val "failed") (js_val (payouts "0xbb")) (js_val 900).

(** The row written by [first_call] at time 100, and the table holding it. *)
Definition stored_first : job :=
  {| id := "id-1"; wallet_address := Some "0xabc1"; task_id := "0xtask";
     deal_id := Some "0xdeal"; settlement_name := "Pool A"; status := "completed";
     result := Some (payouts "0xaa"); error := None; dataset_url_override := None;
     submitted_at := 100; settled_tx_hash := None; settled_at := None;
     created_at := Some 100; updated_at := Some 100 |}.

Definition table_after_first : jobs_table := <["0xtask" := stored_first]> ∅.

Definition only_settled (h : string) : job_updates :=
  {| u_status := js_undefined; u_result := js_undefined; u_error := js_undefined;
     u_settledTxHash := js_val h; u_settledAt := js_undefined |}.

Definition only_result (j : json) : job_updates :=
  {| u_status := js_val "completed"; u_result := js_val j; u_error := js_undefined;
     u_settledTxHash := js_undefined; u_settledAt := js_undefined |}.

Definition pending_call : job_data :=
  call "0xtask" (js_val "0xAbC1") (js_val "0xdeal") js_undefined js_undefined
       js_undefined js_undefined.

(** The row written by [pending_call] at time 100: a job that has no
    result yet, and the table holding it. *)
Definition stored_pending : job :=
  {| id := "id-1"; wallet_address := Some "0xabc1"; task_id := "0xtask";
     deal_id := Some "0xdeal"; settlement_name := "Settlement"; status := "submitted";
     result := None; error := None; dataset_url_override := None;
     submitted_at := 100; settled_tx_hash := None; settled_at := None;
     created_at := Some 100; updated_at := Some 100 |}.

Definition table_no_result : jobs_table := <["0xtask" := stored_pending]> ∅.

(** Create, then the result, then the settlement. *)
Definition orderly : list (Z * request) :=
  [(100, Create pending_call "id-1");
   (200, Patch "0xtask" (only_result (payouts "0xaa")));
   (300, Patch "0xtask" (only_settled "0xhash"))].

(** A patch that sets the result to [null]. *)
Definition result_null : job_updates :=
  {| u_status := js_undefined; u_result := js_null; u_error := js_undefined;
     u_settledTxHash := js_undefined; u_settledAt := js_undefined |}.

(** An orderly run, and then a patch that takes the result back. *)
Definition result_withdrawn : list (Z * request) :=
  (orderly ++ [(400, Patch "0xtask" result_null)])%list.

(** A settlement patch that carries a number of milliseconds as its time,
    which the database does not read as a time. *)
Definition settled_at_millis (h : string) : job_updates :=
  {| u_status := js_undefined; u_result := js_undefined; u_error := js_undefined;
     u_settledTxHash := js_val h;
     u_settledAt :=
       js_val (NotTimestamp ("date/time field value out of range: "
                             ++ quoted "1700000000000")) |}.

(** A chain whose settlement contract rejects every batch with the custom
    error of selector [selector], and a library that leaves addresses as
    they are. *)
Definition rejecting (selector : string) : Execute.ethers :=
  {| Execute.getAddress := fun a => a;
     Execute.new_Wallet := fun _ => None;
     Execute.parseUnits_error := fun _ => Execute.Error "invalid FixedNumber string value";
     Execute.getBytes_error := fun _ => Execute.Error "invalid BytesLike value";
     Execute.settleBatch := fun _ _ =>
       inl {| Execute.data := Execute.Text selector;
              Execute.info_error_data := Execute.Absent;
              Execute.reason := js_null;
              Execute.shortMessage := js_val "execution reverted (unknown custom error)";
              Execute.message := js_val "execution reverted (unknown custom error)" |} |}.

Definition executor : Execute.execute_config :=
  {| Execute.rpc := "https://rpc.example"; Execute.contractAddress := "0xc0ffee";
     Execute.privateKey := "0xkey" |}.

Definition number_12_34 : Execute.amount :=
  {| Execute.shown := "12.34"; Execute.value := Execute.Finite "12.34" |}.

(** Scenario B of the specification: one recipient, the amount 12.34 and
    the attestation [0x01]. *)
Definition scenario_B : Execute.execute_body :=
  {| Execute.recipients := Some ["0x52908400098527886E0F7030069857D2E4169EE7"];
     Execute.amounts := Some [number_12_34];
     Execute.attestation := Some "0x01" |}.

Definition scenario_B_sent : Execute.submission :=
  {| Execute.sent_recipients := ["0x52908400098527886e0f7030069857d2e4169ee7"];
     Execute.sent_amounts := [12340000];
     Execute.sent_attestation := [1] |}.

(** A body whose recipient is too short to be an address. *)
Definition short_recipient : Execute.execute_body :=
  {| Execute.recipients := Some ["0x123"];
     Execute.amounts := Some [number_12_34];
     Execute.attestation := Some "0x01" |}.

(** A body whose amount is not a number. *)
Definition amount_not_a_number : Execute.execute_body :=
  {| Execute.recipients := Some ["0x52908400098527886E0F7030069857D2E4169EE7"];
     Execute.amounts := Some [{| Execute.shown := "abc"; Execute.value := Execute.NaN |}];
     Execute.attestation := Some "0x01" |}.

(** A body whose attestation is the empty byte string. *)
Definition empty_attestation : Execute.execute_body :=
  {| Execute.recipients := Some ["0x52908400098527886E0F7030069857D2E4169EE7"];
     Execute.amounts := Some [number_12_34];
     Execute.attestation := Some "0x" |}.

(** A configured environment whose treasury holds 1234.567890 USDC. *)
Definition funded : Treasury.environment :=
  {| Treasury.ARBITRUM_SEPOLIA_RPC_URL := Some "https://rpc.example";
     Treasury.SETTLEMENT_CONTRACT_ADDRESS := Some "0xC0FFEE";
     Treasury.TEST_USDC_ADDRESS := Some "0xusdc";
     Treasury.contract_token := Returned "0xusdc";
     Treasury.balanceOf := Returned 1234567890 |}.

(** An empty store that works. *)
Definition empty_store : Treasury.database :=
  {| Treasury.pool := Some ∅; Treasury.initDb_error := None;
     Treasury.select_error := None; Treasury.upsert_error := None |}.

(** An empty store that rejects the upsert. *)
Definition store_rejecting_writes : Treasury.database :=
  {| Treasury.pool := Some ∅; Treasury.initDb_error := None;
     Treasury.select_error := None;
     Treasury.upsert_error := Some "connection terminated" |}.

(** A row cached earlier for the settlement address, and a store holding it. *)
Definition cached_row : Treasury.balance_row :=
  {| Treasury.balance_raw := "5000000"; Treasury.balance_formatted := "5.00";
     Treasury.row_updated_at := 10 |}.

Definition warm_store : Treasury.database :=
  {| Treasury.pool := Some (<["0xc0ffee" := cached_row]> ∅);
     Treasury.initDb_error := None; Treasury.select_error := None;
     Treasury.upsert_error := None |}.

(** The observable is obtained at once, never completes and never fails;
    the timer fires after ten minutes and a notification arrives later. *)
Definition silent_task : list (Z * Observer.event) :=
  [(5, Observer.ObsTaskResolved);
   (Observer.TASK_OBSERVATION_TIMEOUT_MS, Observer.TimerElapsed);
   (Observer.TASK_OBSERVATION_TIMEOUT_MS + 1, Observer.Next)].

(** A compute network on which every task has status [st] and no result
    archive can be downloaded yet. *)
Definition network_reporting (st : js Fetcher.status) : Fetcher.network :=
  {| Fetcher.show := fun _ => Returned st;
     Fetcher.result_json := fun _ => Thrown "task result not available";
     Fetcher.JSON_parse := fun _ => Thrown "Unexpected end of JSON input" |}.

(** Three jobs of two wallets, submitted at different times. *)
Definition job_at (t : string) (wallet : string) (at_ : Z) : Ledger.job :=
  {| Ledger.id := t; Ledger.wallet_address := Some wallet; Ledger.task_id := t;
     Ledger.deal_id := None; Ledger.settlement_name := "Settlement";
     Ledger.status := "submitted"; Ledger.result := None; Ledger.error := None;
     Ledger.dataset_url_override := None; Ledger.submitted_at := at_;
     Ledger.settled_tx_hash := None; Ledger.settled_at := None;
     Ledger.created_at := Some at_; Ledger.updated_at := Some at_ |}.

Definition three_jobs : gmap string Ledger.job :=
  <["t1" := job_at "t1" "0xaa" 10]>
    (<["t2" := job_at "t2" "0xbb" 20]> (<["t3" := job_at "t3" "0xaa" 30]> ∅)).

(** A configured environment without token address, on a chain that
    answers. *)
Definition token_on_chain : Treasury.environment :=
  {| Treasury.ARBITRUM_SEPOLIA_RPC_URL := Some "https://rpc.example";
     Treasury.SETTLEMENT_CONTRACT_ADDRESS := Some "0xC0FFEE";
     Treasury.TEST_USDC_ADDRESS := None;
     Treasury.contract_token := Returned "0xusdc";
     Treasury.balanceOf := Returned 1234567890 |}.

(** A configured environment without token address, on which no call to
    the chain succeeds. *)
Definition chain_down : Treasury.environment :=
  {| Treasury.ARBITRUM_SEPOLIA_RPC_URL := Some "https://rpc.example";
     Treasury.SETTLEMENT_CONTRACT_ADDRESS := Some "0xC0FFEE";
     Treasury.TEST_USDC_ADDRESS := None;
     Treasury.contract_token := Thrown "network error";
     Treasury.balanceOf := Thrown "network error" |}.

End Samples.

(** * Further parts of the backend

    The definitions below follow the sources that the first part leaves out:
    - [db.js]               the listings of jobs,
    - [routes/jobs.js]      the routes [POST /jobs] and [GET /jobs],
    - [routes/dashboard.js] the statistics of the dashboard,
    - [routes/settlement.js] the formatted treasury balance, the routes that
                            run and await a settlement task,
    - [config.js]           the configuration of the compute network,
    - [iexec-client.js]     the submission of a settlement task,
    - [routes/faucet.js]    the faucet and its rate limit,
    - [routes/datasets.js]  the dataset store and the public upload,
    - [index.js]            the normalization of the request path. *)
From stdpp Require Import sorting.

Local Open Scope string_scope.
Local Open Scope Z_scope.

(** A text that does not start with white space. *)
Definition starts_clean (s : string) : Prop :=
  match s with
  | String c _ => is_space c = false
  | EmptyString => True
  end.

(** ** Listing jobs ([db.js], [listJobs] and [listAllJobs]) *)

Module Listing.
Import Ledger.

(** Every row sits under its own task id: the table is the relation with
    the unique column [task_id] that it stands for. *)
Definition well_keyed (tbl : jobs_table) : Prop :=
  forall t r, tbl !! t = Some r -> task_id r = t.

(** [ORDER BY submitted_at DESC]: [a] may come before [b]. *)
Definition newer_first (a b : job) : Prop := submitted_at b <= submitted_at a.

#[global] Instance newer_first_dec a b : Decision (newer_first a b).
Proof. unfold newer_first. apply _. Defined.

(** The rows of the table in the order of the statement.  The rows are
    sorted by [submitted_at], newest first; SQL leaves the order of rows with
    equal times open, and the embedding takes the one of a stable sort. *)
Definition ordered_rows (tbl : jobs_table) : list job :=
  merge_sort newer_first (snd <$> map_to_list tbl).

(** [WHERE wallet_address = $1] *)
Definition of_wallet (w : string) (r : job) : Prop := wallet_address r = Some w.

#[global] Instance of_wallet_dec w r : Decision (of_wallet w r).
Proof. unfold of_wallet. apply _. Defined.

(** [walletAddress == null || String(walletAddress).trim() === ""] *)
Definition blank (walletAddress : js string) : bool :=
  match walletAddress with
  | js_val w => String.eqb (trim w) ""
  | _ => true
  end.

(** [listJobs(walletAddress)]: the parameter of the query is the address
    in lower case, not trimmed. *)
Definition listJobs (p : option jobs_table) (walletAddress : js string) : list job :=
  match p with
  | None => []
  | Some tbl =>
    if blank walletAddress then []
    else filter (of_wallet (toLowerCase (nullish walletAddress ""))) (ordered_rows tbl)
  end.

(** [Math.min(Number(limit) || 500, 1000)] for an integer [limit], with the
    default 500 of the parameter. *)
Definition page_size (limit : js Z) : Z :=
  let n := match limit with
           | js_undefined => 500
           | js_null => 0
           | js_val n => n
           end in
  Z.min (if n =? 0 then 500 else n) 1000.

(** [listAllJobs(limit)]; Postgres refuses a negative [LIMIT]. *)
Definition listAllJobs (p : option jobs_table) (limit : js Z) : outcome (list job) :=
  match p with
  | None => Returned []
  | Some tbl =>
    if page_size limit <? 0 then Thrown "LIMIT must not be negative"
    else Returned (take (Z.to_nat (page_size limit)) (ordered_rows tbl))
  end.

End Listing.

(** ** The routes of the job ledger ([routes/jobs.js]) *)

Module JobRoutes.
Import Ledger Listing.

(** A row as a statement returns it: a column that the statement does not
    select is [undefined] on the row object. *)
Record row_view : Type := mkView {
  v_id : string;
  v_task_id : string;
  v_deal_id : option string;
  v_settlement_name : string;
  v_status : string;
  v_result : option json;
  v_error : option string;
  v_dataset_url_override : js string;
  v_submitted_at : Z;
  v_settled_tx_hash : js string;
  v_settled_at : js Z;
  v_created_at : js Z;
  v_updated_at : option Z
}.

(** A nullable column that the statement selects. *)
Definition selected {A} (x : option A) : js A :=
  match x with Some a => js_val a | None => js_null end.

(** The [RETURNING] list of the upsert in [createJob]. *)
Definition returning_create (r : job) : row_view :=
  {| v_id := id r; v_task_id := task_id r; v_deal_id := deal_id r;
     v_settlement_name := settlement_name r; v_status := status r;
     v_result := result r; v_error := error r;
     v_dataset_url_override := js_undefined;
     v_submitted_at := submitted_at r;
     v_settled_tx_hash := js_undefined; v_settled_at := js_undefined;
     v_created_at := selected (created_at r); v_updated_at := updated_at r |}.

(** The [RETURNING] list of the update in [updateJobByTaskId]. *)
Definition returning_update (r : job) : row_view :=
  {| v_id := id r; v_task_id := task_id r; v_deal_id := deal_id r;
     v_settlement_name := settlement_name r; v_status := status r;
     v_result := result r; v_error := error r;
     v_dataset_url_override := js_undefined;
     v_submitted_at := submitted_at r;
     v_settled_tx_hash := selected (settled_tx_hash r);
     v_settled_at := selected (settled_at r);
     v_created_at := js_undefined; v_updated_at := updated_at r |}.

(** The column list of the queries in [listJobs] and [listAllJobs]. *)
Definition select_listed (r : job) : row_view :=
  {| v_id := id r; v_task_id := task_id r; v_deal_id := deal_id r;
     v_settlement_name := settlement_name r; v_status := status r;
     v_result := result r; v_error := error r;
     v_dataset_url_override := selected (dataset_url_override r);
     v_submitted_at := submitted_at r;
     v_settled_tx_hash := selected (settled_tx_hash r);
     v_settled_at := selected (settled_at r);
     v_created_at := selected (created_at r); v_updated_at := updated_at r |}.

(** The JSON object of a job in a reply. *)
Record job_json : Type := mkJson {
  j_id : string;
  taskId : string;
  dealId : option string;
  settlementName : string;
  j_status : string;
  j_result : option json;
  j_error : option string;
  datasetUrlOverride : js string;
  submittedAt : Z;
  settledTxHash : option string;
  settledAt : option Z;
  createdAt : js Z;
  updatedAt : option Z
}.

(** [jobRowToJson(row)].  [row.settled_tx_hash ?? null] turns a missing
    column into [null]; [row.settled_at ? ... : null] does so too, and also
    for a time that is the epoch itself. *)
Definition jobRowToJson (row : row_view) : job_json :=
  {| j_id := v_id row; taskId := v_task_id row; dealId := v_deal_id row;
     settlementName := v_settlement_name row; j_status := v_status row;
     j_result := v_result row; j_error := v_error row;
     datasetUrlOverride := v_dataset_url_override row;
     submittedAt := v_submitted_at row;
     settledTxHash := match v_settled_tx_hash row with js_val h => Some h | _ => None end;
     settledAt := match v_settled_at row with js_val t => Some t | _ => None end;
     createdAt := v_created_at row; updatedAt := v_updated_at row |}.

(** The body of [POST /jobs].  [b_taskId] can be of any type; the other
    properties are absent, [null] or of their documented type. *)
Record post_body : Type := mkPost {
  b_walletAddress : js string;
  b_taskId : Execute.property;
  b_dealId : js string;
  b_settlementName : js string;
  b_status : js string;
  b_result : js json;
  b_error : js string;
  b_datasetUrlOverride : js string;
  b_submittedAt : js Z
}.

(** [x || d] on a string property. *)
Definition or_default (x : js string) (d : string) : string :=
  if truthy x then nullish x d else d.

(** [x ?? null] *)
Definition or_null_value {A} (x : js A) : js A :=
  match x with js_undefined => js_null | _ => x end.

(** The argument that [postJob] makes for [createJob];
    [submittedAt ? new Date(submittedAt) : new Date()] takes the time of the
    request for a missing time and for the time 0.  The time of the body is a
    number of milliseconds within the range of [Date] (see [storable_time]). *)
Definition job_data_of (body : post_body) (taskId : string) (now : Z) : job_data :=
  {| d_wallet_address := b_walletAddress body;
     d_task_id := js_val (trim taskId);
     d_deal_id := b_dealId body;
     d_settlement_name := js_val (or_default (b_settlementName body) "Settlement");
     d_status := js_val (or_default (b_status body) "submitted");
     d_result := or_null_value (b_result body);
     d_error := or_null_value (b_error body);
     d_dataset_url_override := or_null_value (b_datasetUrlOverride body);
     d_submitted_at :=
       js_val (match b_submittedAt body with
               | js_val t => if t =? 0 then now else t
               | _ => now
               end) |}.

(** A time in milliseconds that [new Date(t)] represents and that the
    database stores: [new Date] gives an invalid date beyond 8.64e15, which
    the database refuses. *)
Definition storable_time (t : Z) : Prop := 0 <= t <= 8640000000000000.

Inductive post_reply : Type :=
| PostError (http : Z) (error : string)
| PostCreated (job : job_json).

(** [postJob(req, res)]; [p] is the pool, [None] when the database is not
    configured. *)
Definition postJob (p : option jobs_table) (body : post_body) (now : Z) (uuid : string)
  : post_reply * option jobs_table :=
  match p with
  | None =>
    (PostError 503 "Database not configured. Set DATABASE_URL or PGHOST/PGDATABASE.", None)
  | Some tbl =>
    match b_taskId body with
    | Execute.Text taskId =>
      if String.eqb taskId "" then (PostError 400 "Missing or invalid taskId", p)
      else
        match createJob p (job_data_of body taskId now) now uuid with
        | (Thrown m, p') =>
          (PostError 500 (if String.eqb m "" then "Failed to create job" else m), p')
        | (Returned None, p') => (PostError 500 "Failed to create job", p')
        | (Returned (Some row), p') =>
          (PostCreated (jobRowToJson (returning_create row)), p')
        end
    | _ => (PostError 400 "Missing or invalid taskId", p)
    end
  end.

(** [getJobs(req, res)]: [wallet] is [req.query?.wallet], a string when
    present; the route never answers with an error of its own. *)
Definition getJobs (p : option jobs_table) (wallet : js string) : list job_json :=
  match p with
  | None => []
  | Some _ =>
    match wallet with
    | js_val w =>
      if String.eqb (trim w) "" then []
      else jobRowToJson <$> (select_listed <$> listJobs p (js_val (trim w)))
    | _ => []
    end
  end.

(** The reply of [PATCH /jobs/by-task/:taskId] as JSON. *)
Definition patch_json (reply : patch_reply) : Z * option job_json :=
  match reply with
  | PatchError http _ => (http, None)
  | PatchOk row => (200, Some (jobRowToJson (returning_update row)))
  end.

End JobRoutes.

(** ** The treasury balance for the dashboard ([routes/settlement.js],
    [getTreasuryBalanceFormatted]; [routes/dashboard.js], [getStats]) *)

Module Dashboard.
Import Ledger Listing Treasury.

(** [getTreasuryBalanceFormatted()]: the formatted balance, [None] for the
    JavaScript [null], and the accesses made.  The store is consulted before
    the token address is resolved; a failure of the chain gives [null], a
    failure of the store is thrown. *)
Definition getTreasuryBalanceFormatted (env : environment) (db : database)
  : outcome (option string) * list access :=
  match env_var (ARBITRUM_SEPOLIA_RPC_URL env), env_var (SETTLEMENT_CONTRACT_ADDRESS env) with
  | Some rpc, Some settlementAddress =>
    let from_chain (trace : list access) : outcome (option string) * list access :=
      let resolved :=
        match env_var (TEST_USDC_ADDRESS env) with
        | Some t => (Some t, trace)
        | None =>
          match contract_token env with
          | Returned t => (Some t, (trace ++ [TokenRead])%list)
          | Thrown _ => (None, (trace ++ [TokenRead])%list)
          end
        end in
      match resolved with
      | (None, trace) => (Returned None, trace)
      | (Some tokenAddress, trace) =>
        match balanceOf env with
        | Returned balanceRaw =>
          (Returned (Some (Units.formatUsdc balanceRaw)), (trace ++ [BalanceRead])%list)
        | Thrown _ => (Returned None, (trace ++ [BalanceRead])%list)
        end
      end in
    if isDbConfigured db then
      match initDb db with
      | Thrown m => (Thrown m, [])
      | Returned _ =>
        match getTreasuryBalance db settlementAddress with
        | Thrown m => (Thrown m, [StoreRead])
        | Returned (Some stored) => (Returned (Some (balance_formatted stored)), [StoreRead])
        | Returned None => from_chain [StoreRead]
        end
      end
    else from_chain []
  | _, _ => (Returned None, [])
  end.

(** The reply of [GET /dashboard/stats].  A property whose value is
    [undefined] is left out of the JSON text. *)
Record stats : Type := mkStats {
  totalFundsDeposited : js string;
  totalFundsDepositedNum : js Z;
  activePools : nat;
  jobsRunning : nat;
  settlementsCompleted : nat;
  settlementsSettled : nat
}.

(** [j.settled_tx_hash != null] *)
Definition has_settled (r : job) : bool :=
  match settled_tx_hash r with Some _ => true | None => false end.

(** [!j.error] *)
Definition no_error (r : job) : bool :=
  match error r with
  | Some e => String.eqb e ""
  | None => true
  end.

(** One turn of the loop of [getStats]: the counters [activePools],
    [jobsRunning], [settlementsCompleted] and [settlementsSettled]. *)
Definition tally_step (acc : nat * nat * nat * nat) (j : job) : nat * nat * nat * nat :=
  let '(active, running, completed, settled) := acc in
  ((if has_result j && negb (has_settled j) then S active else active),
   (if negb (has_result j) && no_error j then S running else running),
   (if has_result j then S completed else completed),
   (if has_settled j then S settled else settled)).

(** The loop of [getStats] over the listed jobs. *)
Definition tally (jobs : list job) : nat * nat * nat * nat :=
  fold_left tally_step jobs (O, O, O, O).

Inductive stats_reply : Type :=
| StatsError (http : Z) (error : string)
| Stats (s : stats).

(** [getStats(req, res)].  [balance] is the string returned by
    [getTreasuryBalanceFormatted]; the route reads the properties
    [formatted] and [numeric] of it, which a string does not have. *)
Definition getStats (env : environment) (db : database) (p : option jobs_table)
  : stats_reply :=
  let failure (m : string) :=
    StatsError 500 (if String.eqb m "" then "Failed to get dashboard stats" else m) in
  match fst (getTreasuryBalanceFormatted env db) with
  | Thrown m => failure m
  | Returned balance =>
    let deposited : js string :=
      match balance with Some _ => js_undefined | None => js_val "0" end in
    let depositedNum : js Z :=
      match balance with Some _ => js_undefined | None => js_val 0 end in
    let counted : outcome (list job) :=
      if isDbConfigured db then
        match initDb db with
        | Thrown m => Thrown m
        | Returned _ => listAllJobs p (js_val 2000)
        end
      else Returned [] in
    match counted with
    | Thrown m => failure m
    | Returned jobs =>
      let '(active, running, completed, settled) := tally jobs in
      Stats {| totalFundsDeposited := deposited; totalFundsDepositedNum := depositedNum;
               activePools := active; jobsRunning := running;
               settlementsCompleted := completed; settlementsSettled := settled |}
    end
  end.

End Dashboard.

(** ** The configuration of the compute network ([config.js]) *)

Module Config.

Record chain : Type := mkChain {
  rpcHostUrl : string;
  ipfsGatewayUrl : string;
  iexecExplorerUrl : string;
  workerpool : string
}.

Definition bellecour : chain :=
  {| rpcHostUrl := "https://bellecour.iex.ec";
     ipfsGatewayUrl := "https://ipfs-gateway.v8-bellecour.iex.ec";
     iexecExplorerUrl := "https://explorer.iex.ec/bellecour";
     workerpool := "prod-v8-learn.main.pools.iexec.eth" |}.

(** [CHAINS[chainName]], for a name that is not a property inherited from
    [Object.prototype]. *)
Definition CHAINS (chainName : string) : option chain :=
  if String.eqb chainName "bellecour" then Some bellecour else None.

Definition SCONE_TAG : list string := ["tee"; "scone"].

Record config : Type := mkConfig {
  privateKey : string;
  chainName : string;
  the_chain : chain;
  appAddress : string;
  TASK_OBSERVATION_TIMEOUT_MS : Z
}.

(** The variables of the process that [getConfig] reads. *)
Record process_env : Type := mkProcess {
  IEXEC_PRIVATE_KEY : option string;
  PRIVATE_KEY : option string;
  IEXEC_CHAIN : option string;
  IEXEC_APP_ADDRESS : option string
}.

(** [a || b] on variables of the process: unset and empty are falsy. *)
Definition first_set (a b : option string) : option string :=
  match Treasury.env_var a with
  | Some x => Some x
  | None => Treasury.env_var b
  end.

(** [getConfig()] *)
Definition getConfig (env : process_env) : outcome config :=
  match first_set (IEXEC_PRIVATE_KEY env) (PRIVATE_KEY env) with
  | None => Thrown "Missing IEXEC_PRIVATE_KEY or PRIVATE_KEY in environment"
  | Some key =>
    let name := match Treasury.env_var (IEXEC_CHAIN env) with
                | Some n => n
                | None => "bellecour"
                end in
    match CHAINS name with
    | None => Thrown ("Unsupported chain: " ++ name ++ ". Use one of: bellecour")
    | Some c =>
      match Treasury.env_var (IEXEC_APP_ADDRESS env) with
      | None => Thrown "Missing IEXEC_APP_ADDRESS in environment"
      | Some app =>
        Returned {| privateKey := key; chainName := name; the_chain := c;
                    appAddress := app;
                    TASK_OBSERVATION_TIMEOUT_MS := Observer.TASK_OBSERVATION_TIMEOUT_MS |}
      end
    end
  end.

End Config.

(** ** Submitting a task ([iexec-client.js], [runSettlementTask] and
    [runSettlementAndWait]; [routes/settlement.js], [postRun] and
    [postWait]) *)

Module Pipeline.
Import Config.

(** The orders of the compute network, as far as the code reads or writes
    their properties. *)
Record apporder_request : Type := mkAppReq {
  ar_app : string;
  ar_requesterrestrict : string;
  ar_tag : list string
}.

Record apporder : Type := mkAppOrder {
  ao_request : apporder_request;
  appprice : Z;
  ao_sign : option string
}.

Record workerpoolorder : Type := mkPoolOrder {
  wo_workerpool : string;
  category : Z;
  workerpoolprice : Z;
  wo_sign : string
}.

Record orderbook_query : Type := mkQuery {
  q_workerpool : string;
  q_app : string;
  q_minTag : list string;
  q_maxTag : list string;
  q_minVolume : Z
}.

Record requestorder : Type := mkRequest {
  ro_app : string;
  ro_category : Z;
  ro_dataset : string;
  ro_appmaxprice : Z;
  ro_datasetmaxprice : Z;
  ro_workerpoolmaxprice : Z;
  ro_tag : list string;
  ro_volume : Z;
  iexec_input_files : list string;
  ro_sign : option string
}.

(** [ethers.ZeroAddress] *)
Definition ZeroAddress : string := "0x0000000000000000000000000000000000000000".

(** The calls to the client of the compute network, with their arguments. *)
Inductive sdk_call : Type :=
| CheckDeployedApp (app : string)
| CreateApporder (r : apporder_request)
| SignApporder (o : apporder)
| FetchWorkerpoolOrderbook (q : orderbook_query)
| CreateRequestorder (r : requestorder)
| SignRequestorder (r : requestorder)
| MatchOrders (a : apporder) (w : workerpoolorder) (r : requestorder)
| ComputeTaskId (dealid : string) (index : Z).

(** The client of the compute network: what each call answers.
    [new_Wallet] is [new ethers.Wallet(privateKey)] with the address of the
    wallet; it throws for a malformed key. *)
Record iexec : Type := mkIExec {
  new_Wallet : string -> outcome string;
  checkDeployedApp : string -> outcome bool;
  createApporder : apporder_request -> outcome apporder;
  signApporder : apporder -> outcome apporder;
  fetchWorkerpoolOrderbook : orderbook_query -> outcome (list workerpoolorder);
  createRequestorder : requestorder -> outcome requestorder;
  signRequestorder : requestorder -> outcome requestorder;
  matchOrders : apporder -> workerpoolorder -> requestorder -> outcome string;
  computeTaskId : string -> Z -> outcome string
}.

(** A computation that makes calls and may throw: the calls made so far are
    threaded through. *)
Definition sdk (A : Type) : Type := list sdk_call -> outcome A * list sdk_call.

Definition ret {A} (a : A) : sdk A := fun log => (Returned a, log).

Definition throw {A} (m : string) : sdk A := fun log => (Thrown m, log).

Definition bind {A B} (x : sdk A) (k : A -> sdk B) : sdk B :=
  fun log =>
    match x log with
    | (Returned a, log') => k a log'
    | (Thrown m, log') => (Thrown m, log')
    end.

(** A step that makes no call to the client. *)
Definition lift {A} (x : outcome A) : sdk A := fun log => (x, log).

(** [await] of a call to the client. *)
Definition await {A} (c : sdk_call) (answer : outcome A) : sdk A :=
  fun log => (answer, (log ++ [c])%list).

Notation "x <- c ;; k" := (bind c (fun x => k))
  (at level 100, c at next level, right associativity).

Record submitted : Type := mkSubmitted {
  dealId : string;
  taskId : string
}.

(** [runSettlementTask(datasetUrl)] after [getConfig()]. *)
Definition runSettlementTask (cfg : config) (lib : iexec) (datasetUrl : string)
  : sdk submitted :=
  userAddress <- lift (new_Wallet lib (privateKey cfg)) ;;
  deployed <- await (CheckDeployedApp (appAddress cfg))
                    (checkDeployedApp lib (appAddress cfg)) ;;
  if negb deployed then throw ("No iApp found at " ++ appAddress cfg)
  else
    let template :=
      {| ar_app := appAddress cfg; ar_requesterrestrict := userAddress;
         ar_tag := SCONE_TAG |} in
    apporderTemplate <- await (CreateApporder template) (createApporder lib template) ;;
    apporder <- await (SignApporder apporderTemplate) (signApporder lib apporderTemplate) ;;
    let query :=
      {| q_workerpool := workerpool (the_chain cfg); q_app := appAddress cfg;
         q_minTag := SCONE_TAG; q_maxTag := SCONE_TAG; q_minVolume := 1 |} in
    orders <- await (FetchWorkerpoolOrderbook query) (fetchWorkerpoolOrderbook lib query) ;;
    match orders with
    | [] => throw "No workerpool order found. Try again later."
    | workerpoolorder :: _ =>
      let params :=
        {| ro_app := appAddress cfg; ro_category := category workerpoolorder;
           ro_dataset := ZeroAddress; ro_appmaxprice := appprice apporder;
           ro_datasetmaxprice := 0;
           ro_workerpoolmaxprice := workerpoolprice workerpoolorder;
           ro_tag := SCONE_TAG; ro_volume := 1;
           iexec_input_files := [datasetUrl]; ro_sign := None |} in
      requestorderToSign <- await (CreateRequestorder params)
                                  (createRequestorder lib params) ;;
      requestorder <- await (SignRequestorder requestorderToSign)
                            (signRequestorder lib requestorderToSign) ;;
      dealid <- await (MatchOrders apporder workerpoolorder requestorder)
                      (matchOrders lib apporder workerpoolorder requestorder) ;;
      taskid <- await (ComputeTaskId dealid 0) (computeTaskId lib dealid 0) ;;
      ret {| dealId := dealid; taskId := taskid |}
    end.

(** The promise of [waitForTask] once the schedule has run: resolved,
    rejected with a message, or still pending. *)
Definition awaited (T : Z) (schedule : list (Z * Observer.event)) : option (outcome unit) :=
  match Observer.promise (Observer.waitForTask T schedule) with
  | Observer.Pending => None
  | Observer.Resolved => Some (Returned tt)
  | Observer.Rejected Observer.Timeout => Some (Thrown "Task observation timeout")
  | Observer.Rejected (Observer.Forwarded e) => Some (Thrown e)
  end.

Record run_result : Type := mkRun {
  run_dealId : string;
  run_taskId : string;
  run_result_json : json
}.

(** [runSettlementAndWait(datasetUrl)]: [None] while the observation is
    pending. *)
Definition runSettlementAndWait (cfg : config) (lib : iexec) (net : Fetcher.network)
    (schedule : list (Z * Observer.event)) (datasetUrl : string)
  : option (outcome run_result) * list sdk_call :=
  match runSettlementTask cfg lib datasetUrl [] with
  | (Thrown m, log) => (Some (Thrown m), log)
  | (Returned s, log) =>
    match new_Wallet lib (privateKey cfg) with
    | Thrown m => (Some (Thrown m), log)
    | Returned _ =>
      match awaited (TASK_OBSERVATION_TIMEOUT_MS cfg) schedule with
      | None => (None, log)
      | Some (Thrown m) => (Some (Thrown m), log)
      | Some (Returned _) =>
        match Fetcher.fetchTaskResult net (taskId s) with
        | Thrown m => (Some (Thrown m), log)
        | Returned r =>
          (Some (Returned {| run_dealId := dealId s; run_taskId := taskId s;
                             run_result_json := Fetcher.r_result r |}), log)
        end
      end
    end
  end.

(** The body of [POST /settlement/run]: [datasetUrl] of any type, and
    [wait], which the route tests for truthiness. *)
Record run_body : Type := mkRunBody {
  datasetUrl : Execute.property;
  wait : bool
}.

Inductive run_reply : Type :=
| RunError (http : Z) (error : string)
| RunSubmitted (dealId taskId : string)
| RunCompleted (dealId taskId : string) (result : json).

(** [url.startsWith("http://") || url.startsWith("https://")] *)
Definition is_http (url : string) : bool :=
  startsWith "http://" url || startsWith "https://" url.

Definition run_failure (m : string) : run_reply :=
  RunError 500 (if String.eqb m "" then "Failed to run settlement" else m).

(** [postRun(req, res)]: the reply, [None] while the observation is
    pending, and the calls made to the client of the compute network. *)
Definition postRun (cfg : config) (lib : iexec) (net : Fetcher.network)
    (schedule : list (Z * Observer.event)) (body : run_body)
  : option run_reply * list sdk_call :=
  match datasetUrl body with
  | Execute.Text datasetUrl =>
    if String.eqb datasetUrl "" then (Some (RunError 400 "Missing or invalid datasetUrl"), [])
    else
      let url := trim datasetUrl in
      if negb (is_http url) then
        (Some (RunError 400 "datasetUrl must be an HTTP(S) URL"), [])
      else if wait body then
        match runSettlementAndWait cfg lib net schedule url with
        | (None, log) => (None, log)
        | (Some (Thrown m), log) => (Some (run_failure m), log)
        | (Some (Returned r), log) =>
          (Some (RunCompleted (run_dealId r) (run_taskId r) (run_result_json r)), log)
        end
      else
        match runSettlementTask cfg lib url [] with
        | (Thrown m, log) => (Some (run_failure m), log)
        | (Returned s, log) => (Some (RunSubmitted (dealId s) (taskId s)), log)
        end
  | _ => (Some (RunError 400 "Missing or invalid datasetUrl"), [])
  end.

(** The property [dealId] of the body of [POST /settlement/wait/:taskId],
    which the route tests for truthiness only. *)
Inductive deal_value : Type :=
| DealFalsy
| DealText (s : string)
| DealOther.

(** [!!dealId]; [DealFalsy] is an absent property, [null], or another falsy
    value that is not a string, [DealOther] a truthy value that is not a
    string. *)
Definition given (dealId : deal_value) : bool :=
  match dealId with
  | DealFalsy => false
  | DealText s => negb (String.eqb s "")
  | DealOther => true
  end.

(** [postWait(req, res)]: [taskId] is [req.params.taskId] and [dealId] the
    property of the body; [None] while the observation is pending. *)
Definition postWait (cfg : config) (lib : iexec) (net : Fetcher.network)
    (schedule : list (Z * Observer.event)) (taskId : js string) (dealId : deal_value)
  : option Fetcher.result_reply :=
  if negb (truthy taskId) || negb (given dealId) then
    Some (Fetcher.ResultError 400 "Missing taskId or dealId")
  else
    let failure (m : string) :=
      Fetcher.ResultError 500 (if String.eqb m "" then "Failed to wait for task" else m) in
    match new_Wallet lib (privateKey cfg) with
    | Thrown m => Some (failure m)
    | Returned _ =>
      match awaited (TASK_OBSERVATION_TIMEOUT_MS cfg) schedule with
      | None => None
      | Some (Thrown m) => Some (failure m)
      | Some (Returned _) =>
        match Fetcher.fetchTaskResult net (nullish taskId "") with
        | Thrown m => Some (failure m)
        | Returned r =>
          Some (Fetcher.ResultOk (nullish taskId "") (Fetcher.r_status r)
                  (Fetcher.r_result r))
        end
      end
    end.

(** The calls that submit work: matching the orders. *)
Definition is_match (c : sdk_call) : bool :=
  match c with
  | MatchOrders _ _ _ => true
  | _ => false
  end.

(** The calls that come after the order book has been read. *)
Definition after_orderbook (c : sdk_call) : bool :=
  match c with
  | CreateRequestorder _ | SignRequestorder _ | MatchOrders _ _ _ | ComputeTaskId _ _ => true
  | _ => false
  end.

(** The state of an observation before its timer is due, while nothing but
    notifications has come from the subscription. *)
Definition armed (s : Observer.state) : Prop :=
  Observer.timer s = Observer.Armed
  /\ Observer.promise s = Observer.Pending
  /\ Observer.settled_at s = None
  /\ Observer.count Observer.is_clear s = 0%nat
  /\ Observer.count Observer.is_timer_log s = 0%nat
  /\ Observer.subscription s <> Observer.Closed.

End Pipeline.

(** * Sample runs of the pipeline *)

Module Runs.
Import Config Pipeline.

Definition cfg : config :=
  {| privateKey := "0x01"; chainName := "bellecour"; the_chain := bellecour;
     appAddress := "0xapp";
     TASK_OBSERVATION_TIMEOUT_MS := Observer.TASK_OBSERVATION_TIMEOUT_MS |}.

Definition pool_order : workerpoolorder :=
  {| wo_workerpool := "prod-v8-learn.main.pools.iexec.eth"; category := 0;
     workerpoolprice := 7; wo_sign := "0xpool" |}.

(** A compute network where the app is deployed and costs 3, one workerpool
    order is on offer, and every call succeeds. *)
Definition willing : iexec :=
  {| new_Wallet := fun _ => Returned "0xrequester";
     checkDeployedApp := fun _ => Returned true;
     createApporder := fun r =>
       Returned {| ao_request := r; appprice := 3; ao_sign := None |};
     signApporder := fun o =>
       Returned {| ao_request := ao_request o; appprice := appprice o;
                   ao_sign := Some "0xsigned" |};
     fetchWorkerpoolOrderbook := fun _ => Returned [pool_order];
     createRequestorder := fun r => Returned r;
     signRequestorder := fun r =>
       Returned {| ro_app := ro_app r; ro_category := ro_category r;
                   ro_dataset := ro_dataset r; ro_appmaxprice := ro_appmaxprice r;
                   ro_datasetmaxprice := ro_datasetmaxprice r;
                   ro_workerpoolmaxprice := ro_workerpoolmaxprice r;
                   ro_tag := ro_tag r; ro_volume := ro_volume r;
                   iexec_input_files := iexec_input_files r;
                   ro_sign := Some "0xsigned" |};
     matchOrders := fun _ _ _ => Returned "0xdeal";
     computeTaskId := fun _ _ => Returned "0xtask" |}.

(** The same network with an empty order book. *)
Definition no_offer : iexec :=
  {| new_Wallet := new_Wallet willing;
     checkDeployedApp := checkDeployedApp willing;
     createApporder := createApporder willing;
     signApporder := signApporder willing;
     fetchWorkerpoolOrderbook := fun _ => Returned [];
     createRequestorder := createRequestorder willing;
     signRequestorder := signRequestorder willing;
     matchOrders := matchOrders willing;
     computeTaskId := computeTaskId willing |}.

(** The task completes after a minute; the timer event that follows finds
    the timer cleared. *)
Definition finished_task : list (Z * Observer.event) :=
  ([(5, Observer.ObsTaskResolved); (100, Observer.Next)]
     ++ (60000, Observer.Complete) :: [(600000, Observer.TimerElapsed)])%list.

End Runs.

(** * The faucet ([routes/faucet.js]) *)

Module Faucet.

Definition ARB_SEPOLIA_EXPLORER : string := "https://sepolia.arbiscan.io".
Definition DEFAULT_AMOUNT : string := "10000".
Definition RATE_LIMIT_MS : Z := 60 * 1000.

(** The variables of the process that [getFaucetConfig] reads. *)
Record faucet_env : Type := mkFaucetEnv {
  ARBITRUM_SEPOLIA_RPC_URL : option string;
  TEST_USDC_ADDRESS : option string;
  FAUCET_PRIVATE_KEY : option string
}.

Record faucet_config : Type := mkFaucetConfig {
  rpc : string;
  tokenAddress : string;
  privateKey : string
}.

(** [getFaucetConfig()]; [None] is the JavaScript [null]. *)
Definition getFaucetConfig (env : faucet_env) : option faucet_config :=
  match Treasury.env_var (ARBITRUM_SEPOLIA_RPC_URL env),
        Treasury.env_var (TEST_USDC_ADDRESS env),
        Treasury.env_var (FAUCET_PRIVATE_KEY env) with
  | Some r, Some t, Some k => Some {| rpc := r; tokenAddress := t; privateKey := k |}
  | _, _, _ => None
  end.

(** A call of [contract.mint(to, amount)], with the time of the request. *)
Record mint_call : Type := mkMint {
  mint_at : Z;
  mint_to : string;
  mint_amount : Z
}.

(** What the route calls outside the repository: [ethers.isAddress],
    [new ethers.Wallet(privateKey, provider)], which throws for a malformed
    key, and the mint transaction with its receipt, whose outcome may depend
    on the time at which it is sent. *)
Record ethers : Type := mkFaucetLib {
  isAddress : string -> bool;
  new_Wallet : string -> option Execute.error_obj;
  mint : faucet_config -> mint_call -> Execute.error_obj + string
}.

Inductive faucet_reply : Type :=
| FaucetError (status : Z) (error : string)
| Minted (txHash explorerUrl amount message : string).

(** The module's map [addressLastRequest] and the mint calls made so far. *)
Record state : Type := mkFaucetState {
  addressLastRequest : gmap string Z;
  minted : list mint_call
}.

Definition initial : state := {| addressLastRequest := ∅; minted := [] |}.

(** [ethers.parseUnits(DEFAULT_AMOUNT, 6)] *)
Definition amount : Z := 10000 * 10 ^ 6.

(** The [catch] block: [err.reason ?? err.shortMessage ?? err.message ??
    "Mint failed"]. *)
Definition mint_failure (err : Execute.error_obj) : faucet_reply :=
  FaucetError 500
    (nullish (Execute.orElse (Execute.reason err)
                (Execute.orElse (Execute.shortMessage err) (Execute.message err)))
             "Mint failed").

(** [postFaucet(req, res)] at time [now = Date.now()], with [address] the
    property of the body. *)
Definition postFaucet (lib : ethers) (env : faucet_env) (st : state) (now : Z)
    (address : Execute.property) : faucet_reply * state :=
  match getFaucetConfig env with
  | None =>
    (FaucetError 503 "Faucet not configured. Set ARBITRUM_SEPOLIA_RPC_URL, TEST_USDC_ADDRESS, and FAUCET_PRIVATE_KEY.", st)
  | Some config =>
    match address with
    | Execute.Text address =>
      if String.eqb address "" then (FaucetError 400 "Missing or invalid address", st)
      else
        let to := trim address in
        if negb (isAddress lib to) then (FaucetError 400 "Invalid Ethereum address", st)
        else
          let limited :=
            match addressLastRequest st !! toLowerCase to with
            | Some last => now - last <? RATE_LIMIT_MS
            | None => false
            end in
          if limited then
            (FaucetError 429 "Rate limited. Please wait a minute before requesting again.", st)
          else
            let noted := <[toLowerCase to := now]> (addressLastRequest st) in
            match new_Wallet lib (privateKey config) with
            | Some err =>
              (mint_failure err, {| addressLastRequest := noted; minted := minted st |})
            | None =>
              let call := {| mint_at := now; mint_to := to; mint_amount := amount |} in
              let st' :=
                {| addressLastRequest := noted; minted := (minted st ++ [call])%list |} in
              match mint lib config call with
              | inl err => (mint_failure err, st')
              | inr txHash =>
                (Minted txHash (ARB_SEPOLIA_EXPLORER ++ "/tx/" ++ txHash) DEFAULT_AMOUNT
                   ("Minted " ++ DEFAULT_AMOUNT ++ " test USDC to " ++ to
                      ++ " on Arbitrum Sepolia."),
                 st')
              end
            end
    | _ => (FaucetError 400 "Missing or invalid address", st)
    end
  end.

(** The requests served one after the other: each is a time and the
    [address] property of its body. *)
Definition serve (lib : ethers) (env : faucet_env) (st : state)
    (requests : list (Z * Execute.property)) : state :=
  fold_left (fun st r => snd (postFaucet lib env st (fst r) (snd r))) requests st.

(** The route got past the rate limit. *)
Definition attempted (reply : faucet_reply) : bool :=
  match reply with
  | Minted _ _ _ _ => true
  | FaucetError status _ => status =? 500
  end.

(** Each call in the map at its own time or a full interval before the
    time the map holds for its address. *)
Definition spaced (st : state) : Prop :=
  forall c, In c (minted st) ->
    exists last, addressLastRequest st !! toLowerCase (mint_to c) = Some last
                 /\ (last = mint_at c \/ RATE_LIMIT_MS <= last - mint_at c).

End Faucet.

(** * The dataset store ([routes/datasets.js]) *)

Module Datasets.

Definition PUBLIC_UPLOAD_0X0 : string := "https://0x0.st".
Definition PUBLIC_UPLOAD_TRANSFER : string := "https://transfer.sh".

(** [s.replace(/X$/, "")] for a text [X] without special characters: [s]
    without [X] at its end, if it ends with it. *)
Fixpoint strip_suffix (x s : string) : string :=
  match s with
  | EmptyString => EmptyString
  | String c rest => if String.eqb s x then EmptyString else String c (strip_suffix x rest)
  end.

(** The response of a file host: [response.ok] and [await response.text()]. *)
Record response : Type := mkResponse {
  ok : bool;
  text : string
}.

(** The two file hosts: what [fetch] answers, or throws. *)
Record hosts : Type := mkHosts {
  post_0x0 : outcome response;
  put_transfer : outcome response
}.

Inductive host_call : Type :=
| Post0x0
| PutTransfer.

(** [uploadToPublicHost(jsonObject)]: the public URL, [None] for [null], and
    the hosts contacted. *)
Definition uploadToPublicHost (net : hosts) : option string * list host_call :=
  let fallback :=
    match put_transfer net with
    | Returned r =>
      let text := trim (text r) in
      if ok r && startsWith "http" text then Some text else None
    | Thrown _ => None
    end in
  match post_0x0 net with
  | Returned r =>
    let text := trim (text r) in
    if negb (ok r) then (fallback, [Post0x0; PutTransfer])
    else if startsWith "http" text then (Some text, [Post0x0])
    else if startsWith "/" text then
      (Some (strip_suffix "/" PUBLIC_UPLOAD_0X0 ++ text), [Post0x0])
    else (fallback, [Post0x0; PutTransfer])
  | Thrown _ => (fallback, [Post0x0; PutTransfer])
  end.

(** A value that is truthy and whose [typeof] is ["object"]: an object or
    an array. *)
Inductive object : Type :=
| Members (members : list (string * json))
| Items (items : list json).

(** [!body || typeof body !== "object"], negated, on a parsed body. *)
Definition as_object (body : json) : option object :=
  match body with
  | JObj members => Some (Members members)
  | JArr items => Some (Items items)
  | _ => None
  end.

(** The variables of the process that [postDataset] reads; [PORT] as text. *)
Record dataset_env : Type := mkDatasetEnv {
  BACKEND_PUBLIC_URL : option string;
  PORT : option string
}.

(** [process.env.BACKEND_PUBLIC_URL || `http://localhost:${process.env.PORT || 3001}`] *)
Definition baseUrl (env : dataset_env) : string :=
  match Treasury.env_var (BACKEND_PUBLIC_URL env) with
  | Some u => u
  | None =>
    "http://localhost:" ++ match Treasury.env_var (PORT env) with
                           | Some p => p
                           | None => "3001"
                           end
  end.

Inductive dataset_reply : Type :=
| DatasetError (status : Z) (error : string)
| Stored (id url : string) (publicUrl : option string)
| Found (data : object).

(** [postDataset(req, res)]; [id] is the text drawn from [Math.random()],
    and [store] the module's map. *)
Definition postDataset (env : dataset_env) (net : hosts) (store : gmap string object)
    (id : string) (body : js json)
  : dataset_reply * gmap string object * list host_call :=
  match body with
  | js_val body =>
    match as_object body with
    | None => (DatasetError 400 "Request body must be a JSON object (dataset)", store, [])
    | Some data =>
      let store' := <[id := data]> store in
      let url := strip_suffix "/" (baseUrl env) ++ "/datasets/" ++ id ++ ".json" in
      let '(publicUrl, contacted) := uploadToPublicHost net in
      (Stored id url (match publicUrl with
                      | Some u => if String.eqb u "" then None else Some u
                      | None => None
                      end),
       store', contacted)
    end
  | _ => (DatasetError 400 "Request body must be a JSON object (dataset)", store, [])
  end.

(** [getDataset(req, res)]; [id] is [req.params.id]. *)
Definition getDataset (store : gmap string object) (id : js string) : dataset_reply :=
  let id := match id with
            | js_val s => js_val (strip_suffix ".json" s)
            | x => x
            end in
  if negb (truthy id) then DatasetError 400 "Missing dataset id"
  else
    match store !! nullish id "" with
    | Some data => Found data
    | None => DatasetError 404 "Dataset not found"
    end.

End Datasets.

(** * The path normalization of the server ([index.js]) *)

Module Server.

(** The text before the first occurrence of [c]. *)
Fixpoint before (c : ascii) (s : string) : string :=
  match s with
  | EmptyString => EmptyString
  | String x rest => if Ascii.eqb x c then EmptyString else String x (before c rest)
  end.

(** The text after the first occurrence of [c], if there is one. *)
Fixpoint after (c : ascii) (s : string) : js string :=
  match s with
  | EmptyString => js_undefined
  | String x rest => if Ascii.eqb x c then js_val rest else after c rest
  end.

(** [const [pathPart, queryPart] = url.split("?")]: the first two pieces. *)
Definition pathPart (url : string) : string := before "?" url.

Definition queryPart (url : string) : js string :=
  match after "?" url with
  | js_val rest => js_val (before "?" rest)
  | x => x
  end.

(** [s.replace(/\/+/g, "/")]: a slash that another slash follows is dropped. *)
Fixpoint collapse_slashes (s : string) : string :=
  match s with
  | EmptyString => EmptyString
  | String c rest =>
    match rest with
    | String c' _ =>
      if Ascii.eqb c "/" && Ascii.eqb c' "/" then collapse_slashes rest
      else String c (collapse_slashes rest)
    | EmptyString => String c EmptyString
    end
  end.

(** The value of [req.url] after the middleware. *)
Definition normalize (url : string) : string :=
  collapse_slashes (pathPart url)
  ++ (if truthy (queryPart url) then "?" ++ nullish (queryPart url) "" else "").

(** Two slashes in a row somewhere in the text. *)
Fixpoint double_slash (s : string) : bool :=
  match s with
  | String c (String c' _ as rest) =>
    (Ascii.eqb c "/" && Ascii.eqb c' "/") || double_slash rest
  | _ => false
  end.

Fixpoint occurs (c : ascii) (s : string) : bool :=
  match s with
  | EmptyString => false
  | String x rest => Ascii.eqb x c || occurs c rest
  end.

End Server.

(** * Sample requests to the faucet and the dataset store *)

Module Requests.

Definition faucet_env : Faucet.faucet_env :=
  {| Faucet.ARBITRUM_SEPOLIA_RPC_URL := Some "https://rpc";
     Faucet.TEST_USDC_ADDRESS := Some "0xusdc";
     Faucet.FAUCET_PRIVATE_KEY := Some "0x01" |}.

(** A library that accepts every text of 42 characters as an address, and a
    chain on which every mint fails. *)
Definition failing_mint : Faucet.ethers :=
  {| Faucet.isAddress := fun s => (String.length s =? 42)%nat;
     Faucet.new_Wallet := fun _ => None;
     Faucet.mint := fun _ _ => inl (Execute.Error "insufficient funds for gas") |}.

Definition alice : string := "0xAbCdEf0123456789abcdef0123456789ABCDEF01".

(** A file host that answers with a relative path, and one that is down. *)
Definition relative_path : Datasets.hosts :=
  {| Datasets.post_0x0 := Returned {| Datasets.ok := true; Datasets.text := "/abc.json " |};
     Datasets.put_transfer := Thrown "fetch failed" |}.

Definition dataset_env : Datasets.dataset_env :=
  {| Datasets.BACKEND_PUBLIC_URL := Some "https://api.example.org/";
     Datasets.PORT := None |}.

Definition dataset : json := JObj [("payouts", JArr [])].

End Requests.

(** * Properties of the job ledger *)

Section LedgerFacts.
Import Ledger.
Implicit Types (tbl : jobs_table) (data : job_data) (u : job_updates) (r : job).

(** A call for an existing task either fails the NOT NULL check and leaves
    the table alone, or rewrites the one row of that task. *)
Lemma createJob_existing tbl data now uuid t existing :
  d_task_id data = js_val t ->
  tbl !! t = Some existing ->
  (exists m, createJob (Some tbl) data now uuid = (Thrown m, Some tbl))
  \/ (exists row, proposed data now uuid = Returned row /\ task_id row = t /\
        createJob (Some tbl) data now uuid
        = (Returned (Some (on_conflict_update row existing now)),
           Some (<[t := on_conflict_update row existing now]> tbl))).
Proof.
  intros Ht Hex. unfold createJob.
  destruct (proposed data now uuid) as [row|m] eqn:Hp.
  - right. exists row.
    assert (task_id row = t) as Hid.
    { unfold proposed in Hp. rewrite Ht in Hp. simpl in Hp.
      destruct (sql_param (destructuring_default (d_settlement_name data) _)); [|discriminate].
      destruct (sql_param (destructuring_default (d_status data) _)); [|discriminate].
      inversion Hp; reflexivity. }
    rewrite Hid, Hex. auto.
  - left. eauto.
Qed.

(** C10.  When [createJob] is called for a task that already has a row, the
    written row keeps the stored [wallet_address], [submitted_at],
    [dataset_url_override], [settled_tx_hash] and [settled_at] (and [id],
    [task_id], [created_at]) whatever the call supplies for them, and the
    rows of the other tasks are left as they were. *)
Theorem createJob_frame tbl tbl' data now uuid t existing written :
  d_task_id data = js_val t ->
  tbl !! t = Some existing ->
  createJob (Some tbl) data now uuid = (Returned (Some written), Some tbl') ->
  wallet_address written = wallet_address existing
  /\ submitted_at written = submitted_at existing
  /\ dataset_url_override written = dataset_url_override existing
  /\ settled_tx_hash written = settled_tx_hash existing
  /\ settled_at written = settled_at existing
  /\ id written = id existing
  /\ task_id written = task_id existing
  /\ created_at written = created_at existing
  /\ tbl' !! t = Some written
  /\ (forall t', t' <> t -> tbl' !! t' = tbl !! t').
Proof.
  intros Ht Hex Hrun.
  destruct (createJob_existing tbl data now uuid t existing Ht Hex)
    as [[m Hm] | (row & _ & _ & Hok)].
  - rewrite Hm in Hrun. discriminate.
  - rewrite Hok in Hrun. inversion Hrun; subst written tbl'; clear Hrun.
    repeat split; try reflexivity.
    + apply lookup_insert_eq.
    + intros t' Hne. apply lookup_insert_ne. congruence.
Qed.

(** The sample tables are what the sample calls leave behind. *)
Lemma sample_tables :
  createJob (Some ∅) Samples.first_call 100 "id-1"
  = (Returned (Some Samples.stored_first), Some Samples.table_after_first)
  /\ createJob (Some ∅) Samples.pending_call 100 "id-1"
     = (Returned (Some Samples.stored_pending), Some Samples.table_no_result).
Proof. split; reflexivity. Qed.

Lemma second_call_runs :
  exists written tbl',
    createJob (Some Samples.table_after_first) Samples.second_call 200 "id-2"
    = (Returned (Some written), Some tbl').
Proof.
  unfold createJob.
  cbn [proposed Samples.second_call Samples.call d_task_id d_settlement_name d_status
       sql_param destructuring_default task_id].
  unfold Samples.table_after_first. rewrite lookup_insert_eq. eauto.
Defined.

(** Witness of [createJob_frame]: the second sample call on the table left
    by the first one. *)
Lemma createJob_frame_witness :
  exists written tbl',
    createJob (Some Samples.table_after_first) Samples.second_call 200 "id-2"
    = (Returned (Some written), Some tbl')
    /\ wallet_address written = Some "0xabc1"
    /\ submitted_at written = 100.
Proof.
  destruct second_call_runs as (written & tbl' & Hrun).
  exists written, tbl'. split; [exact Hrun|].
  destruct (createJob_frame Samples.table_after_first tbl' Samples.second_call 200 "id-2"
              "0xtask" Samples.stored_first written eq_refl
              (lookup_insert_eq _ _ _) Hrun) as (Hw & Hs & _).
  split; [exact Hw | exact Hs].
Defined.




(** *** The invariant [settledTxHash != null -> result != null] *)

(** A proposed tuple never carries the JSON document [null]. *)
Lemma proposed_result data now uuid row :
  proposed data now uuid = Returned row -> result row <> Some JNull.
Proof.
  unfold proposed. intros Hp.
  destruct (sql_param (d_task_id data)); [|discriminate].
  destruct (sql_param (destructuring_default (d_settlement_name data) _)); [|discriminate].
  destruct (sql_param (destructuring_default (d_status data) _)); [|discriminate].
  inversion Hp; subst row; simpl. unfold result_param.
  destruct (d_result data) as [| |[]]; simpl; congruence.
Qed.

Lemma has_result_on_conflict row existing now :
  result row <> Some JNull ->
  has_result existing = true -> has_result (on_conflict_update row existing now) = true.
Proof.
  unfold has_result, on_conflict_update, COALESCE; simpl.
  intros Hn H. destruct (result row) as [j|] eqn:Hr; [|exact H].
  destruct j; try reflexivity. congruence.
Qed.

Lemma createJob_keeps_invariant tbl data now uuid :
  settled_only_with_result tbl ->
  settled_only_with_result (table_after tbl (createJob (Some tbl) data now uuid)).
Proof.
  intros Hinv. unfold createJob.
  destruct (proposed data now uuid) as [row|m] eqn:Hp; [|exact Hinv].
  unfold table_after; simpl. intros t r Hl Hs.
  destruct (decide (task_id row = t)) as [<-|Hne].
  - rewrite lookup_insert_eq in Hl. inversion Hl; subst r; clear Hl.
    destruct (tbl !! task_id row) as [existing|] eqn:Hex.
    + apply has_result_on_conflict; [eapply proposed_result; exact Hp|].
      apply (Hinv _ _ Hex). exact Hs.
    + unfold proposed in Hp.
      destruct (sql_param (d_task_id data)); [|discriminate].
      destruct (sql_param (destructuring_default (d_settlement_name data) _)); [|discriminate].
      destruct (sql_param (destructuring_default (d_status data) _)); [|discriminate].
      inversion Hp; subst row. simpl in Hs. destruct Hs; discriminate.
  - rewrite lookup_insert_ne in Hl by exact Hne. eauto.
Qed.

Lemma patch_keeps_invariant tbl taskId u now :
  settled_only_with_result tbl ->
  disciplined tbl (Patch taskId u) = true ->
  settled_only_with_result (table_after tbl (updateJobByTaskId (Some tbl) taskId u now)).
Proof.
  intros Hinv Hd. unfold updateJobByTaskId.
  destruct (no_set_clause u); [exact Hinv|].
  destruct (bind_error u) eqn:Hbind; [exact Hinv|].
  destruct (tbl !! taskId) as [row|] eqn:Hrow; [|exact Hinv].
  destruct (apply_updates u row now) as [row'|m] eqn:Hap; [|exact Hinv].
  unfold table_after; simpl. intros t r Hl Hs.
  destruct (decide (taskId = t)) as [->|Hne].
  2:{ rewrite lookup_insert_ne in Hl by exact Hne. eauto. }
  rewrite lookup_insert_eq in Hl. inversion Hl; subst r; clear Hl.
  unfold disciplined in Hd. rewrite Hrow in Hd.
  apply andb_true_iff in Hd as [Hw Hrec].
  assert (row' = {|
      id := id row; wallet_address := wallet_address row; task_id := task_id row;
      deal_id := deal_id row; settlement_name := settlement_name row;
      status := nullish (u_status u) (status row);
      result := assign_result (u_result u) (result row);
      error := assign (u_error u) (error row);
      dataset_url_override := dataset_url_override row;
      submitted_at := submitted_at row;
      settled_tx_hash := assign (u_settledTxHash u) (settled_tx_hash row);
      settled_at := assign (bound_time (u_settledAt u)) (settled_at row);
      created_at := created_at row; updated_at := Some now |}) as ->.
  { unfold apply_updates in Hap. rewrite Hbind in Hap.
    destruct (u_status u); inversion Hap; reflexivity. }
  simpl in Hs.
  assert (has_result row = true) as Hres.
  { unfold records_settlement, assign in *.
    destruct (u_settledTxHash u); simpl in *.
    - apply (Hinv _ _ Hrow Hs).
    - destruct Hs; discriminate.
    - exact Hrec. }
  unfold has_result, withdraws_result, assign_result in *; simpl.
  destruct (u_result u) as [| |[]]; simpl in *; try discriminate; auto.
Qed.

Lemma serve_keeps_invariant tbl nr :
  settled_only_with_result tbl ->
  disciplined tbl (snd nr) = true ->
  settled_only_with_result (serve tbl nr).
Proof.
  destruct nr as [now [data uuid | taskId u]]; simpl; intros Hinv Hd.
  - apply createJob_keeps_invariant; exact Hinv.
  - apply patch_keeps_invariant; assumption.
Qed.




(** A call that gives no name stores the default name of [createJob] over
    the stored one, and a call whose name is [null] is refused by the
    NOT NULL constraint: the COALESCE on [settlement_name] never keeps the
    stored name. *)
Lemma createJob_name_not_kept :
  (exists written,
      fst (createJob (Some Samples.table_after_first)
             (Samples.call "0xtask" js_undefined js_undefined js_undefined
                           (js_val "completed") js_undefined js_undefined)
             200 "id-2") = Returned (Some written)
      /\ settlement_name Samples.stored_first = "Pool A"
      /\ settlement_name written = "Settlement")
  /\ createJob (Some Samples.table_after_first)
       (Samples.call "0xtask" js_undefined js_undefined js_null
                     (js_val "completed") js_undefined js_undefined)
       200 "id-2"
     = (Thrown (not_null_violation "settlement_name"), Some Samples.table_after_first).
Proof.
  split; [|reflexivity].
  eexists. split.
  - unfold createJob.
    cbn [proposed Samples.call d_task_id d_settlement_name d_status
         sql_param destructuring_default task_id].
    unfold Samples.table_after_first. rewrite lookup_insert_eq. reflexivity.
  - split; reflexivity.
Qed.

(** A patch whose result is [null] stores the JSON document [null], which
    a client reads back as no result, also on a settled job. *)
Example patch_null_result row now :
  apply_updates {| u_status := js_undefined; u_result := js_null; u_error := js_undefined;
                   u_settledTxHash := js_undefined; u_settledAt := js_undefined |} row now
  = Returned {| id := id row; wallet_address := wallet_address row; task_id := task_id row;
                deal_id := deal_id row; settlement_name := settlement_name row;
                status := status row; result := Some JNull; error := error row;
                dataset_url_override := dataset_url_override row;
                submitted_at := submitted_at row;
                settled_tx_hash := settled_tx_hash row; settled_at := settled_at row;
                created_at := created_at row; updated_at := Some now |}.
Proof. reflexivity. Qed.

End LedgerFacts.

(** * Properties of the amount conversions *)

Section UnitsFacts.
Import Decimal Units.

(** *** Decimal digits *)

Lemma append_cons c (s t : string) : (String c s ++ t)%string = String c (s ++ t)%string.
Proof. reflexivity. Qed.

Lemma append_nil (t : string) : ("" ++ t)%string = t.
Proof. reflexivity. Qed.

Lemma append_empty (s : string) : (s ++ "")%string = s.
Proof.
  induction s as [|c rest IH]; [reflexivity|]. rewrite append_cons, IH. reflexivity.
Qed.

Lemma digit_char_is_digit d : 0 <= d <= 9 -> is_digit (digit_char d) = true.
Proof.
  intros Hd. unfold is_digit, digit_char.
  rewrite nat_ascii_embedding by lia.
  apply andb_true_iff. split; apply Nat.leb_le; lia.
Qed.

Lemma digit_value_char d : 0 <= d <= 9 -> digit_value (digit_char d) = d.
Proof.
  intros Hd. unfold digit_value, digit_char.
  rewrite nat_ascii_embedding by lia. lia.
Qed.

Lemma digits_go_app fuel : forall n acc rest,
  (digits_go fuel n acc ++ rest)%string = digits_go fuel n (acc ++ rest)%string.
Proof.
  induction fuel as [|f IH]; intros n acc rest; cbn [digits_go]; [reflexivity|].
  destruct (n <? 10); [reflexivity|]. rewrite IH, append_cons. reflexivity.
Qed.

Lemma all_digits_go fuel : forall n acc,
  0 <= n -> all_digits acc = true -> all_digits (digits_go fuel n acc) = true.
Proof.
  induction fuel as [|f IH]; intros n acc Hn Hacc; cbn [digits_go]; [exact Hacc|].
  assert (all_digits (String (digit_char (n mod 10)) acc) = true) as Hacc'.
  { cbn [all_digits]. rewrite digit_char_is_digit, Hacc; [reflexivity|].
    pose proof (Z.mod_pos_bound n 10). lia. }
  destruct (n <? 10); [exact Hacc'|].
  apply IH; [apply Z.div_pos; lia | exact Hacc'].
Qed.

Lemma all_digits_of_nonneg n : 0 <= n -> all_digits (of_nonneg n) = true.
Proof. intros Hn. apply all_digits_go; [exact Hn | reflexivity]. Qed.

(** Reading back the digits written by [digits_go]. *)
Lemma read_digits_go fuel : forall n acc,
  0 <= n < 10 ^ Z.of_nat fuel ->
  read_digits 0 (digits_go fuel n acc) = read_digits n acc.
Proof.
  induction fuel as [|f IH]; intros n acc Hn.
  - change (10 ^ Z.of_nat 0) with 1 in Hn. replace n with 0 by lia. reflexivity.
  - cbn [digits_go].
    pose proof (Z.mod_pos_bound n 10 ltac:(lia)) as Hm.
    assert (read_digits (n / 10) (String (digit_char (n mod 10)) acc) = read_digits n acc) as Hstep.
    { cbn [read_digits]. rewrite digit_char_is_digit, digit_value_char by lia.
      f_equal. pose proof (Z.div_mod n 10 ltac:(lia)). lia. }
    destruct (Z.ltb_spec n 10) as [Hlt|Hge].
    + rewrite <- Hstep. rewrite Z.div_small by lia. reflexivity.
    + rewrite IH; [exact Hstep|].
      split; [apply Z.div_pos; lia|].
      apply Z.div_lt_upper_bound; [lia|].
      rewrite Nat2Z.inj_succ, Z.pow_succ_r in Hn by lia. lia.
Qed.

Lemma fuel_suffices n : 0 <= n -> n < 10 ^ Z.of_nat (S (Z.to_nat (Z.log2 n))).
Proof.
  intros Hn. rewrite Nat2Z.inj_succ, Z2Nat.id by apply Z.log2_nonneg.
  destruct (Z.eq_dec n 0) as [->|Hne]; [reflexivity|].
  pose proof (Z.log2_spec n ltac:(lia)) as [_ Hup].
  eapply Z.lt_le_trans; [exact Hup|].
  apply Z.pow_le_mono_l. lia.
Qed.

Lemma read_digits_of_nonneg n rest :
  0 <= n -> read_digits 0 (of_nonneg n ++ rest) = read_digits n rest.
Proof.
  intros Hn. unfold of_nonneg. rewrite digits_go_app.
  apply read_digits_go. split; [exact Hn | apply fuel_suffices; exact Hn].
Qed.

Lemma head_digits_go fuel : forall n acc,
  0 <= n -> (head_is_digit acc = true \/ fuel <> O) ->
  head_is_digit (digits_go fuel n acc) = true.
Proof.
  induction fuel as [|f IH]; intros n acc Hn Hor; cbn [digits_go].
  - destruct Hor as [H|H]; [exact H | contradiction].
  - assert (head_is_digit (String (digit_char (n mod 10)) acc) = true) as Hh.
    { cbn [head_is_digit]. apply digit_char_is_digit. pose proof (Z.mod_pos_bound n 10). lia. }
    destruct (n <? 10); [exact Hh|].
    apply IH; [apply Z.div_pos; lia | left; exact Hh].
Qed.

Lemma head_of_nonneg n : 0 <= n -> head_is_digit (of_nonneg n) = true.
Proof. intros Hn. apply head_digits_go; [exact Hn | right; discriminate]. Qed.

Lemma span_digits_app s t :
  all_digits s = true -> head_is_digit t = false -> span_digits (s ++ t) = (s, t).
Proof.
  intros Hs Ht. induction s as [|c s IH].
  - rewrite append_nil. destruct t as [|c t]; [reflexivity|].
    cbn [head_is_digit span_digits] in *. rewrite Ht. reflexivity.
  - cbn [all_digits] in Hs. apply andb_true_iff in Hs as [Hc Hs].
    rewrite append_cons. cbn [span_digits]. rewrite Hc, (IH Hs). reflexivity.
Qed.


(** *** [formatUsdc] and [parseUnits] on sample amounts *)

Example formatUsdc_samples :
  formatUsdc 0 = "0.00"
  /\ formatUsdc 999999 = "0.99"
  /\ formatUsdc 12340000 = "12.34"
  /\ formatUsdc 1234567890123 = "1,234,567.89".
Proof. repeat split; vm_compute; reflexivity. Qed.

Example parseUnits_samples :
  parseUnits "12.34" USDC_DECIMALS = Some 12340000
  /\ parseUnits "5." USDC_DECIMALS = Some 5000000
  /\ parseUnits ".5" USDC_DECIMALS = Some 500000
  /\ parseUnits "0.1234567" USDC_DECIMALS = None
  /\ parseUnits "1e-7" USDC_DECIMALS = None
  /\ parseUnits "." USDC_DECIMALS = None.
Proof. repeat split; vm_compute; reflexivity. Qed.

(** Above 2^53 the whole part is rounded to the nearest double. *)
Example Number_of_BigInt_rounds :
  Number_of_BigInt (2 ^ 53 + 1) = 2 ^ 53 /\ Number_of_BigInt (2 ^ 53 + 3) = 2 ^ 53 + 4.
Proof. split; vm_compute; reflexivity. Qed.

(** *** [formatUsdc] and [parseUnits] on amounts with two decimals *)

Lemma Number_of_BigInt_exact n : 0 <= n < 2 ^ 53 -> Number_of_BigInt n = n.
Proof.
  intros Hn. unfold Number_of_BigInt.
  destruct (Z.ltb_spec n 0); [lia|].
  unfold round53.
  destruct (Z.leb_spec (Z.log2 n + 1 - 53) 0) as [_|Hk]; [reflexivity|].
  exfalso. assert (Z.log2 n < 53); [|lia].
  destruct (Z.eq_dec n 0) as [->|]; [reflexivity|].
  apply Z.log2_lt_pow2; lia.
Qed.

(** The display of the fractional part, checked on every number of
    hundredths. *)
Lemma fraction_display_checked :
  forallb (fun k : nat =>
             String.eqb
               (slice0 2 (padStart0 USDC_DECIMALS (to_string (Z.of_nat k * 10000))))
               (two_digits (Z.of_nat k)))
          (seq 0 100) = true.
Proof. vm_compute. reflexivity. Qed.

Lemma fraction_display c :
  0 <= c < 100 ->
  slice0 2 (padStart0 USDC_DECIMALS (to_string (c * 10000))) = two_digits c.
Proof.
  intros Hc. pose proof fraction_display_checked as H.
  rewrite forallb_forall in H.
  specialize (H (Z.to_nat c)). rewrite Z2Nat.id in H by lia.
  apply String.eqb_eq, H, in_seq. lia.
Qed.

(** Whole parts below one thousand are displayed without separator. *)
Lemma small_whole_checked :
  forallb (fun k : nat =>
             String.eqb (group3 (of_nonneg (Z.of_nat k))) (of_nonneg (Z.of_nat k)))
          (seq 0 1000) = true.
Proof. vm_compute. reflexivity. Qed.

Lemma small_whole w : 0 <= w < 1000 -> group3 (of_nonneg w) = of_nonneg w.
Proof.
  intros Hw. pose proof small_whole_checked as H.
  rewrite forallb_forall in H.
  specialize (H (Z.to_nat w)). rewrite Z2Nat.id in H by lia.
  apply String.eqb_eq, H, in_seq. lia.
Qed.

Lemma remove_commas_app s t :
  remove_commas (s ++ t) = (remove_commas s ++ remove_commas t)%string.
Proof.
  induction s as [|c s IH]; [reflexivity|].
  rewrite append_cons. cbn [remove_commas].
  destruct (Ascii.eqb c ","); rewrite IH; reflexivity.
Qed.

Lemma digit_not_comma c : is_digit c = true -> Ascii.eqb c "," = false.
Proof.
  intros Hc. destruct (Ascii.eqb_spec c ","); [subst; discriminate | reflexivity].
Qed.

Lemma remove_commas_group3 s : all_digits s = true -> remove_commas (group3 s) = s.
Proof.
  induction s as [|c s IH]; cbn [all_digits group3]; intros Hs; [reflexivity|].
  apply andb_true_iff in Hs as [Hc Hs].
  destruct ((0 <? String.length s)%nat && (String.length s mod 3 =? 0)%nat)%bool;
    cbn [remove_commas]; rewrite (digit_not_comma c Hc), (IH Hs); reflexivity.
Qed.

Lemma remove_commas_two_digits c :
  0 <= c < 100 -> remove_commas ("." ++ two_digits c) = ("." ++ two_digits c)%string.
Proof.
  intros Hc. unfold two_digits. rewrite append_cons, append_nil. cbn [remove_commas].
  change (Ascii.eqb "." ",") with false. cbn iota.
  rewrite !digit_not_comma; [reflexivity| |];
    apply digit_char_is_digit.
  - pose proof (Z.mod_pos_bound c 10). lia.
  - split; [apply Z.div_pos; lia | apply Z.lt_succ_r, Z.div_lt_upper_bound; lia].
Qed.

Lemma formatUsdc_two_decimals w c :
  0 <= w < 2 ^ 53 -> 0 <= c < 100 ->
  formatUsdc (w * 1000000 + c * 10000)
  = (toLocaleString w ++ "." ++ two_digits c)%string.
Proof.
  intros Hw Hc. unfold formatUsdc.
  change (10 ^ Z.of_nat USDC_DECIMALS) with 1000000.
  assert (0 <= w * 1000000 + c * 10000) as Hraw by lia.
  rewrite Z.quot_div_nonneg, Z.rem_mod_nonneg by lia.
  replace ((w * 1000000 + c * 10000) / 1000000) with w
    by (apply Z.div_unique with (r := c * 10000); lia).
  replace ((w * 1000000 + c * 10000) mod 1000000) with (c * 10000)
    by (apply Z.mod_unique with (q := w); lia).
  rewrite (Number_of_BigInt_exact w Hw).
  rewrite (Number_of_BigInt_exact (c * 10000)) by lia.
  rewrite fraction_display by exact Hc. reflexivity.
Qed.

Lemma split_sign_digit s : head_is_digit s = true -> split_sign s = (false, s).
Proof.
  destruct s as [|c s]; [discriminate|]. cbn [head_is_digit split_sign]. intros Hc.
  destruct (Ascii.eqb_spec c "-") as [->|_]; [discriminate | reflexivity].
Qed.

Lemma split_fraction_point s d :
  all_digits s = true -> all_digits d = true ->
  split_fraction (s ++ String "." d) = Some (s, d).
Proof.
  intros Hs Hd. unfold split_fraction.
  rewrite span_digits_app by (exact Hs || reflexivity).
  change (Ascii.eqb "." ".") with true. rewrite Hd. reflexivity.
Qed.

Lemma head_is_digit_app s t :
  head_is_digit s = true -> head_is_digit (s ++ t) = true.
Proof. destruct s; [discriminate | intros H; exact H]. Qed.

Lemma parseUnits_two_decimals w c :
  0 <= w < 2 ^ 53 -> 0 <= c < 100 ->
  parseUnits (amount_text w c) USDC_DECIMALS = Some (w * 1000000 + c * 10000).
Proof.
  intros Hw Hc.
  assert (0 <= c / 10 <= 9) as Hhi
    by (split; [apply Z.div_pos; lia | apply Z.lt_succ_r, Z.div_lt_upper_bound; lia]).
  assert (0 <= c mod 10 <= 9) as Hlo by (pose proof (Z.mod_pos_bound c 10); lia).
  pose proof (head_of_nonneg w ltac:(lia)) as Hhead.
  pose proof (all_digits_of_nonneg w ltac:(lia)) as Hall.
  assert (all_digits (two_digits c) = true) as Hall2.
  { unfold two_digits. cbn [all_digits]. rewrite !digit_char_is_digit by assumption. reflexivity. }
  unfold parseUnits, amount_text.
  rewrite append_cons, append_nil.
  rewrite split_sign_digit by (apply head_is_digit_app; exact Hhead).
  rewrite split_fraction_point by assumption.
  destruct (of_nonneg w) as [|ch rest] eqn:Hw0; [discriminate|].
  assert (String.eqb (String ch rest) "" = false) as -> by reflexivity.
  assert ((String.length (String ch rest) + String.length (two_digits c) =? 0)%nat = false)
    as -> by reflexivity.
  assert (pad_zeros USDC_DECIMALS USDC_DECIMALS (two_digits c)
          = String (digit_char (c / 10)) (String (digit_char (c mod 10)) "0000")) as ->
    by reflexivity.
  assert (forall a b, drop USDC_DECIMALS (String a (String b "0000")) = "") as ->
    by reflexivity.
  assert (forall a b, slice0 USDC_DECIMALS (String a (String b "0000"))
                      = String a (String b "0000")) as -> by reflexivity.
  cbn [all_zeros negb].
  rewrite <- Hw0, read_digits_of_nonneg by lia.
  cbn [read_digits]. rewrite !digit_char_is_digit by assumption.
  change (is_digit "0") with true. cbn iota.
  rewrite !digit_value_char by assumption.
  change (digit_value "0") with 0.
  replace ((((((w * 10 + c / 10) * 10 + c mod 10) * 10 + 0) * 10 + 0) * 10 + 0) * 10 + 0)
    with (w * 1000000 + c * 10000)
    by (pose proof (Z.div_mod c 10 ltac:(lia)); lia).
  assert ((- 2 ^ 511 <=? w * 1000000 + c * 10000) = true) as ->.
  { apply Z.leb_le. assert (0 < 2 ^ 511) by reflexivity. lia. }
  assert ((w * 1000000 + c * 10000 <? 2 ^ 511) = true) as ->.
  { apply Z.ltb_lt. assert (2 ^ 53 * 1000000 + 1000000 < 2 ^ 511) by reflexivity. lia. }
  reflexivity.
Qed.

(** C5, as stated, fails: an amount with six exact decimals does not come
    back from [formatUsdc], which keeps two. *)
Lemma format_parse_truncates :
  parseUnits "0.123456" USDC_DECIMALS = Some 123456
  /\ formatUsdc 123456 = "0.12"
  /\ "0.12" <> "0.123456".
Proof.
  split; [vm_compute; reflexivity|].
  split; [vm_compute; reflexivity | discriminate].
Qed.

(** What [parseUnits] makes of the three forms in which JavaScript prints
    an amount of whole tokens and hundredths. *)
Lemma parseUnits_number_text w c :
  0 <= w < 2 ^ 53 -> 0 <= c < 100 ->
  parseUnits (number_text w c) USDC_DECIMALS = Some (w * 1000000 + c * 10000).
Proof.
  intros Hw Hc. unfold number_text.
  assert (0 <= c / 10 <= 9) as Hhi
    by (split; [apply Z.div_pos; lia | apply Z.lt_succ_r, Z.div_lt_upper_bound; lia]).
  pose proof (head_of_nonneg w ltac:(lia)) as Hhead.
  pose proof (all_digits_of_nonneg w ltac:(lia)) as Hall.
  assert ((- 2 ^ 511 <=? w * 1000000 + c * 10000) = true) as Hlo.
  { apply Z.leb_le. assert (0 < 2 ^ 511) by reflexivity. lia. }
  assert ((w * 1000000 + c * 10000 <? 2 ^ 511) = true) as Hup.
  { apply Z.ltb_lt. assert (2 ^ 53 * 1000000 + 1000000 < 2 ^ 511) by reflexivity. lia. }
  destruct (Z.eqb_spec c 0) as [->|Hc0].
  - unfold parseUnits.
    rewrite split_sign_digit by exact Hhead.
    assert (split_fraction (of_nonneg w) = Some (of_nonneg w, "")) as ->.
    { unfold split_fraction. rewrite <- (append_empty (of_nonneg w)) at 1.
      rewrite span_digits_app by (exact Hall || reflexivity). reflexivity. }
    destruct (of_nonneg w) as [|ch rest] eqn:Hw0; [discriminate|].
    assert (String.eqb (String ch rest) "" = false) as -> by reflexivity.
    assert ((String.length (String ch rest) + String.length "" =? 0)%nat = false)
      as -> by reflexivity.
    change (pad_zeros USDC_DECIMALS USDC_DECIMALS "") with "00000000".
    change (drop USDC_DECIMALS "00000000") with "00".
    change (slice0 USDC_DECIMALS "00000000") with "000000".
    cbn [all_zeros negb].
    rewrite <- Hw0, read_digits_of_nonneg by lia.
    cbn [read_digits]. change (is_digit "0") with true. cbn iota.
    change (digit_value "0") with 0.
    replace ((((((w * 10 + 0) * 10 + 0) * 10 + 0) * 10 + 0) * 10 + 0) * 10 + 0)
      with (w * 1000000 + 0 * 10000) by lia.
    rewrite Hlo, Hup. reflexivity.
  - destruct (Z.eqb_spec (c mod 10) 0) as [Hten|_];
      [|apply parseUnits_two_decimals; assumption].
    unfold parseUnits.
    rewrite append_cons, append_nil.
    rewrite split_sign_digit by (apply head_is_digit_app; exact Hhead).
    rewrite split_fraction_point;
      [|exact Hall | cbn [all_digits]; rewrite digit_char_is_digit by exact Hhi; reflexivity].
    destruct (of_nonneg w) as [|ch rest] eqn:Hw0; [discriminate|].
    assert (String.eqb (String ch rest) "" = false) as -> by reflexivity.
    assert (forall a, (String.length (String ch rest) + String.length (String a "") =? 0)%nat
                      = false) as -> by reflexivity.
    assert (forall a, pad_zeros USDC_DECIMALS USDC_DECIMALS (String a "")
                      = String a "00000000") as -> by reflexivity.
    assert (forall a, drop USDC_DECIMALS (String a "00000000") = "000") as ->
      by reflexivity.
    assert (forall a, slice0 USDC_DECIMALS (String a "00000000") = String a "00000") as ->
      by reflexivity.
    cbn [all_zeros negb].
    rewrite <- Hw0, read_digits_of_nonneg by lia.
    cbn [read_digits]. rewrite !digit_char_is_digit by assumption.
    change (is_digit "0") with true. cbn iota.
    rewrite !digit_value_char by assumption.
    change (digit_value "0") with 0.
    replace ((((((w * 10 + c / 10) * 10 + 0) * 10 + 0) * 10 + 0) * 10 + 0) * 10 + 0)
      with (w * 1000000 + c * 10000)
      by (pose proof (Z.div_mod c 10 ltac:(lia)); lia).
    rewrite Hlo, Hup. reflexivity.
Qed.

(** C5, amended.  For every amount [a] written with exactly two fractional
    digits and a whole part below 10^13, so that [Number(a)] holds it,
    [parse] succeeds on the text that JavaScript prints for that number, and
    [format (parse a)] is [a] with the thousands separators of the locale in
    its whole part: it is [a] once the separators are removed, and it is [a]
    itself when the whole part is below one thousand. *)
Theorem format_parse_two_decimals w c :
  0 <= w < 10 ^ 13 -> 0 <= c < 100 ->
  exists raw,
    parseUnits (number_text w c) USDC_DECIMALS = Some raw
    /\ remove_commas (formatUsdc raw) = amount_text w c
    /\ (w < 1000 -> formatUsdc raw = amount_text w c).
Proof.
  intros Hw Hc. exists (w * 1000000 + c * 10000).
  assert (0 <= w < 2 ^ 53) as Hw' by (assert (10 ^ 13 < 2 ^ 53) by reflexivity; lia).
  split; [apply parseUnits_number_text; assumption|].
  rewrite formatUsdc_two_decimals by assumption.
  unfold amount_text, toLocaleString.
  destruct (Z.ltb_spec w 0) as [Hneg|_]; [lia|].
  split.
  - rewrite remove_commas_app, remove_commas_group3, remove_commas_two_digits;
      [reflexivity | exact Hc | apply all_digits_of_nonneg; lia].
  - intros Hsmall. rewrite small_whole by lia. reflexivity.
Qed.

(** Witness of [format_parse_two_decimals]: the amount 12.30, which
    JavaScript prints as 12.3. *)
Lemma format_parse_two_decimals_witness :
  exists raw,
    parseUnits "12.3" USDC_DECIMALS = Some raw
    /\ remove_commas (formatUsdc raw) = "12.30"
    /\ (12 < 1000 -> formatUsdc raw = "12.30").
Proof.
  apply (format_parse_two_decimals 12 30); split; (lia || reflexivity).
Defined.

End UnitsFacts.

(** * Properties of the settlement execution *)

Section ExecuteFacts.
Import Execute.
Implicit Types (lib : ethers) (cfg : execute_config) (body : execute_body)
  (err : error_obj) (sub : submission).

(** The [catch] block always answers 500. *)
Lemma reply_failure_500 err : reply_failure err = ReplyError 500 (snd (execute_failure err)).
Proof. reflexivity. Qed.

Lemma checksum_all_ok lib rs l :
  checksum_all lib rs = inr l ->
  l = map (normalized lib) rs /\ existsb malformed_recipient rs = false.
Proof.
  revert l. induction rs as [|addr rest IH]; intros l H; cbn [checksum_all] in H.
  - inversion H. split; reflexivity.
  - cbn [existsb map]. unfold malformed_recipient at 1.
    destruct (is_address (trim addr)); cbn [negb] in *; [|discriminate].
    destruct (checksum_all lib rest) as [e|l']; [discriminate|].
    inversion H; subst l. destruct (IH l' eq_refl) as [-> Hex].
    split; [reflexivity | exact Hex].
Qed.

Lemma to_wei_all_ok lib ams l :
  to_wei_all lib ams = inr l ->
  existsb (fun a => invalid_amount (value a)) ams = false.
Proof.
  revert l. induction ams as [|a rest IH]; intros l H; cbn [to_wei_all] in H.
  - reflexivity.
  - cbn [existsb].
    destruct (invalid_amount (value a)); [discriminate|].
    destruct (value a); try discriminate.
    destruct (Units.parseUnits text Units.USDC_DECIMALS); [|discriminate].
    destruct (to_wei_all lib rest) as [e|l']; [discriminate|].
    exact (IH l' eq_refl).
Qed.

Lemma prepare_ok lib cfg rs ams att sub :
  prepare lib cfg rs ams att = inr sub ->
  sent_recipients sub = map (normalized lib) rs
  /\ existsb malformed_recipient rs = false
  /\ existsb (fun a => invalid_amount (value a)) ams = false
  /\ getBytes att = Some (sent_attestation sub).
Proof.
  unfold prepare. intros H.
  destruct (checksum_all lib rs) as [e|l] eqn:Hc; [discriminate|].
  destruct (new_Wallet lib (privateKey cfg)); [discriminate|].
  destruct (to_wei_all lib ams) as [e|w] eqn:Hw; [discriminate|].
  destruct (getBytes att) as [b|]; [|discriminate].
  inversion H; subst sub; cbn.
  destruct (checksum_all_ok lib rs l Hc) as [-> Hex].
  repeat split; [exact Hex | exact (to_wei_all_ok lib ams w Hw)].
Qed.

(** What the route does once the body has passed the three checks. *)
Lemma postExecute_checked lib cfg body rs ams att :
  recipients body = Some rs -> amounts body = Some ams -> attestation body = Some att ->
  structurally_invalid body = false ->
  postExecute lib (Some cfg) body
  = match prepare lib cfg rs ams att with
    | inl err => (reply_failure err, None)
    | inr sub =>
      match settleBatch lib cfg sub with
      | inl err => (reply_failure err, Some sub)
      | inr txHash => (ReplyOk txHash (ARB_SEPOLIA_EXPLORER ++ "/tx/" ++ txHash), Some sub)
      end
    end.
Proof.
  intros Hr Ha Hat. unfold structurally_invalid, postExecute. rewrite Hr, Ha, Hat.
  intros H. apply orb_false_iff in H as [H H3]. apply orb_false_iff in H as [H1 H2].
  rewrite H1, H2, H3. reflexivity.
Qed.

Lemma postExecute_rejected lib cfg body :
  structurally_invalid body = true ->
  exists msg, postExecute lib (Some cfg) body = (ReplyError 400 msg, None).
Proof.
  unfold structurally_invalid, postExecute.
  destruct (recipients body) as [rs|]; [|eauto].
  destruct (amounts body) as [ams|]; [|eauto].
  destruct (negb (length rs =? length ams)%nat); [eauto|].
  destruct (attestation body) as [att|]; [|eauto].
  destruct (String.eqb att "" || negb (startsWith "0x" att)); [eauto|].
  destruct (length rs =? 0)%nat; [eauto | discriminate].
Qed.




(** *** Contract rejections *)

Lemma slice0_prefix (p rest : string) : slice0 (String.length p) (p ++ rest) = p.
Proof.
  unfold slice0. induction p as [|c p IH].
  - destruct rest; reflexivity.
  - change (String c p ++ rest)%string with (String c (p ++ rest)%string).
    cbn [String.length substring]. rewrite IH. reflexivity.
Qed.

(** The decoding of a revert, by the data that the error carries. *)
Lemma decodeSettlementRevert_carried err d :
  carries err d ->
  decodeSettlementRevert err
  = if negb (startsWith "0x" d) then None
    else
      let selector := toLowerCase (slice0 10 d) in
      if String.eqb selector "0xf4d678b8" then Some INSUFFICIENT_TREASURY
      else if String.eqb selector "0x17ee279c" then Some ALREADY_SETTLED
      else if String.eqb selector "0x7fb6be02" then Some UNAUTHORIZED_EXECUTOR
      else None.
Proof.
  unfold carries, decodeSettlementRevert, revert_data.
  intros [-> | [[-> | ->] ->]]; reflexivity.
Qed.

(** An error that carries no text as revert data is not decoded. *)
Lemma decodeSettlementRevert_no_data err :
  (forall d, ~ carries err d) -> decodeSettlementRevert err = None.
Proof.
  unfold carries, decodeSettlementRevert, revert_data. intros Hno.
  destruct (data err) as [| |d|] eqn:Hd; try reflexivity.
  - destruct (info_error_data err) as [| |d|] eqn:Hi; try reflexivity.
    destruct (Hno d). right. split; [left; reflexivity | reflexivity].
  - destruct (info_error_data err) as [| |d|] eqn:Hi; try reflexivity.
    destruct (Hno d). right. split; [right; reflexivity | reflexivity].
  - destruct (Hno d). left. reflexivity.
Qed.

(** The fallback of the [catch] block gives the underlying message. *)
Lemma underlying_fallback err :
  underlying err
    (nullish (orElse (reason err) (orElse (shortMessage err) (message err)))
             "Settlement execute failed").
Proof.
  unfold underlying. split; [|split; [|split]].
  - intros m Hm. rewrite Hm. reflexivity.
  - intros m Hno Hm. destruct (reason err) as [| |r]; [| |destruct (Hno r eq_refl)];
      rewrite Hm; reflexivity.
  - intros m Hno1 Hno2 Hm.
    destruct (reason err) as [| |r]; [| |destruct (Hno1 r eq_refl)];
      (destruct (shortMessage err) as [| |r]; [| |destruct (Hno2 r eq_refl)]);
      rewrite Hm; reflexivity.
  - intros Hno1 Hno2 Hno3.
    destruct (reason err) as [| |r]; [| |destruct (Hno1 r eq_refl)];
      (destruct (shortMessage err) as [| |r]; [| |destruct (Hno2 r eq_refl)]);
      (destruct (message err) as [| |r]; [| |destruct (Hno3 r eq_refl)]);
      reflexivity.
Qed.



End ExecuteFacts.

(** * Properties of the treasury-balance read *)

Section TreasuryFacts.
Import Units Treasury.
Implicit Types (env : environment) (db : database) (tbl : treasury_table).

(** With its configuration, the route reduces to the cache policy; the
    accesses start with the read of the token address when it is not set. *)
Lemma route_configured env db refresh now settlementAddress :
  configured env settlementAddress ->
  let trace :=
    match env_var (TEST_USDC_ADDRESS env) with Some _ => [] | None => [TokenRead] end in
  getTreasuryBalanceRoute env db refresh now
  = if isDbConfigured db && negb (forceRefresh refresh) then
      match initDb db with
      | Thrown m => (balance_failure m, pool db, trace)
      | Returned _ =>
        match getTreasuryBalance db settlementAddress with
        | Thrown m => (balance_failure m, pool db, (trace ++ [StoreRead])%list)
        | Returned (Some stored) =>
          (Balance (balance_formatted stored) (balance_raw stored)
                   settlementAddress "database",
           pool db, (trace ++ [StoreRead])%list)
        | Returned None =>
          read_chain env db settlementAddress now (trace ++ [StoreRead])%list
        end
      end
    else read_chain env db settlementAddress now trace.
Proof.
  intros ([rpc Hrpc] & Haddr & Htok). unfold getTreasuryBalanceRoute.
  rewrite Hrpc, Haddr.
  destruct (env_var (TEST_USDC_ADDRESS env)) as [t|].
  - reflexivity.
  - destruct (Htok eq_refl) as [t Ht]. rewrite Ht. reflexivity.
Qed.

Lemma read_chain_trace env db a now trace :
  In BalanceRead (snd (read_chain env db a now trace)).
Proof.
  unfold read_chain.
  destruct (balanceOf env) as [raw|m]; cbn [snd].
  2:{ apply in_or_app. right. left. reflexivity. }
  destruct (isDbConfigured db); cbn [snd].
  2:{ apply in_or_app. right. left. reflexivity. }
  destruct (initDb db); cbn [snd].
  2:{ apply in_or_app. right. left. reflexivity. }
  destruct (setTreasuryBalance db a _ _ now) as [[u|m] tbl]; cbn [snd];
    apply in_or_app; right; left; reflexivity.
Qed.

(** C6, as stated, fails: when the write of the freshly read balance is
    rejected by the store, the route answers 500 with the error of the
    store instead of the balance. *)
Lemma persist_failure_fails_read :
  getTreasuryBalanceRoute Samples.funded Samples.store_rejecting_writes None 500
  = (BalanceError 500 "connection terminated", Some ∅, [StoreRead; BalanceRead; StoreWrite]).
Proof. reflexivity. Qed.

(** The chain read followed by a write that the store accepts or rejects. *)
Lemma read_chain_store env tbl ie se ue a now trace raw :
  balanceOf env = Returned raw ->
  read_chain env (mkDb (Some tbl) ie se ue) a now trace
  = match ie, ue with
    | Some m, _ => (balance_failure m, Some tbl, (trace ++ [BalanceRead])%list)
    | None, Some m =>
      (balance_failure m, Some tbl, (trace ++ [BalanceRead; StoreWrite])%list)
    | None, None =>
      (Balance (formatUsdc raw) (Decimal.to_string raw) a "chain",
       Some (<[toLowerCase a := fresh_row raw now]> tbl),
       (trace ++ [BalanceRead; StoreWrite])%list)
    end.
Proof.
  intros Hb. unfold read_chain, initDb, setTreasuryBalance, isDbConfigured. rewrite Hb.
  cbn [pool initDb_error upsert_error].
  destruct ie; [reflexivity|]. destruct ue; reflexivity.
Qed.

(** C6, amended.  For every treasury-balance read that falls through to a
    chain read while a backing store is configured, a failure while
    persisting the freshly read balance fails the read: the route answers
    500 with the error of the store and leaves the table as it was.  When the
    write succeeds, the route stores the row and returns the chain value with
    source [chain] (in the format of [formatUsdc], for a balance whose whole
    part is below 2^53). *)
Theorem persist_failure_is_reported env tbl ue refresh now a raw :
  configured env a ->
  forceRefresh refresh = true \/ tbl !! toLowerCase a = None ->
  balanceOf env = Returned raw ->
  let route := getTreasuryBalanceRoute env (mkDb (Some tbl) None None ue) refresh now in
  match ue with
  | Some m => fst route = (balance_failure m, Some tbl)
  | None =>
    0 <= raw < 2 ^ 53 * 1000000 ->
    fst route
    = (Balance (formatUsdc raw) (Decimal.to_string raw) a "chain",
       Some (<[toLowerCase a := fresh_row raw now]> tbl))
  end.
Proof.
  intros Hcfg Hfall Hb route. subst route.
  rewrite (route_configured env (mkDb (Some tbl) None None ue) refresh now a Hcfg).
  unfold isDbConfigured, initDb, getTreasuryBalance.
  cbn [pool initDb_error select_error andb].
  assert (forall tr, fst (read_chain env (mkDb (Some tbl) None None ue) a now tr)
                     = match ue with
                       | Some m => (balance_failure m, Some tbl)
                       | None => (Balance (formatUsdc raw) (Decimal.to_string raw) a "chain",
                                  Some (<[toLowerCase a := fresh_row raw now]> tbl))
                       end) as Hchain.
  { intros tr. rewrite (read_chain_store env tbl None None ue a now tr raw Hb).
    destruct ue; reflexivity. }
  destruct (forceRefresh refresh) eqn:Hf; cbn [negb].
  - rewrite Hchain. destruct ue; [reflexivity | intros _; reflexivity].
  - destruct Hfall as [Hfall|Hnone]; [discriminate|].
    rewrite Hnone, Hchain. destruct ue; [reflexivity | intros _; reflexivity].
Qed.

(** Witness of [persist_failure_is_reported]: the funded treasury read
    through an empty store that rejects the write. *)
Lemma persist_failure_is_reported_witness :
  fst (getTreasuryBalanceRoute Samples.funded Samples.store_rejecting_writes None 500)
  = (BalanceError 500 "connection terminated", Some ∅).
Proof.
  apply (persist_failure_is_reported Samples.funded ∅ (Some "connection terminated")
           None 500 "0xC0FFEE" 1234567890).
  - split; [exists "https://rpc.example"; reflexivity|].
    split; [reflexivity | discriminate].
  - right. apply lookup_empty.
  - reflexivity.
Defined.

(** Once the route has its configuration, the token address included, it
    follows the cache policy.  With a backing store configured and no refresh
    requested, the read returns the stored row when there is one, labelled
    [database], without reading the balance from the chain (and without any
    access to the chain when the token address is set); the label [database]
    is only ever returned for a row that the store holds; with a refresh
    requested the route reads the balance from the chain whether or not a row
    is cached and, when the read and the write succeed, overwrites the row
    with the new value. *)
Lemma treasury_cache_policy env tbl refresh now a :
  configured env a ->
  (forceRefresh refresh = false ->
   forall row, tbl !! toLowerCase a = Some row ->
     exists trace,
       getTreasuryBalanceRoute env (mkDb (Some tbl) None None None) refresh now
       = (Balance (balance_formatted row) (balance_raw row) a "database", Some tbl, trace)
       /\ ~ In BalanceRead trace
       /\ (forall t, env_var (TEST_USDC_ADDRESS env) = Some t -> trace = [StoreRead]))
  /\ (forall db f r a' after trace,
        getTreasuryBalanceRoute env db refresh now = (Balance f r a' "database", after, trace) ->
        exists stored row,
          pool db = Some stored /\ stored !! toLowerCase a' = Some row
          /\ f = balance_formatted row /\ r = balance_raw row)
  /\ (forceRefresh refresh = true ->
      (forall db, In BalanceRead (snd (getTreasuryBalanceRoute env db refresh now)))
      /\ (forall raw, balanceOf env = Returned raw -> 0 <= raw < 2 ^ 53 * 1000000 ->
            fst (getTreasuryBalanceRoute env (mkDb (Some tbl) None None None) refresh now)
            = (Balance (formatUsdc raw) (Decimal.to_string raw) a "chain",
               Some (<[toLowerCase a := fresh_row raw now]> tbl)))).
Proof.
  intros Hcfg. split; [|split].
  - intros Hf row Hrow.
    rewrite (route_configured env (mkDb (Some tbl) None None None) refresh now a Hcfg).
    unfold isDbConfigured, initDb, getTreasuryBalance.
    cbn [pool initDb_error select_error andb]. rewrite Hf, Hrow. cbn [negb].
    eexists. split; [reflexivity|]. split.
    + intros Hin. apply in_app_or in Hin as [Hin|Hin].
      * destruct (env_var (TEST_USDC_ADDRESS env)); cbn in Hin; intuition discriminate.
      * cbn in Hin; intuition discriminate.
    + intros t Ht. rewrite Ht. reflexivity.
  - intros db f r a' after trace Hrun.
    rewrite (route_configured env db refresh now a Hcfg) in Hrun.
    assert (forall tr x, read_chain env db a now tr <> (Balance f r a' "database", after, x))
      as Hchain.
    { intros tr x. unfold read_chain.
      destruct (balanceOf env); [|discriminate].
      destruct (isDbConfigured db); [|discriminate].
      destruct (initDb db); [|discriminate].
      destruct (setTreasuryBalance db a _ _ now) as [[u|m] t]; discriminate. }
    destruct (isDbConfigured db && negb (forceRefresh refresh));
      [|exfalso; exact (Hchain _ _ Hrun)].
    destruct (initDb db); [|discriminate].
    unfold getTreasuryBalance in Hrun.
    destruct (pool db) as [stored|] eqn:Hpool.
    2:{ exfalso. exact (Hchain _ _ Hrun). }
    destruct (select_error db); [discriminate|].
    destruct (stored !! toLowerCase a) as [row|] eqn:Hrow.
    2:{ exfalso. exact (Hchain _ _ Hrun). }
    inversion Hrun; subst. eauto 8.
  - intros Hf. split.
    + intros db. rewrite (route_configured env db refresh now a Hcfg), Hf.
      rewrite andb_false_r. apply read_chain_trace.
    + intros raw Hb _.
      rewrite (route_configured env (mkDb (Some tbl) None None None) refresh now a Hcfg), Hf.
      rewrite andb_false_r, (read_chain_store env tbl None None None a now _ raw Hb).
      reflexivity.
Qed.

(** C8, the defect.  With a backing store configured that holds a row for
    the settlement address, and no refresh requested, the route does not
    serve the stored row without reading the chain when the token address is
    not set: it reads [contract.token()] from the chain before it consults
    the store.  On a chain that answers it serves the row after that read; on
    a chain that does not answer it replies 503 and the row is not served.
    The comment of the route promises the row from the store when there is
    one, and [getTreasuryBalanceFormatted], which consults the store first,
    serves it in the same situation without any access to the chain. *)
Lemma token_read_precedes_store :
  getTreasuryBalanceRoute Samples.chain_down Samples.warm_store None 500
  = (BalanceError 503 "Could not resolve token address.", pool Samples.warm_store,
     [TokenRead])
  /\ getTreasuryBalanceRoute Samples.token_on_chain Samples.warm_store None 500
     = (Balance "5.00" "5000000" "0xC0FFEE" "database", pool Samples.warm_store,
        [TokenRead; StoreRead])
  /\ Dashboard.getTreasuryBalanceFormatted Samples.chain_down Samples.warm_store
     = (Returned (Some "5.00"), [StoreRead]).
Proof. split; [reflexivity|]. split; reflexivity. Qed.

(** Two reads without refresh and without a change on the chain return
    the same formatted balance: the first from the chain, the second from
    the row the first one stored. *)
Lemma second_read_from_store :
  exists tbl,
    getTreasuryBalanceRoute Samples.funded Samples.empty_store None 500
    = (Balance "1,234.56" "1234567890" "0xC0FFEE" "chain", Some tbl,
       [StoreRead; BalanceRead; StoreWrite])
    /\ getTreasuryBalanceRoute Samples.funded (mkDb (Some tbl) None None None) None 900
       = (Balance "1,234.56" "1234567890" "0xC0FFEE" "database", Some tbl, [StoreRead]).
Proof.
  eexists. split; [reflexivity|].
  unfold getTreasuryBalanceRoute, getTreasuryBalance, initDb, isDbConfigured.
  cbn [pool initDb_error select_error Samples.funded ARBITRUM_SEPOLIA_RPC_URL
       SETTLEMENT_CONTRACT_ADDRESS TEST_USDC_ADDRESS env_var].
  cbn [String.eqb Ascii.eqb Bool.eqb forceRefresh andb negb].
  change (toLowerCase "0xC0FFEE") with "0xc0ffee".
  rewrite lookup_insert_eq. reflexivity.
Qed.

End TreasuryFacts.

(** * Properties of the bounded task observation *)

Section ObserverFacts.
Import Observer.
Variable T : Z.
Implicit Types (s : state) (te : Z * event) (schedule : list (Z * event)).

Lemma count_record f cs s :
  count f (record cs s) = (count f s + length (List.filter f cs))%nat.
Proof. unfold count, record; cbn [calls]. rewrite List.filter_app, length_app. reflexivity. Qed.

Lemma count_settle f p t s : count f (settle p t s) = count f s.
Proof. unfold settle. destruct (promise s); reflexivity. Qed.

Lemma count_clearTimeout f s :
  count f (clearTimeout s) = (count f s + if f CallClearTimeout then 1 else 0)%nat.
Proof.
  unfold count, clearTimeout; cbn [calls]. rewrite List.filter_app, length_app.
  cbn [List.filter]. destruct (f CallClearTimeout); reflexivity.
Qed.

Lemma timer_settle p t s : timer (settle p t s) = timer s.
Proof. unfold settle. destruct (promise s); reflexivity. Qed.

Lemma subscription_settle p t s : subscription (settle p t s) = subscription s.
Proof. unfold settle. destruct (promise s); reflexivity. Qed.

Lemma delivered_settle p t s : delivered (settle p t s) = delivered s.
Proof. unfold settle. destruct (promise s); reflexivity. Qed.

(** A settled promise keeps its outcome. *)
Lemma settled_step s te : promise s <> Pending -> promise (step T s te) = promise s.
Proof.
  intros Hs. destruct te as [t ev].
  assert (forall p s', promise s' = promise s -> promise (settle p t s') = promise s) as Hset.
  { intros p s' Heq. unfold settle. rewrite Heq.
    destruct (promise s) eqn:Hp; [congruence | exact Heq | exact Heq]. }
  destruct ev; cbn [step];
    repeat match goal with
           | |- context [match ?x with _ => _ end] => destruct x
           end;
    try reflexivity; apply Hset; reflexivity.
Qed.

Lemma settled_run schedule : forall s,
  promise s <> Pending -> promise (fold_left (step T) schedule s) = promise s.
Proof.
  induction schedule as [|te rest IH]; intros s Hs; cbn [fold_left]; [reflexivity|].
  rewrite IH; rewrite settled_step by exact Hs; [reflexivity | exact Hs].
Qed.

Lemma sound_step s te : sound s -> sound (step T s te).
Proof.
  intros [Hu Ht]. destruct te as [t ev]. unfold sound.
  destruct ev; cbn [step].
  - destruct (timer s) eqn:Htm; [|split; [exact Hu | rewrite Htm; exact Ht] ..].
    destruct (T <=? t); [|split; [exact Hu | rewrite Htm; exact Ht]].
    rewrite !count_settle, timer_settle, !count_record.
    unfold count in *; cbn. rewrite Hu, Ht. split; reflexivity.
  - destruct (subscription s); [|split; assumption ..].
    rewrite !count_record. unfold count in *; cbn. rewrite Hu, Ht. split; lia.
  - destruct (subscription s); [|split; assumption ..].
    rewrite !count_settle, timer_settle, !count_record.
    unfold count in *; cbn. rewrite Hu, Ht. split; lia.
  - destruct (subscription s); split; assumption.
  - destruct (subscription s); [split; assumption| |split; assumption].
    rewrite !count_settle, timer_settle, !count_record, !count_clearTimeout.
    unfold count in *; cbn. rewrite Hu, Ht.
    destruct (timer s); split; reflexivity.
  - destruct (subscription s); [split; assumption| |split; assumption].
    rewrite !count_settle, timer_settle, !count_record, !count_clearTimeout.
    unfold count in *; cbn. rewrite Hu, Ht.
    destruct (timer s); split; reflexivity.
Qed.

Lemma sound_run schedule : forall s, sound s -> sound (fold_left (step T) schedule s).
Proof.
  induction schedule as [|te rest IH]; intros s Hs; cbn [fold_left]; [exact Hs|].
  apply IH, sound_step, Hs.
Qed.

Lemma sound_initial : sound initial.
Proof. split; reflexivity. Qed.

Lemma waiting_step s t ev :
  waiting T s -> is_quiet ev = true ->
  waiting T (step T s (t, ev))
  /\ (subscription s = Active -> subscription (step T s (t, ev)) = Active)
  /\ (ev = ObsTaskResolved -> subscription (step T s (t, ev)) = Active)
  /\ (timer s = Fired -> timer (step T s (t, ev)) = Fired)
  /\ (ev = TimerElapsed -> T <= t -> timer (step T s (t, ev)) = Fired).
Proof.
  intros Hw Hq. pose proof Hw as (Hc & Hsub & Hcase).
  destruct ev; try discriminate; cbn [step].
  - (* the timer callback *)
    destruct Hcase as [[Htm Hp] | (Htm & Hp & Hset)]; rewrite Htm.
    + destruct (Z.leb_spec T t) as [Hle|Hlt].
      * unfold settle, record, set_timer; cbn; rewrite Hp; cbn.
        split; [|split; [|split; [|split]]]; try (intros; congruence).
        split; [|split; [exact Hsub|]].
        { unfold count in *; cbn. rewrite List.filter_app, length_app, Hc. reflexivity. }
        right. split; [reflexivity|]. split; [reflexivity|].
        exists t. split; [reflexivity | exact Hle].
      * split; [|split; [|split; [|split]]];
          try (intros; congruence); try (intros; lia); try exact Hw.
    + split; [|split; [|split; [|split]]]; try (intros; congruence); try exact Hw.
  - (* the observable is obtained *)
    destruct (subscription s) eqn:Hs; [| |contradiction].
    + unfold record, set_subscription; cbn.
      split; [|split; [|split; [|split]]]; try (intros; congruence).
      split; [|split; [discriminate|exact Hcase]].
      unfold count in *; cbn. rewrite List.filter_app, length_app, Hc. reflexivity.
    + split; [|split; [|split; [|split]]]; try (intros; congruence); try exact Hw.
  - (* a notification *)
    destruct (subscription s) eqn:Hs; [| |contradiction].
    + split; [|split; [|split; [|split]]]; try (intros; congruence); try exact Hw.
    + unfold deliver; cbn.
      split; [|split; [|split; [|split]]]; try (intros; congruence).
      split; [exact Hc|]. split; [rewrite Hs; discriminate | exact Hcase].
Qed.

Lemma waiting_run schedule : forall s,
  waiting T s -> quiet schedule = true ->
  let s' := fold_left (step T) schedule s in
  waiting T s'
  /\ (subscription s = Active \/ subscribes schedule = true -> subscription s' = Active)
  /\ (timer s = Fired \/ timer_due T schedule = true -> timer s' = Fired).
Proof.
  induction schedule as [|[t ev] rest IH]; intros s Hw Hq; cbn [fold_left].
  - repeat split; [apply Hw .. | |]; intros [H|H]; (exact H || discriminate).
  - cbn [quiet forallb snd] in Hq. apply andb_true_iff in Hq as [Hev Hrest].
    destruct (waiting_step s t ev Hw Hev) as (Hw' & Hact & Hsub & Hfired & Hdue).
    destruct (IH (step T s (t, ev)) Hw' Hrest) as (Hfin & Hs1 & Ht1).
    split; [exact Hfin|]. split.
    + intros [H|H]; apply Hs1.
      * left. apply Hact, H.
      * cbn [subscribes existsb snd] in H. apply orb_true_iff in H as [H|H].
        -- left. apply Hsub. destruct ev; (reflexivity || discriminate).
        -- right. exact H.
    + intros [H|H]; apply Ht1.
      * left. apply Hfired, H.
      * cbn [timer_due existsb snd fst] in H. apply orb_true_iff in H as [H|H].
        -- left. destruct ev; try discriminate. apply Hdue; [reflexivity|].
           apply Z.leb_le, H.
        -- right. exact H.
Qed.

Lemma waiting_initial : waiting T initial.
Proof.
  split; [reflexivity|]. split; [discriminate|]. left. split; reflexivity.
Qed.

(** A notification that reaches an active subscription is delivered,
    whatever the state of the promise. *)
Lemma delivered_next schedule t :
  subscription (waitForTask T schedule) = Active ->
  delivered (waitForTask T (schedule ++ [(t, Next)]))
  = (delivered (waitForTask T schedule) ++ [(t, Next)])%list.
Proof.
  intros Hs. unfold waitForTask in *. rewrite fold_left_app. cbn [fold_left step].
  rewrite Hs. reflexivity.
Qed.

(** C1, amended.  If the subscription never signals completion and never
    signals an error, and the timer comes due at or after [T], then
    [waitForTask] rejects with the timeout error at a time that is at least
    [T], through a timer callback that ran once and without any
    [clearTimeout].  The subscription is not released: the code never
    unsubscribes, a subscription that was made is still active after the
    timeout, and its later notifications are still delivered.  In every run
    the timer callback runs at most once, and a promise that has settled
    keeps its outcome. *)
Theorem waitForTask_timeout schedule :
  (quiet schedule = true -> timer_due T schedule = true ->
   let s := waitForTask T schedule in
   promise s = Rejected Timeout
   /\ (exists t0, settled_at s = Some t0 /\ T <= t0)
   /\ count is_timer_log s = 1%nat
   /\ count is_clear s = 0%nat
   /\ (subscribes schedule = true ->
       subscription s = Active
       /\ forall t, delivered (waitForTask T (schedule ++ [(t, Next)]))
                    = (delivered s ++ [(t, Next)])%list))
  /\ count is_unsubscribe (waitForTask T schedule) = 0%nat
  /\ (count is_timer_log (waitForTask T schedule) <= 1)%nat
  /\ (forall more,
        promise (waitForTask T schedule) <> Pending ->
        promise (waitForTask T (schedule ++ more)) = promise (waitForTask T schedule)).
Proof.
  split; [|split; [|split]].
  - intros Hq Hdue s.
    destruct (waiting_run schedule initial waiting_initial Hq) as (Hw & Hsub & Htm).
    fold (waitForTask T schedule) in Hw, Hsub, Htm. fold s in Hw, Hsub, Htm.
    specialize (Htm (or_intror Hdue)).
    destruct Hw as (Hc & _ & [[Harmed _] | (_ & Hp & Hset)]); [congruence|].
    split; [exact Hp|]. split; [exact Hset|]. split.
    { destruct (sound_run schedule initial sound_initial) as [_ Hlog].
      fold (waitForTask T schedule) in Hlog. fold s in Hlog.
      rewrite Hlog, Htm. reflexivity. }
    split; [exact Hc|].
    intros Hsubs. specialize (Hsub (or_intror Hsubs)).
    split; [exact Hsub|]. intros t. apply delivered_next. exact Hsub.
  - apply (sound_run schedule initial sound_initial).
  - destruct (sound_run schedule initial sound_initial) as [_ Hlog].
    unfold waitForTask. rewrite Hlog. destruct (timer _); lia.
  - intros more Hs. unfold waitForTask in *. rewrite fold_left_app.
    apply settled_run. exact Hs.
Qed.

End ObserverFacts.

Section ObserverExamples.
Import Observer.

(** C1, as stated, fails: the subscription of a task that never completes
    and never fails is still active after the timeout, the notification that
    follows the timeout is delivered, and no cancellation of the subscription
    is executed. *)
Lemma waitForTask_keeps_subscription :
  let s := waitForTask TASK_OBSERVATION_TIMEOUT_MS Samples.silent_task in
  quiet Samples.silent_task = true
  /\ promise s = Rejected Timeout
  /\ settled_at s = Some TASK_OBSERVATION_TIMEOUT_MS
  /\ subscription s = Active
  /\ delivered s = [(TASK_OBSERVATION_TIMEOUT_MS + 1, Next)]
  /\ count is_unsubscribe s = 0%nat.
Proof. repeat split. Qed.

(** Witness of [waitForTask_timeout]: the silent task. *)
Lemma waitForTask_timeout_witness :
  let s := waitForTask TASK_OBSERVATION_TIMEOUT_MS Samples.silent_task in
  promise s = Rejected Timeout
  /\ (exists t0, settled_at s = Some t0 /\ TASK_OBSERVATION_TIMEOUT_MS <= t0)
  /\ subscription s = Active.
Proof.
  destruct (waitForTask_timeout TASK_OBSERVATION_TIMEOUT_MS Samples.silent_task)
    as (Hquiet & _).
  destruct (Hquiet eq_refl eq_refl) as (Hp & Hset & _ & _ & Hsub).
  split; [exact Hp|]. split; [exact Hset|]. exact (proj1 (Hsub eq_refl)).
Defined.

End ObserverExamples.

(** * Properties of the result fetch *)

Section FetcherFacts.
Import Fetcher.
Implicit Types (net : network) (r : task_result).

(** C2, as stated, fails: the status of a task that is not completed is
    returned as the network gave it, a number or a name, and not as
    [OTHER]. *)
Lemma fetchTaskResult_returns_raw_status :
  fetchTaskResult (Samples.network_reporting (js_val (Code 1))) "0xtask"
  = Returned {| r_status := Code 1; r_result := JNull |}
  /\ fetchTaskResult (Samples.network_reporting (js_val (Name "ACTIVE"))) "0xtask"
     = Returned {| r_status := Name "ACTIVE"; r_result := JNull |}
  /\ Code 1 <> Name "OTHER"
  /\ Name "ACTIVE" <> Name "OTHER".
Proof. repeat split; discriminate. Qed.

(** C2, amended.  [fetchTaskResult] returns a pair in which the result is
    null unless the status is [COMPLETED]; for every status of the network
    that is not the completed one, numeric or symbolic, it returns without
    error that status unchanged ([UNKNOWN] when the network gives none),
    which is never a completed status, together with a null result; the
    route [getResult] then answers with that status and that result. *)
Theorem fetchTaskResult_status net taskId :
  (forall r, fetchTaskResult net taskId = Returned r ->
             r_result r <> JNull -> r_status r = Name "COMPLETED")
  /\ (forall st, show net taskId = Returned st -> isCompleted st = false ->
        fetchTaskResult net taskId
        = Returned {| r_status := nullish st (Name "UNKNOWN"); r_result := JNull |}
        /\ isCompleted (js_val (nullish st (Name "UNKNOWN"))) = false
        /\ (forall x, st = js_val x -> nullish st (Name "UNKNOWN") = x)
        /\ (truthy (js_val taskId) = true ->
            getResult net (js_val taskId)
            = ResultOk taskId (nullish st (Name "UNKNOWN")) JNull)).
Proof.
  split.
  - intros r Hrun Hres. unfold fetchTaskResult in Hrun.
    destruct (show net taskId) as [st|m]; [|discriminate].
    destruct (isCompleted st); cbn [negb] in Hrun.
    + destruct (result_json net taskId) as [[text|]|m]; try discriminate.
      destruct (JSON_parse net text) as [j|m]; [|discriminate].
      inversion Hrun. reflexivity.
    + inversion Hrun; subst r. cbn in Hres. congruence.
  - intros st Hshow Hnot.
    assert (fetchTaskResult net taskId
            = Returned {| r_status := nullish st (Name "UNKNOWN"); r_result := JNull |}) as Hrun.
    { unfold fetchTaskResult. rewrite Hshow, Hnot. reflexivity. }
    split; [exact Hrun|]. split; [|split].
    + destruct st as [| |x]; [reflexivity | reflexivity | exact Hnot].
    + intros x ->. reflexivity.
    + intros Htid. unfold getResult. rewrite Htid. cbn [negb nullish].
      rewrite Hrun. reflexivity.
Qed.

(** Witness of [fetchTaskResult_status]: a task that the network reports
    with the numeric status 1. *)
Lemma fetchTaskResult_status_witness :
  getResult (Samples.network_reporting (js_val (Code 1))) (js_val "0xtask")
  = ResultOk "0xtask" (Code 1) JNull.
Proof.
  destruct (fetchTaskResult_status (Samples.network_reporting (js_val (Code 1))) "0xtask")
    as [_ Hraw].
  destruct (Hraw (js_val (Code 1)) eq_refl eq_refl) as (_ & _ & _ & Hroute).
  exact (Hroute eq_refl).
Defined.

End FetcherFacts.

(** * More properties of the job ledger *)

Section LedgerMore.
Import Ledger.
Implicit Types (tbl : jobs_table) (data : job_data) (u : job_updates) (r : job).

Lemma COALESCE_twice {A} (a b : option A) : COALESCE a (COALESCE a b) = COALESCE a b.
Proof. destruct a; reflexivity. Qed.

Lemma COALESCE_same {A} (a : option A) : COALESCE a a = a.
Proof. destruct a; reflexivity. Qed.

(** The proposed tuple depends on the time and on the fresh identifier only
    in [id], [submitted_at], [created_at] and [updated_at]. *)
Lemma proposed_again data now1 uuid1 now2 uuid2 row1 :
  proposed data now1 uuid1 = Returned row1 ->
  exists row2,
    proposed data now2 uuid2 = Returned row2
    /\ task_id row2 = task_id row1 /\ deal_id row2 = deal_id row1
    /\ settlement_name row2 = settlement_name row1 /\ status row2 = status row1
    /\ result row2 = result row1 /\ error row2 = error row1.
Proof.
  unfold proposed. intros H.
  destruct (sql_param (d_task_id data)); [|discriminate].
  destruct (sql_param (destructuring_default (d_settlement_name data) _)); [|discriminate].
  destruct (sql_param (destructuring_default (d_status data) _)); [|discriminate].
  inversion H; subst row1. eexists. split; [reflexivity|]. repeat split.
Qed.

(** X1.  Repeating a call of [createJob] with the same argument changes nothing
    but [updated_at]: the second call writes the row written by the first,
    with the time of the second call. *)
Theorem createJob_idempotent tbl data now1 uuid1 now2 uuid2 written after :
  createJob (Some tbl) data now1 uuid1 = (Returned (Some written), Some after) ->
  exists key,
    after !! key = Some written
    /\ createJob (Some after) data now2 uuid2
       = (Returned (Some {| id := id written; wallet_address := wallet_address written;
                            task_id := task_id written; deal_id := deal_id written;
                            settlement_name := settlement_name written;
                            status := status written; result := result written;
                            error := error written;
                            dataset_url_override := dataset_url_override written;
                            submitted_at := submitted_at written;
                            settled_tx_hash := settled_tx_hash written;
                            settled_at := settled_at written;
                            created_at := created_at written;
                            updated_at := Some now2 |}),
          Some (<[key := {| id := id written; wallet_address := wallet_address written;
                            task_id := task_id written; deal_id := deal_id written;
                            settlement_name := settlement_name written;
                            status := status written; result := result written;
                            error := error written;
                            dataset_url_override := dataset_url_override written;
                            submitted_at := submitted_at written;
                            settled_tx_hash := settled_tx_hash written;
                            settled_at := settled_at written;
                            created_at := created_at written;
                            updated_at := Some now2 |}]> after)).
Proof.
  unfold createJob at 1.
  destruct (proposed data now1 uuid1) as [row1|m] eqn:Hp1; [|discriminate].
  intros H. inversion H; subst written after.
  destruct (proposed_again data now1 uuid1 now2 uuid2 row1 Hp1)
    as (row2 & Hp2 & Hid & Hdeal & Hname & Hst & Hres & Herr).
  exists (task_id row1). split; [apply lookup_insert_eq|].
  unfold createJob. rewrite Hp2, Hid, lookup_insert_eq.
  unfold on_conflict_update at 1 3. rewrite Hdeal, Hname, Hst, Hres, Herr.
  destruct (tbl !! task_id row1) as [existing|]; cbn;
    rewrite ?COALESCE_twice, ?COALESCE_same; reflexivity.
Qed.

(** Witness of [createJob_idempotent]: the first sample call, repeated. *)
Lemma createJob_idempotent_witness :
  exists key again,
    Samples.table_after_first !! key = Some Samples.stored_first
    /\ fst (createJob (Some Samples.table_after_first) Samples.first_call 700 "id-9")
       = Returned (Some again)
    /\ updated_at again = Some 700 /\ id again = "id-1" /\ submitted_at again = 100.
Proof.
  destruct (createJob_idempotent ∅ Samples.first_call 100 "id-1" 700 "id-9"
              Samples.stored_first Samples.table_after_first (proj1 sample_tables))
    as (key & Hkey & Hrun).
  exists key. eexists. split; [exact Hkey|]. rewrite Hrun.
  split; [reflexivity|]. repeat split.
Defined.

(** The three ways a patch can end. *)
Lemma updateJobByTaskId_cases tbl taskId u now :
  updateJobByTaskId (Some tbl) taskId u now = (Returned None, Some tbl)
  \/ (exists m, updateJobByTaskId (Some tbl) taskId u now = (Thrown m, Some tbl))
  \/ (exists r r',
        tbl !! taskId = Some r /\ apply_updates u r now = Returned r'
        /\ updateJobByTaskId (Some tbl) taskId u now
           = (Returned (Some r'), Some (<[taskId := r']> tbl))).
Proof.
  unfold updateJobByTaskId.
  destruct (no_set_clause u); [left; reflexivity|].
  destruct (bind_error u); [right; left; eauto|].
  destruct (tbl !! taskId) as [r|]; [|left; reflexivity].
  destruct (apply_updates u r now) as [r'|m] eqn:Hap.
  - right. right. exists r, r'. auto.
  - right. left. eauto.
Qed.

(** The database reads the time of the patch, if it carries one. *)
Lemma bind_error_none u :
  (forall m, u_settledAt u <> js_val (NotTimestamp m)) <-> bind_error u = None.
Proof.
  unfold bind_error. split.
  - intros Htime. destruct (u_settledAt u) as [| |[t|m]]; try reflexivity.
    destruct (Htime m eq_refl).
  - intros Hnone m Hm. rewrite Hm in Hnone. discriminate.
Qed.

Lemma apply_updates_task_id u r now r' :
  apply_updates u r now = Returned r' -> task_id r' = task_id r.
Proof.
  unfold apply_updates.
  destruct (bind_error u); [discriminate|].
  destruct (u_status u); intros H; inversion H; reflexivity.
Qed.



(** X3.  A patch that returns a row has changed, in the row of its task, the
    columns it supplies and [updated_at], and nothing else: not [deal_id],
    [wallet_address], [settlement_name], [submitted_at], nor any other row. *)
Theorem updateJobByTaskId_frame tbl taskId u now r' after :
  updateJobByTaskId (Some tbl) taskId u now = (Returned (Some r'), Some after) ->
  exists r,
    tbl !! taskId = Some r
    /\ after = <[taskId := r']> tbl
    /\ (forall t, t <> taskId -> after !! t = tbl !! t)
    /\ id r' = id r /\ task_id r' = task_id r /\ wallet_address r' = wallet_address r
    /\ deal_id r' = deal_id r /\ settlement_name r' = settlement_name r
    /\ dataset_url_override r' = dataset_url_override r
    /\ submitted_at r' = submitted_at r /\ created_at r' = created_at r
    /\ updated_at r' = Some now
    /\ (u_status u = js_undefined -> status r' = status r)
    /\ (u_result u = js_undefined -> result r' = result r)
    /\ (u_error u = js_undefined -> error r' = error r)
    /\ (u_settledTxHash u = js_undefined -> settled_tx_hash r' = settled_tx_hash r)
    /\ (u_settledAt u = js_undefined -> settled_at r' = settled_at r).
Proof.
  unfold updateJobByTaskId.
  destruct (no_set_clause u); [discriminate|].
  destruct (bind_error u) eqn:Hbind; [discriminate|].
  destruct (tbl !! taskId) as [r|] eqn:Hrow; [|discriminate].
  destruct (apply_updates u r now) as [r0|m] eqn:Hap; [|discriminate].
  intros H. inversion H; subst r0 after.
  exists r. split; [reflexivity|]. split; [reflexivity|].
  split; [intros t Hne; apply lookup_insert_ne; congruence|].
  unfold apply_updates in Hap. rewrite Hbind in Hap.
  destruct (u_status u) eqn:Hst; try discriminate;
    inversion Hap; subst r'; cbn;
    repeat split; try discriminate;
    intros Hu; rewrite Hu; reflexivity.
Qed.

(** Witness of [updateJobByTaskId_frame]: the settlement patched onto the
    sample job leaves its deal and its status alone. *)
Lemma updateJobByTaskId_frame_witness :
  exists r',
    fst (updateJobByTaskId (Some Samples.table_no_result) "0xtask"
           (Samples.only_settled "0xhash") 300) = Returned (Some r')
    /\ deal_id r' = Some "0xdeal" /\ status r' = "submitted".
Proof.
  assert (updateJobByTaskId (Some Samples.table_no_result) "0xtask"
            (Samples.only_settled "0xhash") 300
          = (Returned (Some {| id := "id-1"; wallet_address := Some "0xabc1";
               task_id := "0xtask"; deal_id := Some "0xdeal";
               settlement_name := "Settlement"; status := "submitted";
               result := None; error := None; dataset_url_override := None;
               submitted_at := 100; settled_tx_hash := Some "0xhash";
               settled_at := None; created_at := Some 100; updated_at := Some 300 |}),
             Some (<["0xtask" := {| id := "id-1"; wallet_address := Some "0xabc1";
               task_id := "0xtask"; deal_id := Some "0xdeal";
               settlement_name := "Settlement"; status := "submitted";
               result := None; error := None; dataset_url_override := None;
               submitted_at := 100; settled_tx_hash := Some "0xhash";
               settled_at := None; created_at := Some 100; updated_at := Some 300 |}]>
                     Samples.table_no_result))) as Hrun.
  { unfold updateJobByTaskId. cbn [no_set_clause Samples.only_settled supplied
      u_status u_result u_error u_settledTxHash u_settledAt orb negb bind_error].
    unfold Samples.table_no_result at 1. rewrite lookup_insert_eq. reflexivity. }
  destruct (updateJobByTaskId_frame _ _ _ _ _ _ Hrun)
    as (r & Hr & _ & _ & _ & _ & _ & Hdeal & _ & _ & _ & _ & _ & Hst & _).
  eexists. rewrite Hrun. split; [reflexivity|].
  unfold Samples.table_no_result in Hr. rewrite lookup_insert_eq in Hr.
  inversion Hr; subst r. split; [exact Hdeal | exact (Hst eq_refl)].
Defined.

(** X4.  Every request to the ledger keeps each row under its own task id: no
    [createJob] and no patch moves a row to another task or changes the
    [task_id] it carries. *)
Theorem serve_all_well_keyed tbl requests :
  Listing.well_keyed tbl -> Listing.well_keyed (serve_all tbl requests).
Proof.
  revert tbl. induction requests as [|[now req] rest IH]; intros tbl Hk; [exact Hk|].
  apply IH. clear IH rest. destruct req as [data uuid | taskId u]; cbn [serve].
  - unfold createJob. destruct (proposed data now uuid) as [row|m]; [|exact Hk].
    unfold table_after; cbn [snd]. intros t r Hl.
    destruct (decide (task_id row = t)) as [<-|Hne].
    + rewrite lookup_insert_eq in Hl. inversion Hl; subst r.
      destruct (tbl !! task_id row) as [existing|] eqn:Hex; [|reflexivity].
      exact (Hk _ _ Hex).
    + rewrite lookup_insert_ne in Hl by exact Hne. exact (Hk _ _ Hl).
  - destruct (updateJobByTaskId_cases tbl taskId u now)
      as [Hrun | [[m Hrun] | (r & r' & Hr & Hap & Hrun)]]; rewrite Hrun;
      unfold table_after; cbn [snd]; [exact Hk | exact Hk |].
    intros t r0 Hl. destruct (decide (taskId = t)) as [<-|Hne].
    + rewrite lookup_insert_eq in Hl. inversion Hl; subst r0.
      rewrite (apply_updates_task_id _ _ _ _ Hap). exact (Hk _ _ Hr).
    + rewrite lookup_insert_ne in Hl by exact Hne. exact (Hk _ _ Hl).
Qed.

(** Witness of [serve_all_well_keyed]: the orderly sample run from the
    empty table. *)
Lemma serve_all_well_keyed_witness : Listing.well_keyed (serve_all ∅ Samples.orderly).
Proof.
  apply serve_all_well_keyed. intros t r Hl. rewrite lookup_empty in Hl. discriminate.
Defined.

End LedgerMore.

(** * Properties of the job listings *)

Section ListingFacts.
Import Ledger Listing.
Implicit Types (tbl : jobs_table) (r : job).

#[local] Instance newer_first_total : Total newer_first.
Proof. intros a b. unfold newer_first. lia. Qed.

#[local] Instance newer_first_trans : Transitive newer_first.
Proof. intros a b c. unfold newer_first. lia. Qed.

Lemma ordered_rows_elem tbl r : r ∈ ordered_rows tbl <-> exists t, tbl !! t = Some r.
Proof.
  unfold ordered_rows. rewrite merge_sort_Permutation, list_elem_of_fmap. split.
  - intros ([t r0] & -> & Hin). exists t. apply elem_of_map_to_list. exact Hin.
  - intros [t Ht]. exists (t, r). split; [reflexivity|]. apply elem_of_map_to_list. exact Ht.
Qed.

Lemma ordered_rows_sorted tbl : StronglySorted newer_first (ordered_rows tbl).
Proof. apply StronglySorted_merge_sort; apply _. Qed.

Lemma ordered_rows_length tbl : length (ordered_rows tbl) = size tbl.
Proof.
  unfold ordered_rows. rewrite merge_sort_Permutation, length_fmap.
  apply length_map_to_list.
Qed.

Lemma StronglySorted_filter_keeps {A} (R : relation A) (P : A -> Prop)
    `{forall x, Decision (P x)} (l : list A) :
  StronglySorted R l -> StronglySorted R (filter P l).
Proof.
  induction 1 as [|x l Hl IH Hx]; [constructor|].
  rewrite filter_cons. destruct (decide (P x)); [|exact IH].
  constructor; [exact IH|].
  apply Forall_forall. intros y Hy. apply list_elem_of_filter in Hy as [_ Hy].
  rewrite Forall_forall in Hx. apply Hx, Hy.
Qed.



(** The page of [listAllJobs] is never larger than 1000 rows, and 500 rows
    when the limit is missing or zero. *)
Lemma page_size_cap limit :
  page_size limit <= 1000
  /\ page_size js_undefined = 500 /\ page_size (js_val 0) = 500.
Proof. split; [unfold page_size; lia | split; reflexivity]. Qed.

(** X6.  [listAllJobs] returns the newest rows of the table, newest first: as
    many as the table has, up to the limit and never more than 1000; no row
    it leaves out is newer than a row it returns.  A negative limit is
    refused by the database. *)
Theorem listAllJobs_newest tbl limit :
  (page_size limit < 0 -> listAllJobs (Some tbl) limit = Thrown "LIMIT must not be negative")
  /\ (0 <= page_size limit ->
      exists rows,
        listAllJobs (Some tbl) limit = Returned rows
        /\ length rows = Nat.min (Z.to_nat (page_size limit)) (size tbl)
        /\ (length rows <= 1000)%nat
        /\ StronglySorted newer_first rows
        /\ (forall r, r ∈ rows -> exists t, tbl !! t = Some r)
        /\ (forall r r' t, r ∈ rows -> tbl !! t = Some r' -> r' ∉ rows ->
                           submitted_at r' <= submitted_at r)).
Proof.
  unfold listAllJobs. split.
  - intros Hneg. destruct (Z.ltb_spec (page_size limit) 0); [reflexivity | lia].
  - intros Hpos. destruct (Z.ltb_spec (page_size limit) 0); [lia|].
    eexists. split; [reflexivity|].
    pose proof (ordered_rows_sorted tbl) as Hsorted.
    rewrite <- (take_drop (Z.to_nat (page_size limit)) (ordered_rows tbl)) in Hsorted.
    split; [rewrite length_take, ordered_rows_length; reflexivity|].
    split.
    { rewrite length_take. destruct (page_size_cap limit) as [Hcap _]. lia. }
    split; [eapply StronglySorted_app_1_l; exact Hsorted|].
    split.
    { intros r Hr. apply ordered_rows_elem.
      rewrite <- (take_drop (Z.to_nat (page_size limit)) (ordered_rows tbl)).
      apply elem_of_app. left. exact Hr. }
    intros r r' t Hr Hrow Hout.
    assert (r' ∈ ordered_rows tbl) as Hin by (apply ordered_rows_elem; eauto).
    rewrite <- (take_drop (Z.to_nat (page_size limit)) (ordered_rows tbl)) in Hin.
    apply elem_of_app in Hin as [Hin|Hin]; [contradiction|].
    exact (StronglySorted_app_1_elem_of _ _ _ _ _ Hsorted Hr Hin).
Qed.

(** Witness of [listAllJobs_newest]: two of the three sample jobs. *)
Lemma listAllJobs_newest_witness :
  exists rows,
    listAllJobs (Some Samples.three_jobs) (js_val 2) = Returned rows
    /\ (length rows <= 1000)%nat
    /\ StronglySorted newer_first rows.
Proof.
  destruct (listAllJobs_newest Samples.three_jobs (js_val 2)) as [_ Hpage].
  destruct (Hpage ltac:(discriminate)) as (rows & Hrun & _ & Hcap & Hsorted & _).
  exists rows. split; [exact Hrun|]. split; [exact Hcap | exact Hsorted].
Defined.

End ListingFacts.

(** * Properties of the job routes *)

Section JobRouteFacts.
Import Ledger Listing JobRoutes.
Implicit Types (tbl : jobs_table) (body : post_body) (r : job).


(** *** [trim] *)

Lemma trimStart_clean s : starts_clean (trimStart s).
Proof.
  induction s as [|c s IH]; cbn [trimStart]; [exact I|].
  destruct (is_space c) eqn:Hc; [exact IH | exact Hc].
Qed.

Lemma trimStart_of_clean s : starts_clean s -> trimStart s = s.
Proof. destruct s as [|c s]; cbn; [reflexivity|]. intros ->. reflexivity. Qed.

Lemma trimEnd_clean s : starts_clean s -> starts_clean (trimEnd s).
Proof.
  destruct s as [|c s]; cbn [trimEnd starts_clean]; [trivial|]. intros Hc.
  destruct (trimEnd s); [rewrite Hc|]; exact Hc.
Qed.

Lemma trimEnd_idempotent s : trimEnd (trimEnd s) = trimEnd s.
Proof.
  induction s as [|c s IH]; [reflexivity|]. cbn [trimEnd].
  destruct (trimEnd s) as [|d t] eqn:Ht.
  - destruct (is_space c) eqn:Hc; [reflexivity|]. cbn [trimEnd]. rewrite Hc. reflexivity.
  - cbn [trimEnd]. cbn [trimEnd] in IH. rewrite IH. reflexivity.
Qed.

(** Trimming twice is trimming once. *)
Lemma trim_idempotent s : trim (trim s) = trim s.
Proof.
  unfold trim.
  rewrite (trimStart_of_clean (trimEnd (trimStart s)))
    by apply trimEnd_clean, trimStart_clean.
  apply trimEnd_idempotent.
Qed.

(** *** The routes *)

(** The argument that [postJob] builds always passes the NOT NULL checks. *)
Lemma job_data_of_proposed body t now uuid :
  exists row,
    proposed (job_data_of body t now) now uuid = Returned row
    /\ task_id row = trim t
    /\ status row = or_default (b_status body) "submitted"
    /\ wallet_address row = wallet_param (b_walletAddress body).
Proof. eexists. split; [reflexivity|]. repeat split. Qed.

(** What [postJob] does with an acceptable task id. *)
Lemma postJob_run tbl body now uuid t :
  b_taskId body = Execute.Text t -> t <> "" ->
  exists row,
    proposed (job_data_of body t now) now uuid = Returned row
    /\ task_id row = trim t
    /\ status row = or_default (b_status body) "submitted"
    /\ wallet_address row = wallet_param (b_walletAddress body)
    /\ postJob (Some tbl) body now uuid
       = let stored := match tbl !! trim t with
                       | Some existing => on_conflict_update row existing now
                       | None => row
                       end in
         (PostCreated (jobRowToJson (returning_create stored)),
          Some (<[trim t := stored]> tbl)).
Proof.
  intros Ht Hne.
  destruct (job_data_of_proposed body t now uuid) as (row & Hp & Hid & Hst & Hw).
  exists row. split; [exact Hp|]. split; [exact Hid|]. split; [exact Hst|].
  split; [exact Hw|].
  unfold postJob. rewrite Ht. destruct (String.eqb_spec t ""); [contradiction|].
  unfold createJob. rewrite Hp, Hid. reflexivity.
Qed.









End JobRouteFacts.

(** * More properties of the treasury balance and of the dashboard *)

Section DashboardFacts.
Import Ledger Listing Treasury Dashboard.
Implicit Types (env : environment) (db : database) (tbl : treasury_table).



(** X12.  [getTreasuryBalanceFormatted] serves a stored balance without any
    access to the chain, also when the token address is not set; it never
    writes to the store; with a working or absent store it does not throw,
    whatever the chain does; and what it reads from the chain is the balance
    in the format of the route (that of [formatUsdc], for a balance whose
    whole part is below 2^53). *)
Theorem getTreasuryBalanceFormatted_store_first env tbl a :
  (exists rpc, env_var (ARBITRUM_SEPOLIA_RPC_URL env) = Some rpc) ->
  env_var (SETTLEMENT_CONTRACT_ADDRESS env) = Some a ->
  (forall row, tbl !! toLowerCase a = Some row ->
     getTreasuryBalanceFormatted env (mkDb (Some tbl) None None None)
     = (Returned (Some (balance_formatted row)), [StoreRead]))
  /\ (forall p, ~ In StoreWrite (snd (getTreasuryBalanceFormatted env (mkDb p None None None))))
  /\ (forall p, exists b, fst (getTreasuryBalanceFormatted env (mkDb p None None None))
                          = Returned b)
  /\ (forall raw, tbl !! toLowerCase a = None ->
        configured env a -> balanceOf env = Returned raw ->
        0 <= raw < 2 ^ 53 * 1000000 ->
        fst (getTreasuryBalanceFormatted env (mkDb (Some tbl) None None None))
        = Returned (Some (Units.formatUsdc raw))).
Proof.
  intros [rpc Hrpc] Haddr.
  assert (forall trace, ~ In StoreWrite trace ->
            let r := (let resolved :=
                        match env_var (TEST_USDC_ADDRESS env) with
                        | Some t => (Some t, trace)
                        | None =>
                          match contract_token env with
                          | Returned t => (Some t, (trace ++ [TokenRead])%list)
                          | Thrown _ => (None, (trace ++ [TokenRead])%list)
                          end
                        end in
                      match resolved with
                      | (None, trace) => (Returned None, trace)
                      | (Some tokenAddress, trace) =>
                        match balanceOf env with
                        | Returned balanceRaw =>
                          (Returned (Some (Units.formatUsdc balanceRaw)),
                           (trace ++ [BalanceRead])%list)
                        | Thrown _ => (Returned None, (trace ++ [BalanceRead])%list)
                        end
                      end) in
            ~ In StoreWrite (snd r) /\ exists b : option string, fst r = Returned b) as Hchain.
  { intros trace Hno. cbn zeta.
    assert (forall x y, x <> StoreWrite -> y <> StoreWrite ->
                        ~ In StoreWrite ((trace ++ [x]) ++ [y])) as Happ2.
    { intros x y Hx Hy Hin. apply in_app_or in Hin as [Hin|Hin].
      - apply in_app_or in Hin as [Hin|Hin]; auto. cbn in Hin. intuition congruence.
      - cbn in Hin. intuition congruence. }
    assert (forall x, x <> StoreWrite -> ~ In StoreWrite (trace ++ [x])) as Happ1.
    { intros x Hx Hin. apply in_app_or in Hin as [Hin|Hin]; auto.
      cbn in Hin. intuition congruence. }
    destruct (env_var (TEST_USDC_ADDRESS env)); [|destruct (contract_token env)];
      try destruct (balanceOf env); cbn [fst snd];
      (split; [first [apply Happ2; discriminate | apply Happ1; discriminate] | eauto]). }
  unfold getTreasuryBalanceFormatted. rewrite Hrpc, Haddr.
  split; [|split; [|split]].
  - intros row Hrow. unfold isDbConfigured, initDb, getTreasuryBalance.
    cbn [pool initDb_error select_error]. rewrite Hrow. reflexivity.
  - intros p. unfold isDbConfigured, initDb, getTreasuryBalance.
    cbn [pool initDb_error select_error].
    destruct p as [t|].
    + destruct (t !! toLowerCase a).
      * cbn. intuition discriminate.
      * apply Hchain. cbn. intuition discriminate.
    + apply Hchain. cbn. tauto.
  - intros p. unfold isDbConfigured, initDb, getTreasuryBalance.
    cbn [pool initDb_error select_error].
    destruct p as [t|].
    + destruct (t !! toLowerCase a).
      * cbn. eauto.
      * apply Hchain. cbn. intuition discriminate.
    + apply Hchain. cbn. tauto.
  - intros raw Hnone (_ & _ & Htok) Hb _.
    unfold isDbConfigured, initDb, getTreasuryBalance.
    cbn [pool initDb_error select_error]. rewrite Hnone, Hb.
    destruct (env_var (TEST_USDC_ADDRESS env)); [reflexivity|].
    destruct (Htok eq_refl) as [t ->]. reflexivity.
Qed.

(** Witness of [getTreasuryBalanceFormatted_store_first]: a stored balance
    served while the chain is down and the token address is not set. *)
Lemma getTreasuryBalanceFormatted_store_first_witness :
  getTreasuryBalanceFormatted Samples.chain_down Samples.warm_store
  = (Returned (Some "5.00"), [StoreRead]).
Proof.
  destruct (getTreasuryBalanceFormatted_store_first Samples.chain_down
              (<["0xc0ffee" := Samples.cached_row]> ∅) "0xC0FFEE"
              (ex_intro _ "https://rpc.example" eq_refl) eq_refl) as [Hhit _].
  exact (Hhit Samples.cached_row (lookup_insert_eq _ _ _)).
Defined.

(** *** The counters of [getStats] *)

Lemma tally_counts jobs :
  tally jobs
  = (length (List.filter (fun j => has_result j && negb (has_settled j)) jobs),
     length (List.filter (fun j => negb (has_result j) && no_error j) jobs),
     length (List.filter has_result jobs),
     length (List.filter has_settled jobs)).
Proof.
  unfold tally.
  assert (forall a b c d,
            fold_left tally_step jobs (a, b, c, d)
            = ((a + length (List.filter (fun j => has_result j && negb (has_settled j)) jobs))%nat,
               (b + length (List.filter (fun j => negb (has_result j) && no_error j) jobs))%nat,
               (c + length (List.filter has_result jobs))%nat,
               (d + length (List.filter has_settled jobs))%nat)) as Hgen.
  { induction jobs as [|j rest IH]; intros a b c d; cbn [fold_left List.filter].
    - rewrite !Nat.add_0_r. reflexivity.
    - cbn [tally_step]. rewrite IH.
      destruct (has_result j), (has_settled j), (no_error j);
        cbn [andb negb length Nat.add]; rewrite ?Nat.add_succ_r; reflexivity. }
  exact (Hgen O O O O).
Qed.

Lemma filter_length_le {A} (f : A -> bool) (l : list A) :
  (length (List.filter f l) <= length l)%nat.
Proof.
  induction l as [|x l IH]; cbn [List.filter length]; [lia|].
  destruct (f x); cbn [length]; lia.
Qed.

Lemma completed_split (jobs : list job) :
  length (List.filter has_result jobs)
  = (length (List.filter (fun j => has_result j && negb (has_settled j)) jobs)
     + length (List.filter (fun j => has_result j && has_settled j) jobs))%nat.
Proof.
  induction jobs as [|j rest IH]; [reflexivity|]. cbn [List.filter].
  destruct (has_result j), (has_settled j); cbn [andb negb length]; lia.
Qed.

Lemma settled_with_result (jobs : list job) :
  (forall j, In j jobs -> has_settled j = true -> has_result j = true) ->
  length (List.filter (fun j => has_result j && has_settled j) jobs)
  = length (List.filter has_settled jobs).
Proof.
  induction jobs as [|j rest IH]; intros Hinv; [reflexivity|]. cbn [List.filter].
  pose proof (Hinv j (or_introl eq_refl)) as Hj.
  specialize (IH (fun x Hx => Hinv x (or_intror Hx))).
  destruct (has_settled j); [rewrite (Hj eq_refl)|rewrite andb_false_r];
    cbn [andb length]; rewrite IH; reflexivity.
Qed.

(** X13.  The statistics of the dashboard never show the treasury balance: the
    property [totalFundsDeposited] is undefined whenever a balance was read
    and ["0"] otherwise.  Its counters cover at most 1000 jobs, a job counts
    as running or completed but not both, and when every settled job of the
    ledger has a result, the completed settlements are the active pools plus
    the settled ones. *)
Theorem getStats_counters env db (ledger : jobs_table) s :
  is_Some (pool db) ->
  getStats env db (Some ledger) = Stats s ->
  (totalFundsDeposited s = js_undefined
   <-> exists b, fst (getTreasuryBalanceFormatted env db) = Returned (Some b))
  /\ (totalFundsDeposited s = js_val "0"
      <-> fst (getTreasuryBalanceFormatted env db) = Returned None)
  /\ (jobsRunning s + settlementsCompleted s <= Nat.min 1000 (size ledger))%nat
  /\ (activePools s <= settlementsCompleted s)%nat
  /\ (settled_only_with_result ledger ->
      settlementsCompleted s = (activePools s + settlementsSettled s)%nat).
Proof.
  intros [t Hpool] Hrun. unfold getStats in Hrun.
  destruct (fst (getTreasuryBalanceFormatted env db)) as [balance|m] eqn:Hbal;
    [|discriminate].
  unfold isDbConfigured in Hrun. rewrite Hpool in Hrun.
  destruct (initDb db); [|discriminate].
  unfold listAllJobs in Hrun. change (page_size (js_val 2000) <? 0) with false in Hrun.
  cbn iota in Hrun. change (Z.to_nat (page_size (js_val 2000))) with 1000%nat in Hrun.
  rewrite tally_counts in Hrun. inversion Hrun; subst s; clear Hrun.
  cbn [totalFundsDeposited jobsRunning settlementsCompleted activePools settlementsSettled].
  set (jobs := take 1000 (ordered_rows ledger)).
  assert (length jobs = Nat.min 1000 (size ledger)) as Hlen
    by (unfold jobs; rewrite length_take, ordered_rows_length; reflexivity).
  split; [|split; [|split; [|split]]].
  - destruct balance; split; try discriminate; eauto.
    + intros [b Hb]. discriminate.
  - destruct balance; split; try discriminate; reflexivity.
  - rewrite <- Hlen. clear. induction jobs as [|j rest IH]; [cbn; lia|].
    cbn [List.filter]. destruct (has_result j), (no_error j); cbn [andb negb length]; lia.
  - rewrite completed_split. lia.
  - intros Hinv. rewrite completed_split. f_equal. apply settled_with_result.
    intros j Hj Hs.
    assert (j ∈ ordered_rows ledger) as Hin.
    { apply list_elem_of_In in Hj. unfold jobs in Hj.
      rewrite <- (take_drop 1000 (ordered_rows ledger)). apply elem_of_app. left. exact Hj. }
    apply ordered_rows_elem in Hin as [k Hk].
    apply (Hinv k j Hk). unfold has_settled in Hs.
    destruct (settled_tx_hash j); [eauto | discriminate].
Qed.

(** Witness of [getStats_counters]: the statistics of a ledger with one
    completed job, while the store holds a balance. *)
Lemma getStats_counters_witness :
  getStats Samples.funded Samples.warm_store (Some Samples.table_after_first)
  = Stats {| totalFundsDeposited := js_undefined; totalFundsDepositedNum := js_undefined;
             activePools := 1; jobsRunning := 0; settlementsCompleted := 1;
             settlementsSettled := 0 |}
  /\ (1 = 1 + 0)%nat.
Proof.
  assert (getStats Samples.funded Samples.warm_store (Some Samples.table_after_first)
          = Stats {| totalFundsDeposited := js_undefined;
                     totalFundsDepositedNum := js_undefined;
                     activePools := 1; jobsRunning := 0; settlementsCompleted := 1;
                     settlementsSettled := 0 |}) as Hrun by (vm_compute; reflexivity).
  split; [exact Hrun|].
  destruct (getStats_counters Samples.funded Samples.warm_store Samples.table_after_first _
              (ex_intro _ _ eq_refl) Hrun) as (_ & _ & _ & _ & Hsum).
  apply Hsum. intros t r Hl Hs. unfold Samples.table_after_first in Hl.
  destruct (decide (t = "0xtask")) as [->|Hne].
  - rewrite lookup_insert_eq in Hl. inversion Hl; subst r. reflexivity.
  - rewrite lookup_insert_ne, lookup_empty in Hl by congruence. discriminate.
Defined.

End DashboardFacts.

(** * More properties of the amount format *)

Section UnitsMore.
Import Decimal Units.

Lemma digits_go_fuel f1 : forall f2 n acc,
  0 <= n < 10 ^ Z.of_nat (S f1) -> n < 10 ^ Z.of_nat (S f2) ->
  digits_go (S f1) n acc = digits_go (S f2) n acc.
Proof.
  induction f1 as [|f1 IH]; intros f2 n acc Hn1 Hn2.
  - cbn [digits_go]. change (10 ^ Z.of_nat 1) with 10 in Hn1.
    destruct (Z.ltb_spec n 10); [reflexivity | lia].
  - cbn [digits_go]. destruct (Z.ltb_spec n 10) as [|Hge]; [reflexivity|].
    destruct f2 as [|f2].
    { change (10 ^ Z.of_nat 1) with 10 in Hn2. lia. }
    apply IH.
    + split; [apply Z.div_pos; lia|].
      apply Z.div_lt_upper_bound; [lia|].
      rewrite (Nat2Z.inj_succ (S f1)), Z.pow_succ_r in Hn1 by lia. lia.
    + apply Z.div_lt_upper_bound; [lia|].
      rewrite (Nat2Z.inj_succ (S f2)), Z.pow_succ_r in Hn2 by lia. lia.
Qed.

Lemma of_nonneg_digit n : 0 <= n < 10 -> of_nonneg n = String (digit_char n) "".
Proof.
  intros Hn. unfold of_nonneg. cbn [digits_go].
  destruct (Z.ltb_spec n 10); [|lia]. rewrite Z.mod_small by lia. reflexivity.
Qed.

Lemma of_nonneg_snoc n :
  10 <= n -> of_nonneg n = (of_nonneg (n / 10) ++ String (digit_char (n mod 10)) "")%string.
Proof.
  intros Hn. unfold of_nonneg at 1. cbn [digits_go].
  destruct (Z.ltb_spec n 10); [lia|].
  assert (0 <= n / 10) as Hq by (apply Z.div_pos; lia).
  unfold of_nonneg. rewrite digits_go_app, append_nil.
  destruct (Z.to_nat (Z.log2 n)) as [|F] eqn:HF.
  { exfalso. assert (1 <= Z.log2 n) by (apply Z.log2_le_pow2; lia). lia. }
  apply digits_go_fuel.
  - split; [exact Hq|].
    apply Z.div_lt_upper_bound; [lia|].
    pose proof (fuel_suffices n ltac:(lia)) as Hf. rewrite HF in Hf.
    rewrite (Nat2Z.inj_succ (S F)), Z.pow_succ_r in Hf by lia. lia.
  - apply fuel_suffices. exact Hq.
Qed.

(** The first two of the six digits of the fractional part. *)
Lemma fraction_display_any f :
  0 <= f < 1000000 ->
  slice0 2 (padStart0 USDC_DECIMALS (to_string f)) = two_digits (f / 10000).
Proof.
  intros Hf. unfold to_string. destruct (Z.ltb_spec f 0); [lia|].
  assert (forall n, 10 <= n -> n / 10 < 10 ->
                    of_nonneg n = String (digit_char (n / 10)) (String (digit_char (n mod 10)) ""))
    as H2.
  { intros n Hn Hq. rewrite of_nonneg_snoc, of_nonneg_digit by
      (try split; try apply Z.div_pos; lia). reflexivity. }
  unfold two_digits.
  destruct (Z.lt_ge_cases f 10000) as [Hsmall|Hbig].
  - (* at most four digits: the display is 00 *)
    rewrite (Z.div_small f 10000) by lia.
    change (0 / 10) with 0. change (0 mod 10) with 0.
    destruct (Z.lt_ge_cases f 10) as [H1|H1];
      [rewrite of_nonneg_digit by lia; reflexivity|].
    rewrite (of_nonneg_snoc f) by lia.
    destruct (Z.lt_ge_cases (f / 10) 10) as [H10|H10];
      [rewrite of_nonneg_digit by (split; [apply Z.div_pos|]; lia); reflexivity|].
    rewrite (of_nonneg_snoc (f / 10)) by lia.
    destruct (Z.lt_ge_cases (f / 10 / 10) 10) as [H100|H100];
      [rewrite of_nonneg_digit by (split; [apply Z.div_pos; [apply Z.div_pos|]|]; lia);
       reflexivity|].
    rewrite (of_nonneg_snoc (f / 10 / 10)) by lia.
    assert (0 <= f / 10 / 10 / 10 < 10) as H1000.
    { split; [repeat apply Z.div_pos; lia|].
      rewrite !Z.div_div by lia. apply Z.div_lt_upper_bound; lia. }
    rewrite of_nonneg_digit by exact H1000. reflexivity.
  - assert (f / 10 / 10 / 10 / 10 = f / 10000) as Hhi by (rewrite !Z.div_div by lia; reflexivity).
    assert (1 <= f / 10000 < 100) as Hrange.
    { split; [apply Z.div_le_lower_bound; lia | apply Z.div_lt_upper_bound; lia]. }
    assert (10 <= f) by lia.
    assert (10 <= f / 10) by (apply Z.div_le_lower_bound; lia).
    assert (10 <= f / 10 / 10) by (rewrite Z.div_div by lia; apply Z.div_le_lower_bound; lia).
    assert (10 <= f / 10 / 10 / 10)
      by (rewrite !Z.div_div by lia; apply Z.div_le_lower_bound; lia).
    rewrite (of_nonneg_snoc f), (of_nonneg_snoc (f / 10)), (of_nonneg_snoc (f / 10 / 10)),
      (of_nonneg_snoc (f / 10 / 10 / 10)), Hhi by assumption.
    destruct (Z.lt_ge_cases (f / 10000) 10) as [H5|H6].
    + rewrite (of_nonneg_digit (f / 10000)) by lia.
      rewrite (Z.div_small (f / 10000) 10), (Z.mod_small (f / 10000) 10) by lia.
      reflexivity.
    + rewrite (of_nonneg_snoc (f / 10000)) by lia.
      rewrite (of_nonneg_digit (f / 10000 / 10))
        by (split; [apply Z.div_pos; lia | apply Z.div_lt_upper_bound; lia]).
      reflexivity.
Qed.

(** X14.  [formatUsdc] shows a balance cut, not rounded, to two decimals: for
    every raw amount whose whole part a double holds exactly, reading the
    text back without its separators gives the raw amount less its remainder
    modulo one hundredth of a token. *)
Theorem formatUsdc_cuts_to_cents raw :
  0 <= raw < 2 ^ 53 * 1000000 ->
  formatUsdc raw
  = (toLocaleString (raw / 1000000) ++ "." ++ two_digits (raw mod 1000000 / 10000))%string
  /\ parseUnits (remove_commas (formatUsdc raw)) USDC_DECIMALS = Some (raw - raw mod 10000).
Proof.
  intros Hraw.
  assert (0 <= raw / 1000000 < 2 ^ 53) as Hw
    by (split; [apply Z.div_pos; lia | apply Z.div_lt_upper_bound; lia]).
  pose proof (Z.mod_pos_bound raw 1000000 ltac:(lia)) as Hf.
  assert (0 <= raw mod 1000000 / 10000 < 100) as Hc
    by (split; [apply Z.div_pos; lia | apply Z.div_lt_upper_bound; lia]).
  assert (formatUsdc raw
          = (toLocaleString (raw / 1000000) ++ "."
             ++ two_digits (raw mod 1000000 / 10000))%string) as Hfmt.
  { unfold formatUsdc. change (10 ^ Z.of_nat USDC_DECIMALS) with 1000000.
    rewrite Z.quot_div_nonneg, Z.rem_mod_nonneg by lia.
    rewrite (Number_of_BigInt_exact _ Hw).
    rewrite (Number_of_BigInt_exact (raw mod 1000000))
      by (assert (1000000 < 2 ^ 53) by reflexivity; lia).
    rewrite fraction_display_any by exact Hf. reflexivity. }
  split; [exact Hfmt|].
  rewrite Hfmt. unfold toLocaleString.
  destruct (Z.ltb_spec (raw / 1000000) 0); [lia|].
  rewrite remove_commas_app, remove_commas_group3, remove_commas_two_digits
    by (try apply all_digits_of_nonneg; lia).
  fold (amount_text (raw / 1000000) (raw mod 1000000 / 10000)).
  rewrite parseUnits_two_decimals by assumption. f_equal.
  pose proof (Z.div_mod raw 1000000 ltac:(lia)).
  pose proof (Z.div_mod (raw mod 1000000) 10000 ltac:(lia)).
  assert (raw mod 10000 = (raw mod 1000000) mod 10000) as Hm.
  { symmetry. apply Z.mod_mod_divide. exists 100. reflexivity. }
  lia.
Qed.

(** Witness of [formatUsdc_cuts_to_cents]: 1234.567890 tokens. *)
Lemma formatUsdc_cuts_to_cents_witness :
  formatUsdc 1234567890 = "1,234.56"
  /\ parseUnits (remove_commas (formatUsdc 1234567890)) USDC_DECIMALS = Some 1234560000.
Proof.
  apply (formatUsdc_cuts_to_cents 1234567890). split; [lia | reflexivity].
Defined.

End UnitsMore.

(** * More properties of the bounded task observation *)

Section ObserverMore.
Import Observer Pipeline.
Variable T : Z.
Implicit Types (s : state) (schedule pre post : list (Z * event)).

Lemma armed_run pre : forall s,
  armed s -> quiet pre = true -> timer_due T pre = false ->
  armed (fold_left (step T) pre s)
  /\ (subscription s = Active \/ subscribes pre = true ->
      subscription (fold_left (step T) pre s) = Active)
  /\ (subscription s = NotSubscribed -> subscribes pre = false ->
      subscription (fold_left (step T) pre s) = NotSubscribed).
Proof.
  induction pre as [|[t ev] rest IH]; intros s Ha Hq Hdue; cbn [fold_left].
  - split; [exact Ha|]. split; [intros [H|H]; [exact H | discriminate] | auto].
  - cbn [quiet forallb snd] in Hq. apply andb_true_iff in Hq as [Hev Hq].
    cbn [timer_due existsb snd fst] in Hdue. apply orb_false_iff in Hdue as [Hnow Hdue].
    destruct Ha as (Htm & Hp & Hset & Hc & Hl & Hsub).
    assert (armed (step T s (t, ev))
            /\ (subscription s = Active -> subscription (step T s (t, ev)) = Active)
            /\ (ev = ObsTaskResolved -> subscription (step T s (t, ev)) = Active)
            /\ (subscription s = NotSubscribed -> ev <> ObsTaskResolved ->
                subscription (step T s (t, ev)) = NotSubscribed)) as (Ha' & Hact & Hres & Hnot).
    { destruct ev; try discriminate; cbn [step].
      - rewrite Htm, Hnow. unfold armed. repeat split; auto; try congruence.
      - destruct (subscription s) eqn:Hs; [| |contradiction].
        + unfold armed, record, set_subscription, count in *; cbn.
          rewrite !List.filter_app, !length_app, Hc, Hl.
          repeat split; auto; try congruence; discriminate.
        + unfold armed. rewrite Hs. repeat split; auto; try congruence; discriminate.
      - destruct (subscription s) eqn:Hs; [| |contradiction].
        + unfold armed. rewrite Hs. repeat split; auto; try congruence; discriminate.
        + unfold armed, deliver; cbn. rewrite Hs.
          repeat split; auto; try congruence; discriminate. }
    destruct (IH _ Ha' Hq Hdue) as (Hfin & Hs1 & Hs2). split; [exact Hfin|]. split.
    + intros [H|H]; apply Hs1.
      * left. apply Hact, H.
      * cbn [subscribes existsb snd] in H. apply orb_true_iff in H as [H|H].
        -- left. apply Hres. destruct ev; (reflexivity || discriminate).
        -- right. exact H.
    + intros Hn Hno. cbn [subscribes existsb snd] in Hno.
      apply orb_false_iff in Hno as [Hno1 Hno2].
      apply Hs2; [|exact Hno2]. apply Hnot; [exact Hn|]. intros ->. discriminate.
Qed.

Lemma armed_initial : armed initial.
Proof. unfold armed. repeat split; discriminate. Qed.

(** Once the subscription is closed and the timer no longer armed, nothing
    that the event loop delivers changes the state. *)
Lemma inert_step s te :
  subscription s = Closed -> timer s <> Armed -> step T s te = s.
Proof.
  intros Hs Htm. destruct te as [t ev]. destruct ev; cbn [step]; rewrite ?Hs; try reflexivity.
  destruct (timer s); [contradiction | reflexivity | reflexivity].
Qed.

Lemma inert_run post : forall s,
  subscription s = Closed -> timer s <> Armed -> fold_left (step T) post s = s.
Proof.
  induction post as [|te rest IH]; intros s Hs Htm; cbn [fold_left]; [reflexivity|].
  rewrite inert_step by assumption. apply IH; assumption.
Qed.

(** X15.  When the subscription completes or fails before the timer is due, the
    promise settles with that outcome at that time, the timer is cleared once
    and its callback never runs, and nothing delivered later changes the
    state. *)
Theorem waitForTask_first_outcome pre t ev post :
  quiet pre = true -> timer_due T pre = false -> subscribes pre = true ->
  ev = Complete \/ (exists e, ev = Failed e) ->
  let s := waitForTask T (pre ++ (t, ev) :: post) in
  s = step T (waitForTask T pre) (t, ev)
  /\ promise s = match ev with Failed e => Rejected (Forwarded e) | _ => Resolved end
  /\ settled_at s = Some t
  /\ timer s = Cleared
  /\ subscription s = Closed
  /\ count is_clear s = 1%nat
  /\ count is_timer_log s = 0%nat.
Proof.
  intros Hq Hdue Hsub Hev s.
  destruct (armed_run pre initial armed_initial Hq Hdue)
    as ((Htm & Hp & Hset & Hc & Hl & _) & Hact & _).
  specialize (Hact (or_intror Hsub)). fold (waitForTask T pre) in *.
  set (s0 := waitForTask T pre) in *.
  assert (step T s0 (t, ev)
          = {| promise := match ev with Failed e => Rejected (Forwarded e) | _ => Resolved end;
               settled_at := Some t; timer := Cleared; subscription := Closed;
               delivered := (delivered s0 ++ [(t, ev)])%list;
               calls := match ev with
                        | Failed e => ((calls s0 ++ [CallClearTimeout])
                                         ++ [CallLog "waitForTask: error";
                                             CallReject (Forwarded e)])%list
                        | _ => ((calls s0 ++ [CallClearTimeout])
                                  ++ [CallLog "waitForTask: task finalized"; CallResolve])%list
                        end |}) as Hstep.
  { destruct Hev as [-> | [e ->]]; cbn [step]; rewrite Hact;
      unfold settle, record, clearTimeout, deliver, set_subscription; cbn;
      rewrite Hp, Htm; reflexivity. }
  assert (s = step T s0 (t, ev)) as Hs.
  { unfold s, waitForTask. rewrite fold_left_app. cbn [fold_left].
    fold (waitForTask T pre). fold s0.
    apply inert_run; rewrite Hstep; cbn; [reflexivity | discriminate]. }
  split; [exact Hs|]. rewrite Hs, Hstep. cbn [promise settled_at timer subscription].
  repeat split.
  - unfold count in *; cbn [calls].
    destruct Hev as [-> | [e ->]];
      rewrite !List.filter_app, !length_app, Hc; reflexivity.
  - unfold count in *; cbn [calls].
    destruct Hev as [-> | [e ->]];
      rewrite !List.filter_app, !length_app, Hl; reflexivity.
Qed.

End ObserverMore.
Section ObserverRejected.
Import Observer Pipeline.
Variable T : Z.
Implicit Types (s : state) (schedule pre post : list (Z * event)).

(** After [obsTask] has rejected, the subscription callbacks are never
    installed: only the timer can still act. *)
Lemma unsubscribed_run post p t0 : forall s,
  subscription s = Closed -> promise s = Rejected p -> settled_at s = Some t0 ->
  count is_clear s = 0%nat ->
  (timer s = Armed /\ count is_timer_log s = 0%nat)
  \/ (timer s = Fired /\ count is_timer_log s = 1%nat) ->
  let s' := fold_left (step T) post s in
  subscription s' = Closed /\ promise s' = Rejected p /\ settled_at s' = Some t0
  /\ count is_clear s' = 0%nat /\ delivered s' = delivered s
  /\ ((timer s' = Armed /\ count is_timer_log s' = 0%nat)
      \/ (timer s' = Fired /\ count is_timer_log s' = 1%nat))
  /\ (timer s = Fired \/ timer_due T post = true <-> timer s' = Fired).
Proof.
  induction post as [|[t ev] rest IH]; intros s Hs Hp Hset Hc Htm; cbn [fold_left].
  - repeat split; auto. intros [H|H]; [exact H | discriminate].
  - assert (exists s1, step T s (t, ev) = s1
            /\ subscription s1 = Closed /\ promise s1 = Rejected p
            /\ settled_at s1 = Some t0 /\ count is_clear s1 = 0%nat
            /\ delivered s1 = delivered s
            /\ ((timer s1 = Armed /\ count is_timer_log s1 = 0%nat)
                \/ (timer s1 = Fired /\ count is_timer_log s1 = 1%nat))
            /\ (timer s = Fired
                \/ match ev with TimerElapsed => T <=? t | _ => false end = true <->
                timer s1 = Fired)) as (s1 & Hstep & Hs1 & Hp1 & Hset1 & Hc1 & Hd1 & Htm1 & Hf1).
    { eexists. split; [reflexivity|].
      destruct ev; cbn [step]; rewrite ?Hs;
        try (split; [|split; [|split; [|split; [|split; [|split]]]]]; auto;
             split; [intros [H|H]; [exact H | discriminate] | intros H; left; exact H]).
      destruct Htm as [[Ha Hl] | [Hf Hl]].
      - rewrite Ha. destruct (T <=? t) eqn:Hdue.
        + unfold settle; cbn. rewrite Hp.
          unfold count in *; cbn. rewrite !List.filter_app, !length_app, Hc, Hl.
          split; [|split; [|split; [|split; [|split; [|split]]]]]; auto.
          split; auto.
        + split; [|split; [|split; [|split; [|split; [|split]]]]]; auto.
          split; [intros [H|H]; congruence | intros H; congruence].
      - rewrite Hf. split; [|split; [|split; [|split; [|split; [|split]]]]]; auto.
        split; auto. }
    rewrite Hstep.
    destruct (IH s1 Hs1 Hp1 Hset1 Hc1 Htm1) as (H1 & H2 & H3 & H4 & H5 & H6 & H7).
    split; [|split; [|split; [|split; [|split; [|split]]]]]; auto; try congruence.
    rewrite <- H7, <- Hf1. cbn [timer_due existsb snd fst]. rewrite orb_true_iff. tauto.
Qed.

(** X16.  When [obsTask] itself rejects, the promise is rejected with that error
    and no notification is ever delivered, but the timer is not cleared:
    its callback still runs once when it comes due. *)
Theorem waitForTask_obsTask_rejected pre t e post :
  quiet pre = true -> timer_due T pre = false -> subscribes pre = false ->
  let s := waitForTask T (pre ++ (t, ObsTaskRejected e) :: post) in
  promise s = Rejected (Forwarded e)
  /\ settled_at s = Some t
  /\ subscription s = Closed
  /\ delivered s = []
  /\ count is_clear s = 0%nat
  /\ (timer_due T post = true -> timer s = Fired /\ count is_timer_log s = 1%nat)
  /\ (timer_due T post = false -> timer s = Armed /\ count is_timer_log s = 0%nat).
Proof.
  intros Hq Hdue Hsub s.
  destruct (armed_run T pre initial armed_initial Hq Hdue)
    as ((Htm & Hp & Hset & Hc & Hl & _) & _ & Hnot).
  specialize (Hnot eq_refl Hsub). fold (waitForTask T pre) in *.
  set (s0 := waitForTask T pre) in *.
  assert (delivered s0 = []) as Hd0.
  { clear -Hq Hsub. unfold s0, waitForTask.
    assert (forall s, subscription s = NotSubscribed -> delivered s = [] ->
                      delivered (fold_left (step T) pre s) = []) as H.
    { induction pre as [|[t ev] rest IH]; intros s Hs Hd; cbn [fold_left]; [exact Hd|].
      cbn [quiet forallb snd] in Hq. apply andb_true_iff in Hq as [Hev Hq].
      cbn [subscribes existsb snd] in Hsub. apply orb_false_iff in Hsub as [Hno Hsub].
      apply (IH Hq Hsub); destruct ev; try discriminate; cbn [step]; rewrite ?Hs; auto;
        destruct (timer s); auto; destruct (T <=? t); auto;
        unfold settle; cbn; destruct (promise s); auto. }
    apply H; reflexivity. }
  set (s1 := step T s0 (t, ObsTaskRejected e)).
  assert (subscription s1 = Closed /\ promise s1 = Rejected (Forwarded e)
          /\ settled_at s1 = Some t /\ count is_clear s1 = 0%nat
          /\ timer s1 = Armed /\ count is_timer_log s1 = 0%nat
          /\ delivered s1 = []) as (Hs1 & Hp1 & Hset1 & Hc1 & Htm1 & Hl1 & Hd1).
  { unfold s1; cbn [step]. rewrite Hnot. unfold settle; cbn. rewrite Hp.
    unfold count in *; cbn. rewrite !List.filter_app, !length_app, Hc, Hl.
    repeat split; auto. }
  assert (s = fold_left (step T) post s1) as Hs.
  { unfold s, waitForTask. rewrite fold_left_app. reflexivity. }
  rewrite Hs. clear Hs s.
  destruct (unsubscribed_run post (Forwarded e) t s1 Hs1 Hp1 Hset1 Hc1 (or_introl (conj Htm1 Hl1)))
    as (H1 & H2 & H3 & H4 & H5 & H6 & H7).
  split; [exact H2|]. split; [exact H3|]. split; [exact H1|].
  split; [congruence|]. split; [exact H4|]. split.
  - intros Hd.
    assert (timer (fold_left (step T) post s1) = Fired) as Hf by (apply H7; right; exact Hd).
    split; [exact Hf|]. destruct H6 as [[Ha _]|[_ Hl']]; [congruence | exact Hl'].
  - intros Hnd. destruct H6 as [[Ha Hl']|[Hf _]]; [split; assumption|].
    apply H7 in Hf as [Hf|Hf]; congruence.
Qed.

End ObserverRejected.

Section ObserverMoreExamples.
Import Observer.

(** Witness of [waitForTask_first_outcome]: a task that completes after
    one minute; the timer event that follows finds the timer cleared. *)
Lemma waitForTask_first_outcome_witness :
  promise (waitForTask 600000
             ([(5, ObsTaskResolved); (100, Next)]
                ++ (60000, Complete) :: [(600000, TimerElapsed)]))
  = Resolved.
Proof.
  assert (Complete = Complete \/ (exists e, Complete = Failed e)) as Hev
    by (left; reflexivity).
  destruct (waitForTask_first_outcome 600000
              [(5, ObsTaskResolved); (100, Next)] 60000 Complete [(600000, TimerElapsed)]
              eq_refl eq_refl eq_refl Hev) as (_ & Hp & _).
  exact Hp.
Defined.

(** Witness of [waitForTask_obsTask_rejected]: [obsTask] rejects after five
    milliseconds and the timer comes due at ten minutes. *)
Lemma waitForTask_obsTask_rejected_witness :
  count is_timer_log
    (waitForTask 600000 ([] ++ (5, ObsTaskRejected "no such task")
                             :: [(600000, TimerElapsed)])) = 1%nat.
Proof.
  destruct (waitForTask_obsTask_rejected 600000 [] 5 "no such task" [(600000, TimerElapsed)]
              eq_refl eq_refl eq_refl) as (_ & _ & _ & _ & _ & Hdue & _).
  apply Hdue. reflexivity.
Defined.

End ObserverMoreExamples.

(** * The submission of a settlement task *)

Section PipelineFacts.
Import Config Pipeline.
Implicit Types (cfg : config) (lib : iexec) (url : string) (log : list sdk_call).

(** One answer of the client at a time. *)
Ltac answer H :=
  match type of H with
  | context [match ?x with Returned _ => _ | Thrown _ => _ end] =>
    let E := fresh "Hcall" in destruct x eqn:E
  end.

Ltac run_task H :=
  unfold runSettlementTask, bind, lift, await, throw, ret in H; cbn [app] in H;
  repeat (first [ answer H
                | match type of H with
                  | context [negb ?b] => destruct b; cbn [negb] in H
                  | context [match ?l with [] => _ | _ :: _ => _ end] =>
                    let E := fresh "Hbook" in destruct l eqn:E
                  end ]; cbn [app] in H).

(** Every request order that the function creates names the given URL, and
    nothing else, as its input file. *)
Lemma runSettlementTask_input cfg lib url out log :
  runSettlementTask cfg lib url [] = (out, log) ->
  forall params, In (CreateRequestorder params) log -> iexec_input_files params = [url].
Proof.
  intros H params Hin. run_task H; injection H as <- <-; cbn [In] in Hin;
    try contradiction;
    repeat (destruct Hin as [Hin|Hin]; try discriminate; try contradiction);
    injection Hin as <-; reflexivity.
Qed.

(** X17.  The function matches orders at most once, after it has found the app
    deployed; the app order it matches was created for the configured app
    and restricted to the address of the wallet, the workerpool order is the
    first of the order book it fetched, and the request order was created
    for the given URL alone,
    without dataset, for one task, with the app price and the workerpool
    price of the matched orders as its maximum prices.  When it returns, the
    deal is the one the match answered and the task is the first of that
    deal. *)
Theorem runSettlementTask_matches cfg lib url out log :
  runSettlementTask cfg lib url [] = (out, log) ->
  (length (List.filter is_match log) <= 1)%nat
  /\ (forall a w r, In (MatchOrders a w r) log ->
        checkDeployedApp lib (appAddress cfg) = Returned true
        /\ (exists q rest, In (FetchWorkerpoolOrderbook q) log
              /\ q_app q = appAddress cfg /\ q_workerpool q = workerpool (the_chain cfg)
              /\ fetchWorkerpoolOrderbook lib q = Returned (w :: rest))
        /\ (exists user request template,
              new_Wallet lib (privateKey cfg) = Returned user
              /\ In (CreateApporder request) log
              /\ ar_app request = appAddress cfg
              /\ ar_requesterrestrict request = user
              /\ createApporder lib request = Returned template
              /\ signApporder lib template = Returned a)
        /\ exists params created,
             In (CreateRequestorder params) log
             /\ createRequestorder lib params = Returned created
             /\ signRequestorder lib created = Returned r
             /\ ro_app params = appAddress cfg
             /\ iexec_input_files params = [url]
             /\ ro_dataset params = ZeroAddress
             /\ ro_datasetmaxprice params = 0
             /\ ro_volume params = 1
             /\ ro_category params = category w
             /\ ro_appmaxprice params = appprice a
             /\ ro_workerpoolmaxprice params = workerpoolprice w)
  /\ (forall s, out = Returned s ->
        exists a w r, In (MatchOrders a w r) log
          /\ matchOrders lib a w r = Returned (dealId s)
          /\ computeTaskId lib (dealId s) 0 = Returned (taskId s)).
Proof.
  intros H. run_task H; injection H as <- <-.
  all: split; [cbn; lia|].
  all: split;
    [ intros ma mw mr Hin; cbn [In] in Hin; try contradiction;
      repeat (destruct Hin as [Hin|Hin]; try discriminate; try contradiction)
    | intros s Hs; try discriminate ].
  - injection Hin as <- <- <-. split; [reflexivity|]. split.
    { eexists _, _. split; [cbn [In]; eauto 10|]. cbn. repeat split. eassumption. }
    split.
    { eexists _, _, _. split; [reflexivity|]. split; [cbn [In]; eauto 10|].
      cbn. repeat split; eassumption. }
    eexists _, _. split; [cbn [In]; eauto 10|]. cbn. repeat split; eassumption.
  - injection Hs as <-. eexists _, _, _. split; [cbn [In]; eauto 10|]. cbn.
    split; assumption.
  - injection Hin as <- <- <-. split; [reflexivity|]. split.
    { eexists _, _. split; [cbn [In]; eauto 10|]. cbn. repeat split. eassumption. }
    split.
    { eexists _, _, _. split; [reflexivity|]. split; [cbn [In]; eauto 10|].
      cbn. repeat split; eassumption. }
    eexists _, _. split; [cbn [In]; eauto 10|]. cbn. repeat split; eassumption.
  - injection Hin as <- <- <-. split; [reflexivity|]. split.
    { eexists _, _. split; [cbn [In]; eauto 10|]. cbn. repeat split. eassumption. }
    split.
    { eexists _, _, _. split; [reflexivity|]. split; [cbn [In]; eauto 10|].
      cbn. repeat split; eassumption. }
    eexists _, _. split; [cbn [In]; eauto 10|]. cbn. repeat split; eassumption.
Qed.

(** X18.  With no workerpool order on offer the function throws, and creates,
    signs and matches no request order. *)
Theorem runSettlementTask_empty_orderbook cfg lib url out log :
  (forall q, fetchWorkerpoolOrderbook lib q = Returned []) ->
  runSettlementTask cfg lib url [] = (out, log) ->
  (exists m, out = Thrown m)
  /\ Forall (fun c => after_orderbook c = false) log
  /\ (In (FetchWorkerpoolOrderbook
            {| q_workerpool := workerpool (the_chain cfg); q_app := appAddress cfg;
               q_minTag := SCONE_TAG; q_maxTag := SCONE_TAG; q_minVolume := 1 |}) log ->
      out = Thrown "No workerpool order found. Try again later.").
Proof.
  intros Hnone H. run_task H; injection H as <- <-;
    try (rewrite Hnone in *; discriminate).
  all: split; [eexists; reflexivity|].
  all: split; [repeat constructor|].
  all: intros Hin; cbn [In] in Hin; try contradiction;
    repeat (destruct Hin as [Hin|Hin]; try discriminate; try contradiction).
  reflexivity.
Qed.

End PipelineFacts.

Section PipelineExamples.
Import Config Pipeline.

(** Witness of [runSettlementTask_matches]: on the sample network the match
    uses the prices 3 and 7 of the orders. *)
Lemma runSettlementTask_matches_witness :
  exists a w r, matchOrders Runs.willing a w r = Returned "0xdeal"
                /\ In (MatchOrders a w r)
                      (snd (runSettlementTask Runs.cfg Runs.willing "https://data/x.json" [])).
Proof.
  destruct (runSettlementTask_matches Runs.cfg Runs.willing "https://data/x.json"
              _ _ eq_refl) as (_ & _ & Hret).
  destruct (Hret _ eq_refl) as (a & w & r & Hin & Hm & _).
  exists a, w, r. split; [exact Hm | exact Hin].
Defined.

(** Witness of [runSettlementTask_empty_orderbook]: the sample network with
    an empty order book. *)
Lemma runSettlementTask_empty_orderbook_witness :
  fst (runSettlementTask Runs.cfg Runs.no_offer "https://data/x.json" [])
  = Thrown "No workerpool order found. Try again later.".
Proof.
  destruct (runSettlementTask_empty_orderbook Runs.cfg Runs.no_offer "https://data/x.json"
              _ _ (fun _ => eq_refl) eq_refl) as (_ & _ & Hout).
  apply Hout. cbn. auto 10.
Defined.

End PipelineExamples.

(** * The routes that run and await a settlement task *)

Section RunRouteFacts.
Import Config Pipeline.
Implicit Types (cfg : config) (lib : iexec) (net : Fetcher.network).
Implicit Types (schedule pre post : list (Z * Observer.event)).

(** The calls of [runSettlementAndWait] are those of the submission. *)
Lemma runSettlementAndWait_calls cfg lib net schedule url :
  snd (runSettlementAndWait cfg lib net schedule url)
  = snd (runSettlementTask cfg lib url []).
Proof.
  unfold runSettlementAndWait.
  destruct (runSettlementTask cfg lib url []) as [[s|m] log]; [|reflexivity].
  destruct (new_Wallet lib (privateKey cfg)); [|reflexivity].
  destruct (awaited _ schedule) as [[[]|m]|]; try reflexivity.
  destruct (Fetcher.fetchTaskResult net (taskId s)); reflexivity.
Qed.

(** A submission that returns has built its wallet. *)
Lemma runSettlementTask_wallet cfg lib url s :
  fst (runSettlementTask cfg lib url []) = Returned s ->
  exists user, new_Wallet lib (privateKey cfg) = Returned user.
Proof.
  unfold runSettlementTask, bind, lift.
  destruct (new_Wallet lib (privateKey cfg)) as [user|m]; [eauto | discriminate].
Qed.

(** The calls of the route are those of one submission of the trimmed
    URL, which then is an HTTP(S) URL, or none. *)
Lemma postRun_calls cfg lib net schedule body :
  snd (postRun cfg lib net schedule body) = []
  \/ exists raw, datasetUrl body = Execute.Text raw
       /\ is_http (trim raw) = true
       /\ snd (postRun cfg lib net schedule body)
          = snd (runSettlementTask cfg lib (trim raw) []).
Proof.
  unfold postRun. destruct (datasetUrl body) as [| |raw|]; try (left; reflexivity).
  destruct (String.eqb raw ""); [left; reflexivity|].
  destruct (is_http (trim raw)) eqn:Hhttp; cbn [negb]; [|left; reflexivity].
  right. exists raw. split; [reflexivity|]. split; [exact Hhttp|].
  destruct (wait body).
  - rewrite <- (runSettlementAndWait_calls cfg lib net schedule (trim raw)).
    destruct (runSettlementAndWait cfg lib net schedule (trim raw)) as [[[r|m]|] log];
      reflexivity.
  - destruct (runSettlementTask cfg lib (trim raw) []) as [[s|m] log]; reflexivity.
Qed.

(** X19.  For a body whose [datasetUrl], when a string, is ASCII text: the
    route calls the compute network only if [datasetUrl] is a string that,
    trimmed, starts with [http://] or [https://]; every request order it
    creates names that trimmed URL as its only input file; and any other body
    is answered 400 without a call. *)
Theorem postRun_url_guard cfg lib net schedule body reply log :
  (forall raw, datasetUrl body = Execute.Text raw -> ascii_text raw = true) ->
  postRun cfg lib net schedule body = (reply, log) ->
  (forall c, In c log ->
     exists raw, datasetUrl body = Execute.Text raw /\ is_http (trim raw) = true)
  /\ (forall params, In (CreateRequestorder params) log ->
        exists raw, datasetUrl body = Execute.Text raw
                    /\ iexec_input_files params = [trim raw])
  /\ ((forall raw, datasetUrl body = Execute.Text raw -> is_http (trim raw) = false) ->
      log = [] /\ exists m, reply = Some (RunError 400 m)).
Proof.
  intros _ Hrun.
  assert (snd (postRun cfg lib net schedule body) = log) as Hlog by (rewrite Hrun; reflexivity).
  destruct (postRun_calls cfg lib net schedule body) as [Hnil | (raw & Hraw & Hhttp & Hcalls)].
  - rewrite Hnil in Hlog. subst log. split; [intros c []|]. split; [intros p []|].
    intros Hbad. split; [reflexivity|].
    unfold postRun in Hrun. destruct (datasetUrl body) as [| |raw|];
      try (injection Hrun as <-; eexists; reflexivity).
    destruct (String.eqb raw ""); [injection Hrun as <-; eexists; reflexivity|].
    rewrite (Hbad raw eq_refl) in Hrun. cbn [negb] in Hrun.
    injection Hrun as <-. eexists; reflexivity.
  - split; [intros c _; exists raw; split; assumption|]. split.
    + intros params Hin. exists raw. split; [exact Hraw|].
      rewrite Hcalls in Hlog.
      destruct (runSettlementTask cfg lib (trim raw) []) as [out log'] eqn:Htask.
      cbn [snd] in Hlog. subst log'.
      exact (runSettlementTask_input _ _ _ _ _ Htask params Hin).
    + intros Hbad. rewrite (Hbad raw Hraw) in Hhttp. discriminate.
Qed.

(** The promise of a quiet observation whose timer has come due is rejected
    with the timeout. *)
Lemma awaited_timeout T schedule :
  Observer.quiet schedule = true -> Observer.timer_due T schedule = true ->
  awaited T schedule = Some (Thrown "Task observation timeout").
Proof.
  intros Hq Hdue. unfold awaited, Observer.waitForTask.
  destruct (waiting_run T schedule Observer.initial (waiting_initial T) Hq)
    as ((_ & _ & Hw) & _ & Hfired).
  specialize (Hfired (or_intror Hdue)).
  destruct Hw as [[Ha _] | (_ & -> & _)]; [congruence | reflexivity].
Qed.

(** The promise of an observation that completes before its timer is due
    is resolved, whatever comes later. *)
Lemma awaited_complete T pre t post :
  Observer.quiet pre = true -> Observer.timer_due T pre = false ->
  Observer.subscribes pre = true ->
  awaited T (pre ++ (t, Observer.Complete) :: post) = Some (Returned tt).
Proof.
  intros Hq Hdue Hsub. unfold awaited, Observer.waitForTask.
  rewrite fold_left_app. cbn [fold_left].
  destruct (armed_run T pre Observer.initial armed_initial Hq Hdue)
    as ((Htm & Hp & _) & Hact & _).
  specialize (Hact (or_intror Hsub)).
  set (s0 := fold_left (Observer.step T) pre Observer.initial) in *.
  rewrite (settled_run T post).
  - cbn [Observer.step]. rewrite Hact. unfold Observer.settle; cbn. rewrite Hp. reflexivity.
  - cbn [Observer.step]. rewrite Hact. unfold Observer.settle; cbn. rewrite Hp. discriminate.
Qed.

(** X20.  [POST /settlement/wait/:taskId] answers 400 unless both the task and
    the deal are given.  Given both, a key from which no wallet can be built
    is answered 500; otherwise a quiet observation whose timer comes due is
    answered 500 with the timeout message whatever the compute network
    would report about the task, and an observation that completes first is
    answered with the status and result that [fetchTaskResult] gives for the
    task, or 500 with its error. *)
Theorem postWait_outcomes cfg lib net schedule (taskId : js string) (dealId : deal_value) :
  (truthy taskId && given dealId = false ->
   postWait cfg lib net schedule taskId dealId
   = Some (Fetcher.ResultError 400 "Missing taskId or dealId"))
  /\ (truthy taskId && given dealId = true ->
      (forall m, new_Wallet lib (privateKey cfg) = Thrown m ->
         postWait cfg lib net schedule taskId dealId
         = Some (Fetcher.ResultError 500
                   (if String.eqb m "" then "Failed to wait for task" else m)))
      /\ (forall user, new_Wallet lib (privateKey cfg) = Returned user ->
           (Observer.quiet schedule = true ->
            Observer.timer_due (TASK_OBSERVATION_TIMEOUT_MS cfg) schedule = true ->
            postWait cfg lib net schedule taskId dealId
            = Some (Fetcher.ResultError 500 "Task observation timeout"))
           /\ (forall pre t post,
                 schedule = (pre ++ (t, Observer.Complete) :: post)%list ->
                 Observer.quiet pre = true ->
                 Observer.timer_due (TASK_OBSERVATION_TIMEOUT_MS cfg) pre = false ->
                 Observer.subscribes pre = true ->
                 exists tid, taskId = js_val tid /\
                 postWait cfg lib net schedule taskId dealId
                 = Some match Fetcher.fetchTaskResult net tid with
                        | Returned r =>
                          Fetcher.ResultOk tid (Fetcher.r_status r) (Fetcher.r_result r)
                        | Thrown m =>
                          Fetcher.ResultError 500
                            (if String.eqb m "" then "Failed to wait for task" else m)
                        end))).
Proof.
  split.
  - intros Hmiss. unfold postWait.
    apply andb_false_iff in Hmiss as [-> | ->]; cbn [negb orb]; [reflexivity|].
    rewrite orb_true_r. reflexivity.
  - intros Hboth. apply andb_true_iff in Hboth as [Ht Hd].
    unfold postWait. rewrite Ht, Hd. cbn [negb orb]. split.
    + intros m ->. reflexivity.
    + intros user ->. split.
      * intros Hq Hdue. rewrite (awaited_timeout _ _ Hq Hdue). reflexivity.
      * intros pre t post -> Hq Hdue Hsub.
        rewrite (awaited_complete _ _ t post Hq Hdue Hsub).
        destruct taskId as [| |tid]; try discriminate. exists tid. split; [reflexivity|].
        cbn [nullish].
        destruct (Fetcher.fetchTaskResult net tid) as [r|m]; reflexivity.
Qed.

(** X21.  [runSettlementAndWait] makes the calls of one submission and no other.
    When the submission throws, so does it, whatever the observation would
    bring.  When the submission returns, a quiet observation whose timer
    comes due makes it throw the timeout whatever the compute network would
    report about the task, and an observation that completes first makes it
    return the deal and task of the submission with the result that
    [fetchTaskResult] gives for that task. *)
Theorem runSettlementAndWait_outcomes cfg lib net schedule url :
  snd (runSettlementAndWait cfg lib net schedule url)
  = snd (runSettlementTask cfg lib url [])
  /\ (forall m, fst (runSettlementTask cfg lib url []) = Thrown m ->
        fst (runSettlementAndWait cfg lib net schedule url) = Some (Thrown m))
  /\ (forall s, fst (runSettlementTask cfg lib url []) = Returned s ->
        (Observer.quiet schedule = true ->
         Observer.timer_due (TASK_OBSERVATION_TIMEOUT_MS cfg) schedule = true ->
         fst (runSettlementAndWait cfg lib net schedule url)
         = Some (Thrown "Task observation timeout"))
        /\ (forall pre t post,
              schedule = (pre ++ (t, Observer.Complete) :: post)%list ->
              Observer.quiet pre = true ->
              Observer.timer_due (TASK_OBSERVATION_TIMEOUT_MS cfg) pre = false ->
              Observer.subscribes pre = true ->
              fst (runSettlementAndWait cfg lib net schedule url)
              = Some match Fetcher.fetchTaskResult net (taskId s) with
                     | Returned r =>
                       Returned {| run_dealId := dealId s; run_taskId := taskId s;
                                   run_result_json := Fetcher.r_result r |}
                     | Thrown m => Thrown m
                     end)).
Proof.
  split; [apply runSettlementAndWait_calls|].
  pose proof (runSettlementTask_wallet cfg lib url) as Hwallet.
  unfold runSettlementAndWait.
  destruct (runSettlementTask cfg lib url []) as [[s0|m0] log]; cbn [fst] in *; split;
    try (intros ? [=]; subst; try reflexivity).
  destruct (Hwallet s eq_refl) as [user ->].
  split.
  - intros Hq Hdue. rewrite (awaited_timeout _ _ Hq Hdue). reflexivity.
  - intros pre t post -> Hq Hdue Hsub. rewrite (awaited_complete _ _ t post Hq Hdue Hsub).
    destruct (Fetcher.fetchTaskResult net (taskId s)) as [r|m]; reflexivity.
Qed.

End RunRouteFacts.

Section RunRouteExamples.
Import Config Pipeline.

(** Witness of [postRun_url_guard]: a URL without scheme is refused
    without a call. *)
Lemma postRun_url_guard_witness :
  snd (postRun Runs.cfg Runs.willing (Samples.network_reporting js_undefined)
         Samples.silent_task {| datasetUrl := Execute.Text " data/x.json "; wait := false |})
  = [].
Proof.
  destruct (postRun_url_guard Runs.cfg Runs.willing (Samples.network_reporting js_undefined)
              Samples.silent_task
              {| datasetUrl := Execute.Text " data/x.json "; wait := false |} _ _
              (fun raw H => match H in _ = p return
                                  match p with
                                  | Execute.Text r => ascii_text r = true
                                  | _ => True
                                  end
                            with eq_refl => eq_refl end)
              eq_refl)
    as (_ & _ & Hbad).
  apply Hbad. intros raw [= <-]. reflexivity.
Defined.

(** Witness of [postWait_outcomes]: the silent task times out. *)
Lemma postWait_outcomes_witness :
  postWait Runs.cfg Runs.willing (Samples.network_reporting (js_val (Fetcher.Code 3)))
    Samples.silent_task (js_val "0xtask") (DealText "0xdeal")
  = Some (Fetcher.ResultError 500 "Task observation timeout").
Proof.
  destruct (postWait_outcomes Runs.cfg Runs.willing
              (Samples.network_reporting (js_val (Fetcher.Code 3)))
              Samples.silent_task (js_val "0xtask") (DealText "0xdeal")) as (_ & Hboth).
  destruct (Hboth eq_refl) as (_ & Hwallet).
  destruct (Hwallet "0xrequester" eq_refl) as (Htimeout & _).
  apply Htimeout; reflexivity.
Defined.

(** Witness of [runSettlementAndWait_outcomes]: the task of the sample
    network completes, and its status is not yet reported as completed. *)
Lemma runSettlementAndWait_outcomes_witness :
  fst (runSettlementAndWait Runs.cfg Runs.willing (Samples.network_reporting js_undefined)
         Runs.finished_task "https://data/x.json")
  = Some (Returned {| run_dealId := "0xdeal"; run_taskId := "0xtask";
                      run_result_json := JNull |}).
Proof.
  destruct (runSettlementAndWait_outcomes Runs.cfg Runs.willing
              (Samples.network_reporting js_undefined) Runs.finished_task
              "https://data/x.json") as (_ & _ & Hret).
  destruct (Hret _ eq_refl) as (_ & Hdone).
  exact (Hdone [(5, Observer.ObsTaskResolved); (100, Observer.Next)] 60000
               [(600000, Observer.TimerElapsed)] eq_refl eq_refl eq_refl eq_refl).
Defined.

End RunRouteExamples.

(** * The amounts that the settlement route submits *)

Section ExecuteMore.
Import Decimal Units Execute.
Implicit Types (lib : ethers) (cfg : execute_config) (body : execute_body).

Lemma read_digits_nonneg s : forall acc v,
  0 <= acc -> read_digits acc s = Some v -> 0 <= v.
Proof.
  induction s as [|c rest IH]; intros acc v Hacc H; cbn [read_digits] in H.
  - injection H as <-. exact Hacc.
  - destruct (is_digit c) eqn:Hd; [|discriminate].
    refine (IH _ _ _ H).
    unfold is_digit in Hd. apply andb_true_iff in Hd as [Hlo _].
    apply Nat.leb_le in Hlo. unfold digit_value. lia.
Qed.

(** A number that is not written with a minus sign parses to a
    non-negative amount below [2^511]. *)
Lemma parseUnits_nonneg text decimals v :
  startsWith "-" text = false -> parseUnits text decimals = Some v -> 0 <= v < 2 ^ 511.
Proof.
  intros Hsign H. unfold parseUnits in H.
  assert (split_sign text = (false, text)) as Hs.
  { destruct text as [|c rest]; [reflexivity|]. cbn [split_sign].
    unfold startsWith in Hsign. cbn in Hsign.
    destruct (Ascii.eqb c "-") eqn:Hc; [|reflexivity].
    apply Ascii.eqb_eq in Hc. subst c. cbn in Hsign.
    destruct rest; discriminate. }
  rewrite Hs in H.
  destruct (split_fraction text) as [[whole decimal]|]; [|discriminate].
  destruct (String.length whole + String.length decimal =? 0)%nat; [discriminate|].
  destruct (negb (all_zeros (drop decimals (pad_zeros decimals decimals decimal))));
    [discriminate|].
  destruct (read_digits 0 _) as [v0|] eqn:Hr; [|discriminate].
  destruct ((- 2 ^ 511 <=? v0) && (v0 <? 2 ^ 511)) eqn:Hfit; [|discriminate].
  injection H as <-. apply andb_true_iff in Hfit as [_ Hhi]. apply Z.ltb_lt in Hhi.
  split; [|exact Hhi]. exact (read_digits_nonneg _ 0 v0 ltac:(lia) Hr).
Qed.

Lemma to_wei_all_amounts lib ams l :
  to_wei_all lib ams = inr l ->
  Forall2 (fun a v => exists text, value a = Finite text
                        /\ parseUnits text USDC_DECIMALS = Some v
                        /\ 0 <= v < 2 ^ 511) ams l.
Proof.
  revert l. induction ams as [|a rest IH]; intros l H; cbn [to_wei_all] in H.
  - injection H as <-. constructor.
  - destruct (invalid_amount (value a)) eqn:Hinv; [discriminate|].
    destruct (value a) as [| | |text] eqn:Hv; try discriminate.
    destruct (parseUnits text USDC_DECIMALS) as [v|] eqn:Hp; [|discriminate].
    destruct (to_wei_all lib rest) as [e|l']; [discriminate|].
    injection H as <-. constructor; [|apply IH; reflexivity].
    exists text. split; [exact Hv|]. split; [exact Hp|].
    apply (parseUnits_nonneg text USDC_DECIMALS); [|exact Hp].
    cbn [invalid_amount] in Hinv. exact Hinv.
Qed.

(** X22.  Whatever the route passes to [settleBatch] has as many amounts as
    recipients, at least one, and every amount is the number of the body at
    the same position converted to six decimals: never negative, and below
    [2^511]. *)
Theorem postExecute_amounts lib cfg body sub :
  snd (postExecute lib (Some cfg) body) = Some sub ->
  length (sent_amounts sub) = length (sent_recipients sub)
  /\ (0 < length (sent_recipients sub))%nat
  /\ exists ams, amounts body = Some ams
       /\ Forall2 (fun a v => exists text, value a = Finite text
                               /\ parseUnits text USDC_DECIMALS = Some v
                               /\ 0 <= v < 2 ^ 511) ams (sent_amounts sub).
Proof.
  intros Hsent.
  destruct (structurally_invalid body) eqn:Hs.
  { destruct (postExecute_rejected lib cfg body Hs) as [msg Hm].
    rewrite Hm in Hsent. discriminate. }
  unfold structurally_invalid in Hs.
  destruct (recipients body) as [rs|] eqn:Hr; [|discriminate].
  destruct (amounts body) as [ams|] eqn:Ha; [|discriminate].
  destruct (attestation body) as [att|] eqn:Hat;
    [|rewrite orb_true_r in Hs; discriminate].
  assert (structurally_invalid body = false) as Hs'.
  { unfold structurally_invalid. rewrite Hr, Ha, Hat. exact Hs. }
  apply orb_false_iff in Hs as [Hs Hone]. apply orb_false_iff in Hs as [Hlen _].
  apply negb_false_iff, Nat.eqb_eq in Hlen. apply Nat.eqb_neq in Hone.
  rewrite (postExecute_checked lib cfg body rs ams att Hr Ha Hat Hs') in Hsent.
  destruct (prepare lib cfg rs ams att) as [err|sub'] eqn:Hp; [discriminate|].
  assert (sub' = sub) as ->.
  { destruct (settleBatch lib cfg sub'); cbn in Hsent; congruence. }
  destruct (prepare_ok _ _ _ _ _ _ Hp) as (Hrec & _).
  unfold prepare in Hp.
  destruct (checksum_all lib rs) as [e|l]; [discriminate|].
  destruct (new_Wallet lib (privateKey cfg)); [discriminate|].
  destruct (to_wei_all lib ams) as [e|w] eqn:Hw; [discriminate|].
  destruct (getBytes att); [|discriminate].
  injection Hp as <-. cbn [sent_amounts sent_recipients] in *.
  pose proof (to_wei_all_amounts lib ams w Hw) as Hall.
  pose proof (Forall2_length _ _ _ Hall) as Hwl.
  rewrite Hrec, length_map.
  split; [lia|]. split; [lia|]. exists ams. split; [reflexivity | exact Hall].
Qed.

(** Witness of [postExecute_amounts]: scenario B submits as many amounts as
    recipients. *)
Lemma postExecute_amounts_witness :
  length (sent_amounts Samples.scenario_B_sent)
  = length (sent_recipients Samples.scenario_B_sent).
Proof.
  exact (proj1 (postExecute_amounts (Samples.rejecting "0xf4d678b8") Samples.executor
                  Samples.scenario_B Samples.scenario_B_sent eq_refl)).
Defined.

End ExecuteMore.

Section RevertFacts.
Import Execute.

Lemma substring_lower s : forall n m,
  toLowerCase (String.substring n m s) = String.substring n m (toLowerCase s).
Proof.
  induction s as [|c rest IH]; intros n m.
  - destruct n, m; reflexivity.
  - destruct n as [|n]; [destruct m as [|m]|]; cbn [String.substring toLowerCase];
      rewrite ?IH; reflexivity.
Qed.

(** X23.  The decoding of a revert reads the selector without regard to the case
    of its hexadecimal digits: two errors whose data start with [0x] and are
    equal up to case are decoded alike, and a decoded message is one of the
    three that the route knows. *)
Theorem decodeSettlementRevert_ignores_case err err' d d' :
  revert_data err = Text d -> revert_data err' = Text d' ->
  startsWith "0x" d = true -> startsWith "0x" d' = true ->
  toLowerCase d = toLowerCase d' ->
  decodeSettlementRevert err = decodeSettlementRevert err'
  /\ (forall m, decodeSettlementRevert err = Some m ->
        m = INSUFFICIENT_TREASURY \/ m = ALREADY_SETTLED \/ m = UNAUTHORIZED_EXECUTOR).
Proof.
  intros Hd Hd' Hp Hp' Hcase. unfold decodeSettlementRevert.
  rewrite Hd, Hd', Hp, Hp'. cbn [negb]. unfold slice0.
  rewrite !substring_lower, Hcase. split; [reflexivity|].
  intros m.
  destruct (String.eqb _ "0xf4d678b8"); [intros [= <-]; auto|].
  destruct (String.eqb _ "0x17ee279c"); [intros [= <-]; auto|].
  destruct (String.eqb _ "0x7fb6be02"); [intros [= <-]; auto | discriminate].
Qed.

(** Witness of [decodeSettlementRevert_ignores_case]: the selector of an
    empty treasury in capitals. *)
Lemma decodeSettlementRevert_ignores_case_witness :
  decodeSettlementRevert
    {| data := Text "0xF4D678B8"; info_error_data := Absent; reason := js_undefined;
       shortMessage := js_undefined; message := js_undefined |}
  = Some INSUFFICIENT_TREASURY.
Proof.
  rewrite (proj1 (decodeSettlementRevert_ignores_case
                    {| data := Text "0xF4D678B8"; info_error_data := Absent;
                       reason := js_undefined; shortMessage := js_undefined;
                       message := js_undefined |}
                    {| data := Text "0xf4d678b8"; info_error_data := Absent;
                       reason := js_undefined; shortMessage := js_undefined;
                       message := js_undefined |}
                    "0xF4D678B8" "0xf4d678b8" eq_refl eq_refl eq_refl eq_refl eq_refl)).
  reflexivity.
Defined.

End RevertFacts.

(** * The rate limit of the faucet *)

Section FaucetFacts.
Import Faucet.
Implicit Types (lib : ethers) (env : faucet_env) (st : state).

(** A request either leaves the state alone, or passes every check and
    records its time for its address; it then makes one mint call, unless no
    wallet can be built from the key. *)
Lemma postFaucet_step lib env st now address reply st' :
  postFaucet lib env st now address = (reply, st') ->
  (attempted reply = false /\ st' = st)
  \/ (attempted reply = true
      /\ exists addr,
           address = Execute.Text addr /\ addr <> ""
           /\ isAddress lib (trim addr) = true
           /\ (forall last, addressLastRequest st !! toLowerCase (trim addr) = Some last ->
                            RATE_LIMIT_MS <= now - last)
           /\ addressLastRequest st'
              = <[toLowerCase (trim addr) := now]> (addressLastRequest st)
           /\ (minted st' = minted st
               \/ minted st' = (minted st ++ [{| mint_at := now; mint_to := trim addr;
                                                 mint_amount := amount |}])%list)).
Proof.
  unfold postFaucet. intros H.
  destruct (getFaucetConfig env) as [config|]; [|injection H as <- <-; left; split; reflexivity].
  destruct address as [| |addr|]; try (injection H as <- <-; left; split; reflexivity).
  destruct (String.eqb addr "") eqn:Hempty; [injection H as <- <-; left; split; reflexivity|].
  destruct (isAddress lib (trim addr)) eqn:Hvalid; cbn [negb] in H;
    [|injection H as <- <-; left; split; reflexivity].
  assert (match addressLastRequest st !! toLowerCase (trim addr) with
          | Some last => now - last <? RATE_LIMIT_MS
          | None => false
          end = false ->
          forall last, addressLastRequest st !! toLowerCase (trim addr) = Some last ->
                       RATE_LIMIT_MS <= now - last) as Hgap.
  { intros Hrate last Hlast. rewrite Hlast in Hrate. apply Z.ltb_ge in Hrate. exact Hrate. }
  destruct (match addressLastRequest st !! toLowerCase (trim addr) with
            | Some last => now - last <? RATE_LIMIT_MS
            | None => false
            end) eqn:Hrate; [injection H as <- <-; left; split; reflexivity|].
  specialize (Hgap eq_refl). right.
  destruct (new_Wallet lib (privateKey config)) as [err|];
    [|destruct (mint lib config _) as [err|txHash]];
    injection H as <- <-;
    (split; [reflexivity|]); exists addr;
    (split; [reflexivity|]); (split; [apply String.eqb_neq; exact Hempty|]);
    (split; [exact Hvalid|]); (split; [exact Hgap|]); (split; [reflexivity|]);
    cbn [minted]; auto.
Qed.

(** What every sequence of requests keeps: the mint calls are spaced, each
    went to an address that the library accepts, for the default amount. *)
Lemma serve_spaced lib env requests : forall st,
  spaced st ->
  (forall i j c1 c2, (i < j)%nat -> minted st !! i = Some c1 -> minted st !! j = Some c2 ->
     toLowerCase (mint_to c1) = toLowerCase (mint_to c2) ->
     RATE_LIMIT_MS <= mint_at c2 - mint_at c1) ->
  Forall (fun c => isAddress lib (mint_to c) = true /\ mint_amount c = amount) (minted st) ->
  let st' := serve lib env st requests in
  spaced st'
  /\ (forall i j c1 c2, (i < j)%nat -> minted st' !! i = Some c1 -> minted st' !! j = Some c2 ->
        toLowerCase (mint_to c1) = toLowerCase (mint_to c2) ->
        RATE_LIMIT_MS <= mint_at c2 - mint_at c1)
  /\ Forall (fun c => isAddress lib (mint_to c) = true /\ mint_amount c = amount) (minted st').
Proof.
  induction requests as [|[now address] rest IH]; intros st Hsp Hpairs Hall; cbn [serve fold_left].
  - split; [exact Hsp|]. split; [exact Hpairs | exact Hall].
  - cbn [fst snd]. destruct (postFaucet lib env st now address) as [reply st1] eqn:Hrun.
    cbn [snd]. fold (serve lib env st1 rest).
    destruct (postFaucet_step _ _ _ _ _ _ _ Hrun)
      as [[_ ->] | (_ & addr & _ & _ & Hvalid & Hrate & Hmap & Hcalls)];
      [apply IH; assumption|].
    assert (forall c, In c (minted st) ->
              toLowerCase (mint_to c) = toLowerCase (trim addr) ->
              RATE_LIMIT_MS <= now - mint_at c) as Hold.
    { intros c Hin Hkey. destruct (Hsp c Hin) as (last & Hlast & Hgap).
      rewrite Hkey in Hlast. specialize (Hrate last Hlast).
      unfold RATE_LIMIT_MS in *. lia. }
    assert (forall c, In c (minted st) ->
              exists last, addressLastRequest st1 !! toLowerCase (mint_to c) = Some last
                           /\ (last = mint_at c \/ RATE_LIMIT_MS <= last - mint_at c)) as Hkept.
    { intros c Hin. rewrite Hmap.
      destruct (decide (toLowerCase (mint_to c) = toLowerCase (trim addr))) as [Hkey|Hkey].
      - exists now. rewrite Hkey, lookup_insert_eq. split; [reflexivity|].
        right. apply Hold; assumption.
      - rewrite lookup_insert_ne by congruence. apply Hsp, Hin. }
    destruct Hcalls as [Hcalls | Hcalls].
    { apply IH.
      - intros c Hin. rewrite Hcalls in Hin. apply Hkept, Hin.
      - rewrite Hcalls. exact Hpairs.
      - rewrite Hcalls. exact Hall. }
    apply IH.
    + intros c Hin. rewrite Hcalls in Hin.
      apply in_app_or in Hin as [Hin | [<- | []]]; [apply Hkept, Hin|].
      exists now. cbn [mint_to mint_at]. rewrite Hmap, lookup_insert_eq.
      split; [reflexivity|]. left. reflexivity.
    + rewrite Hcalls. intros i j c1 c2 Hij H1 H2 Hkey.
      destruct (decide (j < length (minted st))%nat) as [Hj|Hj].
      * rewrite lookup_app_l in H1, H2 by lia. exact (Hpairs i j c1 c2 Hij H1 H2 Hkey).
      * rewrite lookup_app_r in H2 by lia.
        destruct (j - length (minted st))%nat as [|k] eqn:Hk; [|destruct k; discriminate].
        injection H2 as <-. cbn [mint_to mint_at] in *.
        assert (i < length (minted st))%nat as Hi by lia.
        rewrite lookup_app_l in H1 by lia.
        apply Hold; [|exact Hkey]. apply list_elem_of_In, list_elem_of_lookup. eauto.
    + rewrite Hcalls. apply Forall_app. split; [exact Hall|].
      constructor; [|constructor]. split; [exact Hvalid | reflexivity].
Qed.

(** X24.  However requests arrive, two mint calls for addresses that are equal up
    to case are at least a minute apart by the clock of the requests, and
    every mint call is for an address that the library accepts and for the
    default amount. *)
Theorem postFaucet_rate_limit lib env requests :
  let st := serve lib env initial requests in
  (forall i j c1 c2, (i < j)%nat ->
     minted st !! i = Some c1 -> minted st !! j = Some c2 ->
     toLowerCase (mint_to c1) = toLowerCase (mint_to c2) ->
     RATE_LIMIT_MS <= mint_at c2 - mint_at c1)
  /\ Forall (fun c => isAddress lib (mint_to c) = true
                      /\ Some (mint_amount c) = Units.parseUnits DEFAULT_AMOUNT 6)
            (minted st).
Proof.
  destruct (serve_spaced lib env requests initial) as (_ & Hpairs & Hall).
  - intros c [].
  - intros i j c1 c2 _ H. cbn in H. destruct i; discriminate.
  - constructor.
  - split; [exact Hpairs|]. eapply Forall_impl; [exact Hall|].
    intros c [Hv ->]. split; [exact Hv|]. vm_compute. reflexivity.
Qed.

(** X25.  A request that is refused before or by the rate limit leaves the map
    of the rate limit alone; one that passes it takes the slot of its address
    whether or not the mint succeeds: a request for the same address, in any
    case, less than a minute later is answered 429 without a mint call. *)
Theorem postFaucet_slot_taken lib env st now address reply st' :
  postFaucet lib env st now address = (reply, st') ->
  (attempted reply = false -> st' = st)
  /\ (attempted reply = true ->
      forall now' addr addr',
        address = Execute.Text addr ->
        toLowerCase (trim addr') = toLowerCase (trim addr) ->
        addr' <> "" -> isAddress lib (trim addr') = true ->
        now' - now < RATE_LIMIT_MS ->
        postFaucet lib env st' now' (Execute.Text addr')
        = (FaucetError 429 "Rate limited. Please wait a minute before requesting again.",
           st')).
Proof.
  intros Hrun.
  destruct (postFaucet_step _ _ _ _ _ _ _ Hrun)
    as [[Hno ->] | (Hyes & addr0 & -> & _ & _ & _ & Hmap & _)].
  - split; [reflexivity|]. congruence.
  - split; [congruence|]. intros _ now' addr addr' [= <-] Hkey Hne Hvalid Hsoon.
    unfold postFaucet in *.
    destruct (getFaucetConfig env) as [config|]; [|injection Hrun as <- _; discriminate].
    apply String.eqb_neq in Hne. rewrite Hne, Hvalid. cbn [negb].
    rewrite Hmap, Hkey, lookup_insert_eq.
    apply Z.ltb_lt in Hsoon. rewrite Hsoon. reflexivity.
Qed.

End FaucetFacts.

Section FaucetExamples.
Import Faucet.

(** Witness of [postFaucet_rate_limit]: of three requests for one address,
    written in two ways, the second comes too early and is not minted. *)
Lemma postFaucet_rate_limit_witness :
  RATE_LIMIT_MS <= 60000 - 0.
Proof.
  refine (proj1 (postFaucet_rate_limit Requests.failing_mint Requests.faucet_env
                   [(0, Execute.Text Requests.alice);
                    (1000, Execute.Text (toLowerCase Requests.alice));
                    (60000, Execute.Text Requests.alice)])
                0%nat 1%nat {| mint_at := 0; mint_to := Requests.alice; mint_amount := amount |}
                {| mint_at := 60000; mint_to := Requests.alice; mint_amount := amount |}
                _ _ _ _).
  - lia.
  - vm_compute. reflexivity.
  - vm_compute. reflexivity.
  - reflexivity.
Defined.

(** Witness of [postFaucet_slot_taken]: the mint fails, and the retry one
    second later is refused. *)
Lemma postFaucet_slot_taken_witness :
  exists st',
    postFaucet Requests.failing_mint Requests.faucet_env initial 0
      (Execute.Text Requests.alice)
    = (FaucetError 500 "insufficient funds for gas", st')
    /\ postFaucet Requests.failing_mint Requests.faucet_env st' 1000
         (Execute.Text (toLowerCase Requests.alice))
       = (FaucetError 429 "Rate limited. Please wait a minute before requesting again.",
          st').
Proof.
  eexists. split; [reflexivity|].
  refine (proj2 (postFaucet_slot_taken Requests.failing_mint Requests.faucet_env initial 0
                   (Execute.Text Requests.alice) _ _ eq_refl)
                eq_refl 1000 Requests.alice (toLowerCase Requests.alice) eq_refl _ _ _ _).
  - reflexivity.
  - discriminate.
  - reflexivity.
  - reflexivity.
Defined.

End FaucetExamples.

(** * The dataset store *)

Section DatasetFacts.
Import Datasets.
Implicit Types (store : gmap string object) (net : hosts) (env : dataset_env).

Lemma length_append (s x : string) :
  String.length (s ++ x) = (String.length s + String.length x)%nat.
Proof.
  induction s as [|c rest IH]; [rewrite append_nil; reflexivity|].
  rewrite append_cons. cbn [String.length]. rewrite IH. reflexivity.
Qed.

Lemma strip_suffix_app x s : strip_suffix x (s ++ x) = s.
Proof.
  induction s as [|c rest IH].
  - rewrite append_nil. destruct x as [|c r]; [reflexivity|].
    cbn [strip_suffix]. rewrite String.eqb_refl. reflexivity.
  - rewrite append_cons. cbn [strip_suffix].
    destruct (String.eqb (String c (rest ++ x)) x) eqn:Heq.
    + apply String.eqb_eq in Heq. apply (f_equal String.length) in Heq.
      cbn [String.length] in Heq. rewrite length_append in Heq. lia.
    + rewrite IH. reflexivity.
Qed.

(** X26.  A stored dataset is served again: after [postDataset] has answered with
    an id that is not empty and does not end in [.json], [getDataset] finds
    the body under that id, with or without the extension, whatever the
    file hosts answered, and other ids are served as before. *)
Theorem postDataset_then_getDataset env net store id body data :
  Datasets.as_object body = Some data ->
  id <> "" -> strip_suffix ".json" id = id ->
  exists url publicUrl contacted store',
    postDataset env net store id (js_val body) = (Stored id url publicUrl, store', contacted)
    /\ getDataset store' (js_val id) = Found data
    /\ getDataset store' (js_val (id ++ ".json")) = Found data
    /\ (forall id', strip_suffix ".json" id' <> id ->
          getDataset store' (js_val id') = getDataset store (js_val id')).
Proof.
  intros Hobj Hid Hplain. unfold postDataset. rewrite Hobj.
  destruct (uploadToPublicHost net) as [publicUrl contacted].
  eexists _, _, _, _. split; [reflexivity|].
  apply String.eqb_neq in Hid.
  split; [|split].
  - unfold getDataset. rewrite Hplain. cbn [truthy nullish]. rewrite Hid. cbn [negb].
    rewrite lookup_insert_eq. reflexivity.
  - unfold getDataset. rewrite strip_suffix_app. cbn [truthy nullish]. rewrite Hid.
    cbn [negb]. rewrite lookup_insert_eq. reflexivity.
  - intros id' Hother. unfold getDataset. cbn [truthy nullish].
    destruct (negb (negb (String.eqb (strip_suffix ".json" id') ""))); [reflexivity|].
    rewrite lookup_insert_ne by congruence. reflexivity.
Qed.


End DatasetFacts.

Section DatasetExamples.
Import Datasets.

(** Witness of [postDataset_then_getDataset]. *)
Lemma postDataset_then_getDataset_witness :
  getDataset (<["k3j9x0z1ab" := Members [("payouts", JArr [])]]> ∅) (js_val "k3j9x0z1ab")
  = Found (Members [("payouts", JArr [])]).
Proof.
  destruct (postDataset_then_getDataset Requests.dataset_env Requests.relative_path ∅
              "k3j9x0z1ab" Requests.dataset (Members [("payouts", JArr [])])
              eq_refl ltac:(discriminate) eq_refl)
    as (url & publicUrl & contacted & store' & Hpost & Hget & _).
  injection Hpost as _ _ <- _. exact Hget.
Defined.


End DatasetExamples.

(** * The path normalization of the server *)

Section ServerFacts.
Import Server.

Lemma collapse_step c c' rest :
  collapse_slashes (String c (String c' rest))
  = if Ascii.eqb c "/" && Ascii.eqb c' "/" then collapse_slashes (String c' rest)
    else String c (collapse_slashes (String c' rest)).
Proof. reflexivity. Qed.

Lemma double_slash_step c c' rest :
  double_slash (String c (String c' rest))
  = (Ascii.eqb c "/" && Ascii.eqb c' "/") || double_slash (String c' rest).
Proof. reflexivity. Qed.

Lemma collapse_head c rest : exists t, collapse_slashes (String c rest) = String c t.
Proof.
  revert c. induction rest as [|c' rest' IH]; intros c; [eexists; reflexivity|].
  rewrite collapse_step.
  destruct (Ascii.eqb c "/" && Ascii.eqb c' "/") eqn:Hcc.
  - apply andb_true_iff in Hcc as [Hc Hc']. apply Ascii.eqb_eq in Hc, Hc'. subst c c'.
    apply IH.
  - eexists. reflexivity.
Qed.

Lemma collapse_no_double s : double_slash (collapse_slashes s) = false.
Proof.
  induction s as [|c rest IH]; [reflexivity|].
  destruct rest as [|c' rest']; [reflexivity|].
  rewrite collapse_step.
  destruct (Ascii.eqb c "/" && Ascii.eqb c' "/") eqn:Hcc; [exact IH|].
  destruct (collapse_head c' rest') as [t Ht]. rewrite Ht in *.
  rewrite double_slash_step, Hcc, IH. reflexivity.
Qed.

Lemma collapse_fixed s : double_slash s = false -> collapse_slashes s = s.
Proof.
  induction s as [|c rest IH]; [reflexivity|].
  destruct rest as [|c' rest']; [reflexivity|].
  rewrite double_slash_step, collapse_step. intros H.
  apply orb_false_iff in H as [Hcc Hrest]. rewrite Hcc, (IH Hrest). reflexivity.
Qed.

Lemma collapse_occurs c s :
  c <> "/"%char -> occurs c (collapse_slashes s) = occurs c s.
Proof.
  intros Hc. induction s as [|x rest IH]; [reflexivity|].
  destruct rest as [|x' rest'].
  - reflexivity.
  - rewrite collapse_step.
    destruct (Ascii.eqb x "/" && Ascii.eqb x' "/") eqn:Hcc.
    + rewrite IH. apply andb_true_iff in Hcc as [Hx _]. apply Ascii.eqb_eq in Hx. subst x.
      cbn [occurs]. destruct (Ascii.eqb "/" c) eqn:Hs; [|reflexivity].
      apply Ascii.eqb_eq in Hs. congruence.
    + change (Ascii.eqb x c || occurs c (collapse_slashes (String x' rest'))
              = Ascii.eqb x c || occurs c (String x' rest')).
      rewrite IH. reflexivity.
Qed.

Lemma before_occurs c s : occurs c (before c s) = false.
Proof.
  induction s as [|x rest IH]; [reflexivity|]. cbn [before].
  destruct (Ascii.eqb x c) eqn:Hx; [reflexivity|]. cbn [occurs]. rewrite Hx, IH. reflexivity.
Qed.

Lemma before_absent c s : occurs c s = false -> before c s = s /\ after c s = js_undefined.
Proof.
  induction s as [|x rest IH]; [split; reflexivity|]. cbn [occurs before after]. intros H.
  apply orb_false_iff in H as [Hx Hrest]. rewrite Hx.
  destruct (IH Hrest) as [-> ->]. split; reflexivity.
Qed.

Lemma before_app c p q :
  occurs c p = false ->
  before c (p ++ String c q) = p /\ after c (p ++ String c q) = js_val q.
Proof.
  induction p as [|x rest IH]; intros H.
  - rewrite append_nil. cbn [before after]. rewrite Ascii.eqb_refl. split; reflexivity.
  - rewrite append_cons. cbn [occurs before after] in *.
    apply orb_false_iff in H as [Hx Hrest]. rewrite Hx.
    destruct (IH Hrest) as [-> ->]. split; reflexivity.
Qed.

(** X28.  After the middleware the path of [req.url], the text before its first
    question mark, is the path of the request with every run of slashes
    made one slash, and so has no two slashes in a row; the query is the
    text between the first and the second question mark of the request, and
    is dropped with its question mark when it is empty.  The middleware
    changes nothing when applied again, and leaves alone a URL without a
    question mark and without two slashes in a row. *)
Theorem normalize_spec url :
  let r := normalize url in
  pathPart r = collapse_slashes (pathPart url)
  /\ double_slash (pathPart r) = false
  /\ queryPart r = (if truthy (queryPart url) then queryPart url else js_undefined)
  /\ normalize r = r
  /\ (occurs "?" url = false -> double_slash url = false -> r = url).
Proof.
  intros r.
  assert (occurs "?" (collapse_slashes (pathPart url)) = false) as Hpath.
  { rewrite collapse_occurs by discriminate. apply before_occurs. }
  assert (pathPart r = collapse_slashes (pathPart url)
          /\ queryPart r = (if truthy (queryPart url) then queryPart url else js_undefined))
    as [Hp Hq].
  { unfold r, normalize.
    destruct (queryPart url) as [| |q] eqn:Hquery; cbn [truthy nullish].
    1,2: rewrite append_empty; unfold pathPart at 1, queryPart;
         destruct (before_absent "?" _ Hpath) as [-> ->]; split; reflexivity.
    destruct (String.eqb q "") eqn:Hempty; cbn [negb].
    - rewrite append_empty. unfold pathPart at 1, queryPart.
      destruct (before_absent "?" _ Hpath) as [-> ->]. split; reflexivity.
    - assert (occurs "?" q = false) as Hnone.
      { unfold queryPart in Hquery. destruct (after "?" url); try discriminate.
        injection Hquery as <-. apply before_occurs. }
      rewrite append_cons, append_nil. unfold pathPart at 1, queryPart.
      destruct (before_app "?" _ q Hpath) as [-> ->].
      rewrite (proj1 (before_absent "?" q Hnone)). split; reflexivity. }
  split; [exact Hp|]. split; [rewrite Hp; apply collapse_no_double|].
  split; [exact Hq|]. split.
  - unfold normalize at 1. rewrite Hp, Hq.
    rewrite (collapse_fixed _ (collapse_no_double _)).
    unfold r, normalize. destruct (truthy (queryPart url)) eqn:Ht; [rewrite Ht|]; reflexivity.
  - intros Hnone Hsingle. unfold r, normalize, pathPart, queryPart.
    destruct (before_absent "?" url Hnone) as [-> ->]. cbn [truthy].
    rewrite append_empty. apply collapse_fixed, Hsingle.
Qed.

(** Witness of [normalize_spec]: a clean path is left alone. *)
Lemma normalize_spec_witness : normalize "/health/checks" = "/health/checks".
Proof.
  exact (proj2 (proj2 (proj2 (proj2 (normalize_spec "/health/checks")))) eq_refl eq_refl).
Defined.

End ServerFacts.
